(** * songdb: music database connectivity

    A shallow embedding of [python/songdb.py] (IDJC): the background
    database worker [DBAccessor], the file path transformation built by
    [PrefsControls._cb_bind], and the idle-time view builders of
    [TreePage] and [FlatPage]; then the cell data functions and the
    column widths of [PageCommon], the discovery of the database type
    by [MediaPane], the data for drag and drop, and the search of
    [FlatPage].

    Python 2 byte strings are [string]s of 8-bit [ascii] characters,
    Python integers are [Z], tuples with a fixed layout are records, and
    the exceptions that the code raises or catches are values of
    [py_exn]. *)

From Stdlib Require Import ZArith List String Ascii Bool Lia.
From Stdlib Require Import DecimalString.
From Stdlib Require DecimalPos.
From stdpp Require Import base option list.
Import ListNotations.

Local Open Scope string_scope.
Local Open Scope Z_scope.

(** ** Python values shared by all classes *)

Inductive py_exn : Set :=
| OperationalError      (* sql.OperationalError, a subclass of sql.Error *)
| SqlError              (* any other sql.Error *)
| AttributeError
| TypeError
| ValueError
| IndexError
| AssertionError
| NameError
| ZeroDivisionError.

(** [isinstance(e, sql.Error)] *)
Definition is_sql_error (e : py_exn) : bool :=
  match e with
  | OperationalError | SqlError => true
  | _ => false
  end.

(** [isinstance(e, sql.OperationalError)] *)
Definition is_operational (e : py_exn) : bool :=
  match e with
  | OperationalError => true
  | _ => false
  end.

(** [isinstance(e, AttributeError)] *)
Definition is_attribute_error (e : py_exn) : bool :=
  match e with
  | AttributeError => true
  | _ => false
  end.

(** ** Python 2 [str] methods used by the module *)
Module PyStr.

Definition of_char (c : ascii) : string := String c EmptyString.

(** Number of occurrences test: [sep in s]. *)
Fixpoint contains (sep : ascii) (s : string) : bool :=
  match s with
  | EmptyString => false
  | String c rest => Ascii.eqb c sep || contains sep rest
  end.

(** The position at which [s.rsplit(sep, 1)] cuts: [Some (a, b)] when
    [s] is [a + sep + b] and [sep] does not occur in [b]. *)
Fixpoint rcut (sep : ascii) (s : string) : option (string * string) :=
  match s with
  | EmptyString => None
  | String c rest =>
      match rcut sep rest with
      | Some (a, b) => Some (String c a, b)
      | None => if Ascii.eqb c sep then Some (EmptyString, rest) else None
      end
  end.

(** [s.rsplit(sep, 1)] for a one-character separator: a list of two
    strings when the separator occurs, the list [[s]] otherwise. *)
Definition rsplit1 (sep : ascii) (s : string) : list string :=
  match rcut sep s with
  | Some (a, b) => [a; b]
  | None => [s]
  end.

(** Tuple unpacking [x, y = seq]: [ValueError] unless [seq] has exactly
    two items. *)
Definition unpack2 {A} (l : list A) : py_exn + A * A :=
  match l with
  | [x; y] => inr (x, y)
  | _ => inl ValueError
  end.

(** [c.isspace()] in the C locale. *)
Definition isspace (c : ascii) : bool :=
  let n := nat_of_ascii c in
  (Nat.eqb n 32 || (Nat.leb 9 n && Nat.leb n 13))%bool.

Fixpoint lstrip (s : string) : string :=
  match s with
  | EmptyString => EmptyString
  | String c rest => if isspace c then lstrip rest else s
  end.

Fixpoint rstrip (s : string) : string :=
  match s with
  | EmptyString => EmptyString
  | String c rest =>
      match rstrip rest with
      | EmptyString => if isspace c then EmptyString else of_char c
      | r => String c r
      end
  end.

(** [s.strip()] *)
Definition strip (s : string) : string := rstrip (lstrip s).

Definition digit_value (c : ascii) : option Z :=
  let n := nat_of_ascii c in
  if (Nat.leb 48 n && Nat.leb n 57)%bool then Some (Z.of_nat (n - 48)) else None.

(** Value of a string of decimal digits, [acc] being the value of the
    digits already read; [None] on any other character. *)
Fixpoint digits_value (acc : Z) (s : string) : option Z :=
  match s with
  | EmptyString => Some acc
  | String c rest =>
      match digit_value c with
      | Some d => digits_value (10 * acc + d) rest
      | None => None
      end
  end.

Definition unsigned_value (s : string) : option Z :=
  match s with
  | EmptyString => None
  | _ => digits_value 0 s
  end.

(** [int(s)] in base ten: surrounding white space is ignored, one sign
    is accepted, at least one digit is required. [None] stands for the
    [ValueError] that [int] raises on any other text. *)
Definition int (s : string) : option Z :=
  match strip s with
  | String "+" rest => unsigned_value rest
  | String "-" rest => Z.opp <$> unsigned_value rest
  | t => unsigned_value t
  end.

Fixpoint drop (n : nat) (s : string) : string :=
  match n, s with
  | O, _ => s
  | S _, EmptyString => EmptyString
  | S n', String _ rest => drop n' rest
  end.

(** The slice [s[start:]]: a negative [start] counts from the end, and
    both ends are clamped to the string. *)
Definition slice_from (start : Z) (s : string) : string :=
  let len := Z.of_nat (String.length s) in
  let k := if start <? 0 then Z.max 0 (len + start) else start in
  drop (Z.to_nat k) s.

Definition lower_char (c : ascii) : ascii :=
  let n := nat_of_ascii c in
  if (Nat.leb 65 n && Nat.leb n 90)%bool then ascii_of_nat (n + 32) else c.

(** [s.lower()] on ASCII letters. *)
Fixpoint lower (s : string) : string :=
  match s with
  | EmptyString => EmptyString
  | String c rest => String (lower_char c) (lower rest)
  end.

(** ["%d" % n] *)
Definition of_Z (n : Z) : string := NilZero.string_of_int (Z.to_int n).

End PyStr.

(** ** PrefsControls: the file path transformation *)
Module PrefsControls.

(** The parameters collated for the [DBAccessor] constructor (the
    [notify] entry is the status bar callback and carries no data). *)
Record conn_data : Set := ConnData {
  cd_hostnameport : string;
  cd_user : string;
  cd_password : string;
  cd_database : string
}.

(** The text entries and the spin button read by [_cb_bind]. *)
Record widgets : Set := Widgets {
  _hostnameport : string;
  _user : string;
  _password : string;
  _database : string;
  _delchars : Z;      (* get_value_as_int () *)
  _addchars : string  (* get_text () *)
}.

(** The function made under "Make a file path transformation
    function". *)
Definition transform (del_qty : Z) (prepend_str : string) : string -> string :=
  if (negb (del_qty =? 0) || negb (String.eqb prepend_str ""))%bool
  then fun input_str => prepend_str ++ PyStr.slice_from del_qty input_str
  else fun s => s.

(** [_cb_bind]: the arguments handed to the callback, [None, None]
    when the toggle button is not active. *)
Definition _cb_bind (active : bool) (self : widgets)
  : option (conn_data * (string -> string)) :=
  if active then
    let conn := ConnData (PyStr.strip (_hostnameport self))
                         (PyStr.strip (_user self))
                         (PyStr.strip (_password self))
                         (PyStr.strip (_database self)) in
    let del_qty := _delchars self in
    let prepend_str := PyStr.strip (_addchars self) in
    Some (conn, transform del_qty prepend_str)
  else None.

End PrefsControls.

(** ** DBAccessor: the worker thread *)
Module DBAccessor.

(** A statement is what [cursor.execute] is applied to: the query text
    and its parameters. The query of a job is [None] or a statement. *)
Definition statement : Set := string * list string.

(** A job is the tuple [(sql_query, handler, failhandler)]; handlers are
    named, their code belongs to the consumer. *)
Record job : Set := Job {
  job_query : option statement;
  job_handler : string;
  job_failhandler : option string
}.

(** What a handler, running inside [run], calls on the accessor and on
    the [notify] function that it is given. *)
Inductive acc_call : Set :=
| CallRequest (j : job)
| CallReplaceCursor
| CallPurgeJobQueue (remain : Z)
| CallDisconnect
| CallNotify (msg : string).

(** What the consumer thread calls while the worker is running. *)
Inductive consumer_call : Set :=
| ConsumerRequest (j : job)
| ConsumerClose.

Inductive exec_outcome : Set :=
| ExecRows (rows : Z)
| ExecRaises (e : py_exn).

Inductive connect_outcome : Set :=
| Connected (utf8_ok : bool)
| ConnectRaises (e : py_exn).

(** Everything outside the worker: the database server, the code of the
    handlers, and the consumer thread. A handler is given by the calls
    it makes; a fail handler by what it notifies and by the exception
    that it raises after that, if it raises one, as [_fail_2] and
    [_fail_3] of the media pane do. [consumer t] lists the calls the
    consumer makes during the [t]-th blocking operation of the worker;
    the blocking operations are the wait for the semaphore, a statement
    sent to the server, an attempt to connect, [time.sleep] and the run
    of a handler. *)
Record world : Type := World {
  execute_result : nat -> exec_outcome;
  connect_result : nat -> connect_outcome;
  handler_body : string -> Z -> list acc_call;
  failhandler_notes : string -> py_exn -> list string;
  failhandler_raises : string -> py_exn -> option py_exn;
  consumer : nat -> list consumer_call
}.

(** What can be called back: the [notify] function of the consumer, a
    handler, a fail handler. *)
Inductive callable : Set :=
| Notify (msg : string)
| Handler (name : string) (cursor : option nat) (rows : Z)
| FailHandler (name : string) (e : py_exn).

(** The log of the worker thread. [Call f] is a call made by the worker
    thread itself; [IdleAdd f] is [glib.idle_add (f, ...)], which queues
    [f] for the main loop of the consumer. [Try n] marks the entry of
    the body of [while trycount < 3] with [trycount = n]. *)
Inductive event : Set :=
| Call (f : callable)
| IdleAdd (f : callable)
| Try (trycount : Z)
| Execute (cursor : nat) (q : statement)
| Connect
| CursorClose (cursor : nat)
| HandleClose
| Print (e : py_exn)
| Sleep
| Consumer (c : consumer_call).

Inductive handle_state : Set := HandleOpen | HandleClosed.

(** The arguments of [sql.Connection], as [__init__] keeps them. *)
Record connection_args : Set := ConnectionArgs {
  hostname : string;
  port : Z;
  user : string;
  password : string;
  database : string
}.

(** The accessor object, followed by the bookkeeping of the model: the
    number of blocking operations, statements and connections so far,
    the number of cursor objects made, and the log of what happened.
    [is_alive] is [threading.Thread.is_alive]. *)
Record accessor : Set := Accessor {
  args : connection_args;
  _handle : option handle_state;
  _cursor : option nat;
  jobs : list job;
  semaphore : nat;
  keepalive : bool;
  is_alive : bool;
  clock : nat;
  executed : nat;
  connections : nat;
  cursors : nat;
  log : list event
}.

Definition set_handle (h : option handle_state) (s : accessor) : accessor :=
  Accessor (args s) h (_cursor s) (jobs s) (semaphore s)
    (keepalive s) (is_alive s) (clock s) (executed s) (connections s)
    (cursors s) (log s).

Definition set_cursor (c : option nat) (s : accessor) : accessor :=
  Accessor (args s) (_handle s) c (jobs s) (semaphore s)
    (keepalive s) (is_alive s) (clock s) (executed s) (connections s)
    (cursors s) (log s).

Definition set_jobs (js : list job) (s : accessor) : accessor :=
  Accessor (args s) (_handle s) (_cursor s) js (semaphore s)
    (keepalive s) (is_alive s) (clock s) (executed s) (connections s)
    (cursors s) (log s).

Definition set_semaphore (n : nat) (s : accessor) : accessor :=
  Accessor (args s) (_handle s) (_cursor s) (jobs s) n
    (keepalive s) (is_alive s) (clock s) (executed s) (connections s)
    (cursors s) (log s).

Definition set_keepalive (b : bool) (s : accessor) : accessor :=
  Accessor (args s) (_handle s) (_cursor s) (jobs s)
    (semaphore s) b (is_alive s) (clock s) (executed s) (connections s)
    (cursors s) (log s).

Definition set_is_alive (b : bool) (s : accessor) : accessor :=
  Accessor (args s) (_handle s) (_cursor s) (jobs s)
    (semaphore s) (keepalive s) b (clock s) (executed s) (connections s)
    (cursors s) (log s).

Definition set_clock (n : nat) (s : accessor) : accessor :=
  Accessor (args s) (_handle s) (_cursor s) (jobs s)
    (semaphore s) (keepalive s) (is_alive s) n (executed s) (connections s)
    (cursors s) (log s).

Definition set_executed (n : nat) (s : accessor) : accessor :=
  Accessor (args s) (_handle s) (_cursor s) (jobs s)
    (semaphore s) (keepalive s) (is_alive s) (clock s) n (connections s)
    (cursors s) (log s).

Definition set_connections (n : nat) (s : accessor) : accessor :=
  Accessor (args s) (_handle s) (_cursor s) (jobs s)
    (semaphore s) (keepalive s) (is_alive s) (clock s) (executed s) n
    (cursors s) (log s).

Definition set_cursors (n : nat) (s : accessor) : accessor :=
  Accessor (args s) (_handle s) (_cursor s) (jobs s)
    (semaphore s) (keepalive s) (is_alive s) (clock s) (executed s)
    (connections s) n (log s).

Definition add_log (e : event) (s : accessor) : accessor :=
  Accessor (args s) (_handle s) (_cursor s) (jobs s)
    (semaphore s) (keepalive s) (is_alive s) (clock s) (executed s)
    (connections s) (cursors s) (log s ++ [e]).

(** *** The constructor *)

(** The [try] block at the head of [__init__]. *)
Definition parse_hostnameport (hostnameport : string) : string * Z :=
  match PyStr.unpack2 (PyStr.rsplit1 ":" hostnameport) with
  | inr (hostname, port) =>
      match PyStr.int port with
      | Some port => (hostname, port)
      | None => (hostnameport, 3306)       (* except ValueError *)
      end
  | inl _ => (hostnameport, 3306)          (* except ValueError *)
  end.

(** [__init__], up to and including [self.start ()]. *)
Definition __init__ (hostnameport user password database : string) : accessor :=
  let '(hostname, port) := parse_hostnameport hostnameport in
  Accessor (ConnectionArgs hostname port user password database)
    None None [] 1%nat true true 0%nat 0%nat 0%nat 0%nat [].

(** *** Computations of the worker thread *)

Inductive outcome (A : Type) : Type :=
| Normal (a : A)
| Raise (e : py_exn)
| OutOfFuel.                 (* the model stops: its fuel is used up *)
Arguments Normal {A} a.
Arguments Raise {A} e.
Arguments OutOfFuel {A}.

Definition M (A : Type) : Type := accessor -> outcome A * accessor.

#[global] Instance M_ret : MRet M := fun A a s => (Normal a, s).

#[global] Instance M_bind : MBind M := fun A B f m s =>
  match m s with
  | (Normal a, s') => f a s'
  | (Raise e, s') => (Raise e, s')
  | (OutOfFuel, s') => (OutOfFuel, s')
  end.

Definition raise {A} (e : py_exn) : M A := fun s => (Raise e, s).
Definition out_of_fuel {A} : M A := fun s => (OutOfFuel, s).
Definition get : M accessor := fun s => (Normal s, s).
Definition modify (f : accessor -> accessor) : M unit := fun s => (Normal tt, f s).
Definition emit (e : event) : M unit := modify (add_log e).

(** [try: m  except <catches> as e: handler e  else: orelse] *)
Definition try_except {A B} (m : M A) (catches : py_exn -> bool)
    (handler : py_exn -> M B) (orelse : A -> M B) : M B := fun s =>
  match m s with
  | (Normal a, s') => orelse a s'
  | (Raise e, s') => if catches e then handler e s' else (Raise e, s')
  | (OutOfFuel, s') => (OutOfFuel, s')
  end.

(** [try: m  except Exception: pass] *)
Definition swallow (m : M unit) : M unit :=
  try_except m (fun _ => true) (fun _ => mret tt) mret.

(** [try: m  finally: final] *)
Definition try_finally {A} (m : M A) (final : M unit) : M A := fun s =>
  match m s with
  | (Normal a, s') => (final ;; mret a) s'
  | (Raise e, s') => (final ;; raise e) s'
  | (OutOfFuel, s') => (OutOfFuel, s')
  end.

(** [notify = partial (glib.idle_add, threadslock (self.notify))] *)
Definition notify (msg : string) : M unit := emit (IdleAdd (Notify msg)).

(** [request], here as a transformation of the shared state. *)
Definition request (j : job) (s : accessor) : accessor :=
  set_semaphore (S (semaphore s)) (set_jobs (jobs s ++ [j]) s).

(** [close] *)
Definition close (s : accessor) : accessor :=
  if is_alive s
  then set_semaphore (S (semaphore s)) (set_keepalive false s)
  else s.

Definition consumer_step (s : accessor) (c : consumer_call) : accessor :=
  add_log (Consumer c)
    match c with
    | ConsumerRequest j => request j s
    | ConsumerClose => close s
    end.

Section Worker.

Variable w : world.

(** One blocking operation of the worker goes by: the consumer makes
    the calls it has for this moment. *)
Definition after_tick (s : accessor) : accessor :=
  set_clock (S (clock s)) (fold_left consumer_step (consumer w (clock s)) s).

Definition tick : M unit := modify after_tick.

(** [self.semaphore.acquire ()] *)
Fixpoint acquire (fuel : nat) : M unit := fun s =>
  match semaphore s with
  | S n => (Normal tt, set_semaphore n s)
  | O =>
      match fuel with
      | O => (OutOfFuel, s)
      | S fuel' => (tick ;; acquire fuel') s
      end
  end.

(** [self._cursor.close ()] *)
Definition cursor_close : M unit := fun s =>
  match _cursor s with
  | None => (Raise AttributeError, s)
  | Some c => emit (CursorClose c) s
  end.

(** [self._handle.close ()]: closing a closed connection is an
    error of the driver. *)
Definition handle_close : M unit := fun s =>
  match _handle s with
  | None => (Raise AttributeError, s)
  | Some HandleClosed => (Raise SqlError, s)
  | Some HandleOpen => (modify (set_handle (Some HandleClosed)) ;; emit HandleClose) s
  end.

(** [disconnect] *)
Definition disconnect : M unit :=
  try_except handle_close is_sql_error
    (fun _ => notify "Problem dropping connection")
    (fun _ => notify "Connection dropped").

(** [self._handle.cursor ()]: a new cursor object. *)
Definition new_cursor : M unit := fun s =>
  match _handle s with
  | None => (Raise AttributeError, s)
  | Some _ => (Normal tt, set_cursors (S (cursors s)) (set_cursor (Some (cursors s)) s))
  end.

(** [replace_cursor] *)
Definition replace_cursor (cursor : option nat) : M unit := fun s =>
  if decide (cursor = _cursor s) then new_cursor s
  else (Raise AssertionError, s).

(** [purge_job_queue] *)
Fixpoint purge_job_queue (fuel : nat) (remain : Z) : M unit := fun s =>
  if Z.of_nat (length (jobs s)) >? remain then
    match fuel with
    | O => (OutOfFuel, s)
    | S fuel' =>
        match jobs s with
        | [] => (Raise IndexError, s)              (* popleft *)
        | _ :: rest =>
            (modify (set_jobs rest) ;; acquire fuel' ;;
             purge_job_queue fuel' remain) s
        end
    end
  else (Normal tt, s).

(** The calls of a handler, made with the cursor it was handed. *)
Definition do_call (fuel : nat) (cursor : option nat) (c : acc_call) : M unit :=
  match c with
  | CallRequest j => modify (request j)
  | CallReplaceCursor => replace_cursor cursor
  | CallPurgeJobQueue remain => purge_job_queue fuel remain
  | CallDisconnect => disconnect
  | CallNotify msg => notify msg
  end.

Fixpoint do_calls (fuel : nat) (cursor : option nat) (cs : list acc_call) : M unit :=
  match cs with
  | [] => mret tt
  | c :: cs' => do_call fuel cursor c ;; do_calls fuel cursor cs'
  end.

(** [handler (self, self.request, self._cursor, notify, rows)] *)
Definition call_handler (fuel : nat) (name : string) (rows : Z) : M unit :=
  s ← get;
  emit (Call (Handler name (_cursor s) rows)) ;;
  tick ;;
  do_calls fuel (_cursor s) (handler_body w name rows).

Fixpoint notify_all (msgs : list string) : M unit :=
  match msgs with
  | [] => mret tt
  | m :: ms => notify m ;; notify_all ms
  end.

(** [failhandler (e, notify)] *)
Definition call_failhandler (name : string) (e : option py_exn) : M unit :=
  match e with
  | None => raise NameError
  | Some e =>
      emit (Call (FailHandler name e)) ;;
      tick ;;
      notify_all (failhandler_notes w name e) ;;
      match failhandler_raises w name e with
      | Some e' => raise e'
      | None => mret tt
      end
  end.

(** [self._cursor.execute ( *query)] *)
Definition execute (query : option statement) : M Z := fun s =>
  match _cursor s with
  | None => (Raise AttributeError, s)
  | Some c =>
      match query with
      | None => (Raise TypeError, s)
      | Some q =>
          (emit (Execute c q) ;;
           tick ;;
           modify (set_executed (S (executed s))) ;;
           match execute_result w (executed s) with
           | ExecRows rows => mret rows
           | ExecRaises e => raise e
           end) s
      end
  end.

(** [sql.Connection (...)] followed by [self._handle.cursor ()]; the
    result tells whether the three [set ... utf8] statements of the
    [else] branch go through. *)
Definition connect : M bool := fun s =>
  (emit Connect ;;
   tick ;;
   modify (set_connections (S (connections s))) ;;
   match connect_result w (connections s) with
   | ConnectRaises e => raise e
   | Connected utf8_ok =>
       modify (set_handle (Some HandleOpen)) ;;
       new_cursor ;;
       mret utf8_ok
   end) s.

(** How one pass through the body of [while trycount < 3] ends. *)
Inductive pass : Set :=
| Break
| Return
| Again (trycount : Z) (e : py_exn).

(** The [except (sql.Error, AttributeError) as e] branch. *)
Definition on_error (trycount : Z) (e : py_exn) : M pass :=
  s ← get;
  if negb (keepalive s) then mret Return else
  (if is_operational e
   then swallow cursor_close ;; swallow handle_close
   else mret tt) ;;
  s ← get;
  if negb (keepalive s) then mret Return else
  notify "Connecting" ;;
  let trycount := trycount + 1 in
  try_except connect is_sql_error
    (fun e =>
       notify ("Connection failed (try " ++ PyStr.of_Z trycount ++ ")") ;;
       emit (Print e) ;;
       emit Sleep ;; tick ;;
       mret (Again trycount e))
    (fun utf8_ok =>
       (if utf8_ok : bool
        then notify "Connected"
        else notify "Connected: utf-8 mode failed") ;;
       mret (Again trycount e)).

(** One pass through the body of [while trycount < 3]. *)
Definition attempt (fuel : nat) (j : job) (trycount : Z) : M pass :=
  emit (Try trycount) ;;
  try_except
    ((match job_query j with
      | None => disconnect
      | Some _ => mret tt
      end) ;;
     execute (job_query j))
    (fun e => is_sql_error e || is_attribute_error e)
    (on_error trycount)
    (fun rows =>
       s ← get;
       if negb (keepalive s) then mret Return else
       call_handler fuel (job_handler j) rows ;;
       mret Break).

(** [while trycount < 3: ... else: ...]; the result tells whether
    [run] goes on ([true]) or returns ([false]). *)
Fixpoint retry (fuel : nat) (j : job) (trycount : Z) (e : option py_exn) : M bool :=
  if trycount <? 3 then
    match fuel with
    | O => out_of_fuel
    | S fuel' =>
        p ← attempt fuel' j trycount;
        match p with
        | Break => mret true
        | Return => mret false
        | Again trycount' e' => retry fuel' j trycount' (Some e')
        end
    end
  else
    (match job_failhandler j with
     | Some failhandler => call_failhandler failhandler e
     | None => notify "Job dropped"
     end) ;;
    mret true.

(** [while self.keepalive: ...] *)
Fixpoint loop (fuel : nat) : M unit :=
  match fuel with
  | O => out_of_fuel
  | S fuel' =>
      s ← get;
      if keepalive s then
        acquire fuel' ;;
        s ← get;
        match jobs s with
        | j :: rest =>
            if keepalive s then
              modify (set_jobs rest) ;;
              go_on ← retry fuel' j 0 None;
              if go_on : bool then loop fuel' else mret tt
            else loop fuel'
        | [] => loop fuel'
        end
      else mret tt
  end.

(** [run]: the worker thread, which is no longer alive when it
    ends. *)
Definition run (fuel : nat) : M unit := fun s =>
  match try_finally (loop fuel)
          (swallow cursor_close ;; swallow handle_close ;;
           notify "Disconnected") s with
  | (OutOfFuel, s') => (OutOfFuel, s')
  | (r, s') => (r, set_is_alive false s')
  end.

End Worker.

End DBAccessor.

(** ** PageCommon, TreePage and FlatPage: the idle-time view builders *)
Module Pages.

Definition AMPACHE : string := "Ampache".
Definition PROKYON_3 : string := "Prokyon 3".

(** A record fetched from the database: the nine columns that every
    query of the module selects, [row[0]] to [row[8]]. *)
Record row : Set := Row {
  r_artist : string;
  r_album : string;
  r_tracknumber : Z;
  r_title : string;
  r_length : Z;
  r_bitrate : Z;
  r_filename : string;     (* [file] in the Ampache schema *)
  r_path : string;         (* padding in the Ampache schema *)
  r_disk : Z
}.

(** A cursor holds what its next calls of [fetchone] give: a row, or
    an exception of the driver; [None] when nothing is left. *)
Definition cursor : Set := list (py_exn + row).

Definition fetchone (c : cursor) : (py_exn + option row) * cursor :=
  match c with
  | [] => (inr None, [])
  | inr r :: rest => (inr (Some r), rest)
  | inl e :: rest => (inl e, rest)
  end.

(** A namespace is a two item list [[kill, payload]], shared between
    [_update_id] and the idle functions: it lives in a heap and is
    referred to by its address. The payload is a tuple whose layouts
    depend on the page. *)
Record namespace (P : Set) : Set := Namespace {
  kill : bool;
  data : P
}.
Arguments Namespace {P} kill data.
Arguments kill {P} n.
Arguments data {P} n.

(** The functions given to [glib.idle_add] and [glib.timeout_add], with
    the address of their namespace argument. *)
Inductive source : Set :=
| Update1 (rows : Z) (ns : nat)
| TreeUpdate2 (total do_max : Z) (ns : nat)
| TreeUpdate3 (ns : nat)
| FlatUpdate2 (ns : nat)
| ProgressPulse.

Inductive model : Set := ArtistStore | AlbumStore | ListStore.

(** The state that [PageCommon] keeps, with the namespaces made so far
    and the sources registered with glib. *)
Record common (P : Set) : Type := Common {
  heap : list (namespace P);
  sources : list (nat * source);
  next_context : nat;
  _update_id : list (nat * nat);          (* (context, namespace) *)
  view_model : option model;              (* [tree_view.get_model ()] *)
  db_type : string;
  transform : string -> string
}.
Arguments Common {P} heap sources next_context _update_id view_model db_type transform.
Arguments heap {P} c.
Arguments sources {P} c.
Arguments next_context {P} c.
Arguments _update_id {P} c.
Arguments view_model {P} c.
Arguments db_type {P} c.
Arguments transform {P} c.

Section Common.

Context {P : Set}.

Definition set_heap (h : list (namespace P)) (c : common P) : common P :=
  Common h (sources c) (next_context c) (_update_id c) (view_model c)
    (db_type c) (transform c).

Definition set_update_id (u : list (nat * nat)) (c : common P) : common P :=
  Common (heap c) (sources c) (next_context c) u (view_model c)
    (db_type c) (transform c).

(** [tree_view.set_model (m)] *)
Definition set_model (m : option model) (c : common P) : common P :=
  Common (heap c) (sources c) (next_context c) (_update_id c) m
    (db_type c) (transform c).

(** [glib.idle_add (f, ...)]: the context that identifies the source. *)
Definition idle_add (f : source) (c : common P) : nat * common P :=
  (next_context c,
   Common (heap c) (sources c ++ [(next_context c, f)]) (S (next_context c))
     (_update_id c) (view_model c) (db_type c) (transform c)).

(** [glib.source_remove (context)] *)
Definition source_remove (context : nat) (c : common P) : common P :=
  Common (heap c)
    (filter (fun cf => negb (Nat.eqb (fst cf) context)) (sources c))
    (next_context c) (_update_id c) (view_model c) (db_type c) (transform c).

(** A new list object [[kill, payload]]: its address. *)
Definition allocate (n : namespace P) (c : common P) : nat * common P :=
  (length (heap c), set_heap (heap c ++ [n]) c).

(** [namespace[0] = True] *)
Definition set_kill (ns : nat) (c : common P) : common P :=
  set_heap (alter (fun n => Namespace true (data n)) ns (heap c)) c.

(** [namespace[1] = d] *)
Definition set_data (ns : nat) (d : P) (c : common P) : common P :=
  set_heap (alter (fun n => Namespace (kill n) d) ns (heap c)) c.

(** The loop [while self._update_id: ...] of [deactivate], [_handler]
    and [_cb_update]: every pending update is withdrawn and told to
    clean up. *)
Fixpoint cancel (pending : list (nat * nat)) (c : common P) : common P :=
  match pending with
  | [] => set_update_id [] c
  | (context, ns) :: rest =>
      cancel rest (set_kill ns (source_remove context (set_update_id rest c)))
  end.

Definition cancel_updates (c : common P) : common P := cancel (_update_id c) c.

(** [PageCommon._handler], as far as the page is concerned: pending
    updates are cancelled and [_update_1] is scheduled with a new
    namespace [[False, ()]], [empty] being the tuple [()]. *)
Definition _handler (empty : P) (rows : Z) (c : common P) : common P :=
  let c := cancel_updates c in
  let '(ns, c) := allocate (Namespace false empty) c in
  let '(context, c) := idle_add (Update1 rows ns) c in
  set_update_id (_update_id c ++ [(context, ns)]) c.

End Common.

(** How a call of an idle function ends: with the boolean that tells
    glib to call it again, or with an exception. *)
Inductive ending : Set :=
| Returns (again : bool)
| Raises (e : py_exn).

(** *** FlatPage *)

(** A row of [list_store]: the found index and nine more columns. *)
Definition flat_row : Set := Z * row.

(** The payload of a namespace of the page: [()] or [(found, )]. *)
Inductive flat_payload : Set :=
| FEmpty
| FFound (found : Z).

Record flat_page : Type := FlatPage {
  f_common : common flat_payload;
  list_store : list flat_row;
  found_title : string           (* the title of [tree_cols[0]] *)
}.

Definition f_with (f : common flat_payload -> common flat_payload) (p : flat_page) : flat_page :=
  FlatPage (f (f_common p)) (list_store p) (found_title p).

(** [FlatPage._update_1]; the first case, an address without a
    namespace, is there for the model only. *)
Definition flat_update_1 (rows : Z) (ns : nat) (p : flat_page) : ending * flat_page :=
  match heap (f_common p) !! ns with
  | None => (Raises NameError, p)
  | Some n =>
      if negb (kill n) then
        let c := set_model None (f_common p) in
        let c := set_data ns (FFound 0) c in
        let '(context, c) := idle_add (FlatUpdate2 ns) c in
        let c := set_update_id (_update_id c ++ [(context, ns)]) c in
        (Returns false, FlatPage c [] (found_title p))
      else (Returns false, p)
  end.

(** The tuple appended to [list_store] for a row, after the split of
    the Ampache [file] column; [except IndexError] does not catch the
    [ValueError] of the unpacking. *)
Definition flat_tuple (ampache : bool) (transform : string -> string)
    (found : Z) (r : row) : py_exn + flat_row :=
  if ampache then
    match PyStr.unpack2 (PyStr.rsplit1 "/" (r_filename r)) with
    | inr (path, fname) =>
        inr (found, Row (r_artist r) (r_album r) (r_tracknumber r) (r_title r)
                        (r_length r) (r_bitrate r) fname (transform path) (r_disk r))
    | inl e => inl e
    end
  else
    inr (found, Row (r_artist r) (r_album r) (r_tracknumber r) (r_title r)
                    (r_length r) (r_bitrate r) (r_filename r)
                    (transform (r_path r)) (r_disk r)).

(** [ampache = self._db_type == AMPACHE] *)
Definition is_ampache (p : flat_page) : bool :=
  String.eqb (db_type (f_common p)) AMPACHE.

(** The [else] branch of [if row]: what is done when the cursor is
    exhausted. *)
Definition finish (found : Z) (p : flat_page) : flat_page :=
  if negb (found =? 0) then
    FlatPage (set_model (Some ListStore) (f_common p)) (list_store p)
      ("(" ++ PyStr.of_Z found ++ ")")
  else p.

(** How [for i in xrange (100)] is left. *)
Inductive flat_exit : Type :=
| FlatDone (found : Z)            (* the range is used up *)
| FlatEnds (e : ending).          (* [return] or an exception *)

(** [for i in xrange (n): ...] of [FlatPage._update_2]. *)
Fixpoint flat_loop (n : nat) (keepalive : bool) (found : Z)
    (p : flat_page) (cur : cursor) : flat_exit * flat_page * cursor :=
  match n with
  | O => (FlatDone found, p, cur)
  | S n' =>
      if negb keepalive then (FlatEnds (Returns false), p, cur) else
      match fetchone cur with
      | (inl e, cur') =>
          if is_sql_error e then (FlatEnds (Returns false), p, cur')
          else (FlatEnds (Raises e), p, cur')
      | (inr (Some r), cur') =>
          let found := found + 1 in
          match flat_tuple (is_ampache p) (transform (f_common p)) found r with
          | inr t =>
              flat_loop n' keepalive found
                (FlatPage (f_common p) (list_store p ++ [t]) (found_title p)) cur'
          | inl e =>
              if match e with IndexError => true | _ => false end
              then flat_loop n' keepalive found p cur'        (* continue *)
              else (FlatEnds (Raises e), p, cur')
          end
      | (inr None, cur') => (FlatEnds (Returns false), finish found p, cur')
      end
  end.

(** [FlatPage._update_2] *)
Definition flat_update_2 (keepalive : bool) (ns : nat) (p : flat_page)
    (cur : cursor) : ending * flat_page * cursor :=
  match heap (f_common p) !! ns with
  | None => (Raises NameError, p, cur)
  | Some (Namespace kill (FFound found)) =>
      if kill then (Returns false, p, cur) else
      match flat_loop 100 keepalive found p cur with
      | (FlatDone found, p, cur) =>
          (Returns true, f_with (set_data ns (FFound found)) p, cur)
      | (FlatEnds e, p, cur) => (e, p, cur)
      end
  | Some (Namespace _ FEmpty) =>
      (Raises ValueError, p, cur)            (* [kill, (found, ) = namespace] *)
  end.

(** *** TreePage *)

(** The payload of a namespace of the page: [()], [(r_dep, l_dep,
    done)] or [(i1, )]. *)
Inductive tree_payload : Set :=
| TEmpty
| TDepths (r_dep l_dep done : Z)
| TIter (i1 : option nat).

(** The eight columns of [artist_store]: depth, text, track, duration,
    bitrate, filename, path, disk. [album_store] has a ninth. *)
Record node : Set := Node {
  n_depth : Z;
  n_text : string;
  n_track : Z;
  n_duration : Z;
  n_bitrate : Z;
  n_filename : string;
  n_path : string;
  n_disk : Z
}.

(** A [gtk.TreeStore]: the rows in the order of their insertion, each
    with the iter of its parent; the iter of a row is its position. *)
Definition tree_store (R : Set) : Set := list (option nat * R).

(** [store.append (parent, r)]: the iter of the new row. *)
Definition append {R : Set} (store : tree_store R) (parent : option nat) (r : R)
  : tree_store R * nat :=
  ((store ++ [(parent, r)])%list, length store).

(** [artist_store] and the attributes that the first [while 1] loop of
    [_update_2] keeps on the page. *)
Record artist_side : Set := ArtistSide {
  artist_store : tree_store node;
  artlower : option string;
  alblower : option string;
  r_iter1 : option nat;
  r_iter2 : option nat
}.

(** [album_store] and the attributes of the second loop. *)
Record album_side : Set := AlbumSide {
  album_store : tree_store (node * string);
  albartlower : option (string * string);
  l_iter : option nat
}.

(** [progress_bar.set_fraction (done / total)]: the two operands. *)
Inductive fraction : Set := Ratio (done total : Z).

Record tree_page : Type := TreePage {
  t_common : common tree_payload;
  artist : artist_side;
  album : album_side;
  sort_column_id : option Z;
  loading_label : string;
  progress : fraction;
  _pulse_id : list nat
}.

(** Reading an attribute of the page that may not have been set. *)
Definition attribute {A : Type} (o : option A) : py_exn + A :=
  match o with
  | Some a => inr a
  | None => inl AttributeError
  end.

Definition and_then {A B : Type} (x : py_exn + A) (f : A -> py_exn + B) : py_exn + B :=
  match x with
  | inl e => inl e
  | inr a => f a
  end.

(** One pass through the first [while 1] of [TreePage._update_2]: the
    three [if] statements in turn; [true] when the pass ends in
    [break]. *)
Definition artist_pass (transform : string -> string) (r : row)
    (r_dep : Z) (a : artist_side) : py_exn + bool * Z * artist_side :=
  let '(r_dep, a) :=
    if r_dep =? 0 then
      let art := r_artist r in
      let '(store, it) := append (artist_store a) None (Node (-1) art 0 0 0 "" "" 0) in
      (1, ArtistSide store (Some (PyStr.lower art)) (alblower a) (Some it) (r_iter2 a))
    else (r_dep, a) in
  and_then
    (if r_dep =? 1 then
       and_then (attribute (artlower a)) (fun artlower_ =>
       if String.eqb artlower_ (PyStr.lower (r_artist r)) then
         let alb := r_album r in
         and_then (attribute (r_iter1 a)) (fun iter1 =>
         let '(store, it) := append (artist_store a) (Some iter1) (Node (-2) alb 0 0 0 "" "" 0) in
         inr (2, ArtistSide store (artlower a) (Some (PyStr.lower alb)) (r_iter1 a) (Some it)))
       else inr (0, a))
     else inr (r_dep, a))
    (fun '(r_dep, a) =>
     if r_dep =? 2 then
       and_then (attribute (artlower a)) (fun artlower_ =>
       and_then (if String.eqb artlower_ (PyStr.lower (r_artist r))
                 then and_then (attribute (alblower a)) (fun alblower_ =>
                      inr (String.eqb alblower_ (PyStr.lower (r_album r))))
                 else inr false) (fun same =>
       if same : bool then
         let path := transform (r_path r) in
         and_then (attribute (r_iter2 a)) (fun iter2 =>
         let '(store, _) := append (artist_store a) (Some iter2)
               (Node 0 (r_title r) (r_tracknumber r) (r_length r) (r_bitrate r)
                     (r_filename r) path (r_disk r)) in
         inr (true, r_dep, ArtistSide store (artlower a) (alblower a) (r_iter1 a) (r_iter2 a)))
       else inr (false, 1, a)))
     else inr (false, r_dep, a)).

(** The first [while 1]; [None] when the fuel is used up. *)
Fixpoint artist_loop (fuel : nat) (transform : string -> string) (r : row)
    (r_dep : Z) (a : artist_side) : option (py_exn + Z * artist_side) :=
  match fuel with
  | O => None
  | S fuel' =>
      match artist_pass transform r r_dep a with
      | inl e => Some (inl e)
      | inr (true, r_dep, a) => Some (inr (r_dep, a))
      | inr (false, r_dep, a) => artist_loop fuel' transform r r_dep a
      end
  end.

(** One pass through the second [while 1]. *)
Definition album_pass (transform : string -> string) (r : row)
    (l_dep : Z) (a : album_side) : py_exn + bool * Z * album_side :=
  and_then
    (if l_dep =? 0 then
       let key := (PyStr.lower (r_album r), PyStr.lower (r_artist r)) in
       let '(store, it) := append (album_store a) None
             (Node (-1) (r_album r) 0 0 0 "" "" 0, r_artist r) in
       let '(store, it) := append store (Some it)
             (Node (-2) (r_artist r) 0 0 0 "" "" 0, "") in
       inr (1, AlbumSide store (Some key) (Some it))
     else inr (l_dep, a))
    (fun '(l_dep, a) =>
     if l_dep =? 1 then
       and_then (attribute (albartlower a)) (fun key =>
       if (String.eqb (fst key) (PyStr.lower (r_album r)) &&
           String.eqb (snd key) (PyStr.lower (r_artist r)))%bool then
         let path := transform (r_path r) in
         and_then (attribute (l_iter a)) (fun it =>
         let '(store, _) := append (album_store a) (Some it)
               (Node 0 (r_title r) (r_tracknumber r) (r_length r) (r_bitrate r)
                     (r_filename r) path (r_disk r), "") in
         inr (true, l_dep, AlbumSide store (albartlower a) (l_iter a)))
       else inr (false, 0, a))
     else inr (false, l_dep, a)).

(** The second [while 1]. *)
Fixpoint album_loop (fuel : nat) (transform : string -> string) (r : row)
    (l_dep : Z) (a : album_side) : option (py_exn + Z * album_side) :=
  match fuel with
  | O => None
  | S fuel' =>
      match album_pass transform r l_dep a with
      | inl e => Some (inl e)
      | inr (true, l_dep, a) => Some (inr (l_dep, a))
      | inr (false, l_dep, a) => album_loop fuel' transform r l_dep a
      end
  end.

(** The split of the Ampache [file] column into path and file name:
    [row = row[0:6] + (filename, path) + row[8:]]. *)
Definition split_file (r : row) : py_exn + row :=
  and_then (PyStr.unpack2 (PyStr.rsplit1 "/" (r_filename r))) (fun '(path, filename) =>
  inr (Row (r_artist r) (r_album r) (r_tracknumber r) (r_title r)
           (r_length r) (r_bitrate r) filename path (r_disk r))).

(** How [for each in xrange (do_max)] is left. *)
Inductive tree_exit : Set :=
| TreeDone (r_dep l_dep : Z)      (* the range is used up *)
| TreeEnds (e : ending).          (* [return] or an exception *)

Section TreeUpdate.

(** [album_store.get_iter_root ()]: the first row of the sorted
    store, which GTK chooses. *)
Variable get_iter_root : tree_store (node * string) -> option nat.

(** [TreePage._update_1] *)
Definition tree_update_1 (rows : Z) (ns : nat) (p : tree_page) : ending * tree_page :=
  match heap (t_common p) !! ns with
  | None => (Raises NameError, p)
  | Some n =>
      if kill n then (Returns false, p) else
      let c := fold_left (fun c context => source_remove context c)
                 (_pulse_id p) (t_common p) in
      let c := set_model None c in
      let '(ns', c) := allocate (Namespace false (TDepths 0 0 0)) c in
      let do_max := Z.min (Z.max 30 (rows / 100)) 200 in
      let total := rows in
      let '(context, c) := idle_add (TreeUpdate2 total do_max ns') c in
      let c := set_update_id (_update_id c ++ [(context, ns')]) c in
      (Returns false,
       TreePage c
         (ArtistSide [] (artlower (artist p)) (alblower (artist p))
            (r_iter1 (artist p)) (r_iter2 (artist p)))
         (AlbumSide [] (albartlower (album p)) (l_iter (album p)))
         (sort_column_id p) "Populating" (progress p) [])
  end.

(** What [_update_2] does when [fetchone] gives [None] and the
    accessor is kept alive: the album store is sorted and
    [_update_3] is scheduled with a namespace of its own. *)
Definition start_merge (p : tree_page) : tree_page :=
  let '(ns', c) :=
    allocate (Namespace false (TIter (get_iter_root (album_store (album p)))))
      (t_common p) in
  let '(context, c) := idle_add (TreeUpdate3 ns') c in
  let c := set_update_id (_update_id c ++ [(context, ns')]) c in
  TreePage c (artist p) (album p) (Some 0) "Merging Albums" (Ratio 1 1)
    (_pulse_id p).

(** [for each in xrange (n): ...] of [TreePage._update_2]; [None]
    when the fuel of a [while 1] loop is used up. *)
Fixpoint tree_loop (n fuel : nat) (keepalive : bool) (r_dep l_dep : Z)
    (p : tree_page) (cur : cursor) : option (tree_exit * tree_page * cursor) :=
  match n with
  | O => Some (TreeDone r_dep l_dep, p, cur)
  | S n' =>
      if negb keepalive then Some (TreeEnds (Returns false), p, cur) else
      match fetchone cur with
      | (inl e, cur') => Some (TreeEnds (Raises e), p, cur')
      | (inr None, cur') =>
          Some (TreeEnds (Returns false),
                if keepalive then start_merge p else p, cur')
      | (inr (Some r), cur') =>
          let transform := transform (t_common p) in
          let ampache := String.eqb (db_type (t_common p)) AMPACHE in
          match (if ampache then split_file r else inr r) with
          | inl ValueError => tree_loop n' fuel keepalive r_dep l_dep p cur'
          | inl e => Some (TreeEnds (Raises e), p, cur')
          | inr r =>
              match artist_loop fuel transform r r_dep (artist p) with
              | None => None
              | Some (inl e) => Some (TreeEnds (Raises e), p, cur')
              | Some (inr (r_dep, art)) =>
                  let p := TreePage (t_common p) art (album p) (sort_column_id p)
                             (loading_label p) (progress p) (_pulse_id p) in
                  match album_loop fuel transform r l_dep (album p) with
                  | None => None
                  | Some (inl e) => Some (TreeEnds (Raises e), p, cur')
                  | Some (inr (l_dep, alb)) =>
                      tree_loop n' fuel keepalive r_dep l_dep
                        (TreePage (t_common p) (artist p) alb (sort_column_id p)
                           (loading_label p) (progress p) (_pulse_id p)) cur'
                  end
              end
          end
      end
  end.

(** [TreePage._update_2] *)
Definition tree_update_2 (fuel : nat) (keepalive : bool) (total do_max : Z)
    (ns : nat) (p : tree_page) (cur : cursor)
  : option (ending * tree_page * cursor) :=
  match heap (t_common p) !! ns with
  | None => Some (Raises NameError, p, cur)
  | Some (Namespace kill (TDepths r_dep l_dep done)) =>
      if kill then Some (Returns false, p, cur) else
      match tree_loop (Z.to_nat do_max) fuel keepalive r_dep l_dep p cur with
      | None => None
      | Some (TreeEnds e, p, cur) => Some (e, p, cur)
      | Some (TreeDone r_dep l_dep, p, cur) =>
          let done := done + do_max in
          if total =? 0 then Some (Raises ZeroDivisionError, p, cur) else
          Some (Returns true,
                TreePage (set_data ns (TDepths r_dep l_dep done) (t_common p))
                  (artist p) (album p) (sort_column_id p) (loading_label p)
                  (Ratio done total) (_pulse_id p),
                cur)
      end
  | Some (Namespace _ _) =>
      Some (Raises ValueError, p, cur)   (* [kill, (r_dep, l_dep, done) = namespace] *)
  end.

End TreeUpdate.

End Pages.

(** ** What is observed of the worker and of the builders *)

(** The log of the worker thread. *)
Module WorkerLog.
Import DBAccessor.

(** Every job in the queue has its signal in the semaphore: so it is
    when the accessor is made, and so it stays when the consumer calls
    [request] or [close]. *)
Definition signalled (s : accessor) : Prop :=
  (length (jobs s) <= semaphore s)%nat.

(** The entries that the worker thread makes: all but the calls of the
    consumer. *)
Definition is_worker (e : event) : bool :=
  match e with
  | Consumer _ => false
  | _ => true
  end.





(** From [s] to [s'] the worker was not told to stop, the consumer has
    only added requests at the end of the queue, each with its signal,
    and the entries that the worker thread has added to the log are
    [k]. *)
Definition worker_ext (k : list event) (s s' : accessor) : Prop :=
  keepalive s' = keepalive s /\
  (exists added, jobs s' = (jobs s ++ added)%list /\
                 semaphore s' = (semaphore s + length added)%nat) /\
  exists seg, log s' = (log s ++ seg)%list /\ List.filter is_worker seg = k.

(** *** A pass in which the statement fails, as the worker logs it *)







(** A callable is where it belongs: handlers are called by the worker
    thread, [notify] is queued for the main loop of the consumer. *)
Definition well_placed (e : event) : bool :=
  match e with
  | Call (Notify _) => false
  | IdleAdd (Handler _ _ _) | IdleAdd (FailHandler _ _) => false
  | _ => true
  end.

(** The calls of handlers and fail handlers. *)
Definition is_handler_call (e : event) : bool :=
  match e with
  | Call (Handler _ _ _) | Call (FailHandler _ _) => true
  | _ => false
  end.

(** The log has grown, by entries that are where they belong. *)
Definition grows (s s' : accessor) : Prop :=
  exists seg, log s' = (log s ++ seg)%list /\ forallb well_placed seg = true.

(** A computation of the worker under which the log grows so. *)
Definition growing {A : Type} (m : M A) : Prop :=
  forall s, grows s (snd (m s)).

End WorkerLog.

(** Runs of the flat builder. *)
Module Builders.
Import Pages.

(** glib calls an idle function again for as long as it returns [True]:
    the calls of [FlatPage._update_2] that follow one call of
    [_update_1]; [None] when more than [calls] calls are needed. *)
Fixpoint flat_run (calls : nat) (keepalive : bool) (ns : nat) (p : flat_page)
    (cur : cursor) : option (ending * flat_page * cursor) :=
  match calls with
  | O => None
  | S calls' =>
      match flat_update_2 keepalive ns p cur with
      | (Returns true, p', cur') => flat_run calls' keepalive ns p' cur'
      | r => Some r
      end
  end.

(** The rows that the flat builder is expected to store for the rows
    [rs] of the database, the last found index being [found]. *)
Fixpoint stored (ampache : bool) (transform : string -> string) (found : Z)
    (rs : list row) : list flat_row :=
  match rs with
  | [] => []
  | r :: rest =>
      match flat_tuple ampache transform (found + 1) r with
      | inr t => t :: stored ampache transform (found + 1) rest
      | inl _ => []
      end
  end.

(** A row that the flat builder can store: in an Ampache database its
    [file] has a ["/"]. *)
Definition splits (ampache : bool) (r : row) : Prop :=
  ampache = true -> PyStr.contains "/" (r_filename r) = true.

(** A row of the database, for the examples. *)
Definition song (artist album title file : string) : row :=
  Row artist album 1 title 180 128 file "" 1.

End Builders.

(** What the worker is expected to log. *)
Module Service.
Import DBAccessor.

(** A call of a handler that only adds to the queue or notifies, as
    the calls of the stages of the media pane are. *)
Definition plain (c : acc_call) : bool :=
  match c with
  | CallRequest _ | CallNotify _ => true
  | _ => false
  end.

(** The requests among the calls of a handler. *)
Fixpoint requested (cs : list acc_call) : list job :=
  match cs with
  | [] => []
  | CallRequest j :: rest => j :: requested rest
  | _ :: rest => requested rest
  end.

(** The notifications among the calls of a handler, as they are
    logged. *)
Fixpoint notified (cs : list acc_call) : list event :=
  match cs with
  | [] => []
  | CallNotify msg :: rest => IdleAdd (Notify msg) :: notified rest
  | _ :: rest => notified rest
  end.

(** The log of a worker that serves the jobs [js] in turn with the
    cursor [c], each at its first attempt, the next statement being the
    [n]-th that is sent to the server. *)
Fixpoint served (w : world) (c : nat) (n : nat) (js : list job) : list event :=
  match js with
  | [] => []
  | j :: rest =>
      match job_query j, execute_result w n with
      | Some q, ExecRows rows =>
          [Try 0; Execute c q; Call (Handler (job_handler j) (Some c) rows)]
          ++ notified (handler_body w (job_handler j) rows)
          ++ served w c (S n) rest
      | _, _ => []
      end
  end.

(** The requests that the handlers of the jobs [js] make, when these
    are served in turn. *)
Fixpoint asked (w : world) (n : nat) (js : list job) : list job :=
  match js with
  | [] => []
  | j :: rest =>
      match execute_result w n with
      | ExecRows rows =>
          requested (handler_body w (job_handler j) rows) ++ asked w (S n) rest
      | ExecRaises _ => []
      end
  end.

(** The statements that a log shows as sent to the server. *)
Fixpoint statements (l : list event) : list statement :=
  match l with
  | [] => []
  | Execute _ q :: rest => q :: statements rest
  | _ :: rest => statements rest
  end.

(** The handlers that a log shows as called. *)
Fixpoint handlers (l : list event) : list string :=
  match l with
  | [] => []
  | Call (Handler name _ _) :: rest => name :: handlers rest
  | _ :: rest => handlers rest
  end.

(** What the [finally] block of [run] closes: the cursor, and the
    connection when it is open. *)
Definition closing (s : accessor) : list event :=
  match _cursor s with Some c => [CursorClose c] | None => [] end ++
  match _handle s with Some HandleOpen => [HandleClose] | _ => [] end.

End Service.

(** What the tree builder is expected to store. *)
Module Trees.
Import Pages.

(** The rows that [TreePage._update_2] appends: the rows of depth -1
    and -2, which have a text only, and the row of a track. *)
Definition top_row (text : string) : node := Node (-1) text 0 0 0 "" "" 0.

Definition second_row (text : string) : node := Node (-2) text 0 0 0 "" "" 0.

Definition track (transform : string -> string) (r : row) : node :=
  Node 0 (r_title r) (r_tracknumber r) (r_length r) (r_bitrate r)
    (r_filename r) (transform (r_path r)) (r_disk r).

(** The row that the loop works with: in an Ampache database the row
    after the split of its [file] column, and nothing when the split
    fails. *)
Definition prepared (ampache : bool) (r : row) : option row :=
  if ampache then
    match split_file r with
    | inr r' => Some r'
    | inl _ => None
    end
  else Some r.

Section Filed.

Context {R : Set}.

(** The columns of a row of the store that [artist_store] has too. *)
Variable columns : R -> node.

(** Where a row with the parent [parent] is filed: the texts of its
    grandparent and of its parent, in lower case. *)
Definition lineage (store : tree_store R) (parent : option nat)
  : option (string * string) :=
  p ← parent;
  '(grand, x) ← store !! p;
  g ← grand;
  '(_, y) ← store !! g;
  Some (PyStr.lower (n_text (columns y)), PyStr.lower (n_text (columns x))).

(** The tracks among the rows [l] of [store], which are the rows of
    depth 0, each with the place where it is filed. *)
Definition filed_in (store l : tree_store R) : list (option (string * string) * R) :=
  flat_map (fun '(parent, x) =>
              if n_depth (columns x) =? 0 then [(lineage store parent, x)] else [])
    l.

Definition filed (store : tree_store R) : list (option (string * string) * R) :=
  filed_in store store.

End Filed.

(** The tracks of the rows [ds], the way they belong into
    [artist_store] and into [album_store]. *)
Definition by_artist (transform : string -> string) (ds : list row)
  : list (option (string * string) * node) :=
  map (fun r => (Some (PyStr.lower (r_artist r), PyStr.lower (r_album r)),
                 track transform r)) ds.

Definition by_album (transform : string -> string) (ds : list row)
  : list (option (string * string) * (node * string)) :=
  map (fun r => (Some (PyStr.lower (r_album r), PyStr.lower (r_artist r)),
                 (track transform r, ""))) ds.

(** Between two rows the first [while 1] loop is at depth 0, or at
    depth 2 with its attributes set: [r_iter1] is the row of an artist,
    [r_iter2] a row below it, and [artlower] and [alblower] are their
    texts in lower case. *)
Definition artist_ready (r_dep : Z) (a : artist_side) : Prop :=
  r_dep = 0 \/
  r_dep = 2 /\
  exists i1 i2 x y,
    r_iter1 a = Some i1 /\ r_iter2 a = Some i2 /\
    artist_store a !! i1 = Some (None, x) /\
    artist_store a !! i2 = Some (Some i1, y) /\
    artlower a = Some (PyStr.lower (n_text x)) /\
    alblower a = Some (PyStr.lower (n_text y)).

(** The same for the second loop: [l_iter] is the row of an artist
    below the row of an album. *)
Definition album_ready (l_dep : Z) (a : album_side) : Prop :=
  l_dep = 0 \/
  l_dep = 1 /\
  exists i g x y,
    l_iter a = Some i /\
    album_store a !! g = Some (None, x) /\
    album_store a !! i = Some (Some g, y) /\
    albartlower a = Some (PyStr.lower (n_text (fst x)), PyStr.lower (n_text (fst y))).

(** The page between two rows, the rows [ds] being those that the
    builder has worked on: both stores hold one track for each of them,
    in their order, each filed under its artist and its album. *)
Definition files (r_dep l_dep : Z) (p : tree_page) (ds : list row) : Prop :=
  artist_ready r_dep (artist p) /\
  album_ready l_dep (album p) /\
  filed (fun x => x) (artist_store (artist p))
  = by_artist (transform (t_common p)) ds /\
  filed fst (album_store (album p))
  = by_album (transform (t_common p)) ds.

End Trees.

(** ** PageCommon: the cell data functions of the columns *)
Module Cells.

(** What a cell data function does to the renderer of its column:
    calls of [renderer.set_property], in their order. *)
Inductive set_property : Set :=
| text (value : string)
| xalign (value : Z).          (* 1 for 1.0 *)

(** [divmod (a, b)] *)
Definition divmod (a b : Z) : Z * Z := (a / b, a mod b).

(** ["%02d" % n] *)
Definition zfill2 (n : Z) : string :=
  let s := PyStr.of_Z n in
  if Nat.ltb (String.length s) 2 then "0" ++ s else s.

(** The three [divmod] of [_cell_secs_to_h_m_s]: days, hours, minutes
    and seconds. *)
Definition d_h_m_s (v_in : Z) : Z * Z * Z * Z :=
  let '(m, s) := divmod v_in 60 in
  let '(h, m) := divmod m 60 in
  let '(d, h) := divmod h 24 in
  (d, h, m, s).

(** [_cell_secs_to_h_m_s], [v_in] being the value of the cell. *)
Definition _cell_secs_to_h_m_s (v_in : Z) : list set_property :=
  let '(d, h, m, s) := d_h_m_s v_in in
  let v_out :=
    if negb (d =? 0) then
      PyStr.of_Z d ++ "d:" ++ zfill2 h ++ ":" ++ zfill2 m
    else if negb (h =? 0) then
      PyStr.of_Z h ++ ":" ++ zfill2 m ++ ":" ++ zfill2 s
    else
      PyStr.of_Z m ++ ":" ++ zfill2 s in
  [xalign 1; text v_out].

(** [_cond_cell_secs_to_h_m_s], [depth] being the value of column 0. *)
Definition _cond_cell_secs_to_h_m_s (depth v_in : Z) : list set_property :=
  if depth >=? 0 then _cell_secs_to_h_m_s v_in else [text ""].

(** [_cell_k] *)
Definition _cell_k (_db_type : string) (bitrate : Z) : list set_property :=
  (if bitrate =? 0 then [text ""]
   else if String.eqb _db_type "P3" then [text (PyStr.of_Z bitrate ++ "k")]
   else if ((bitrate >? 9999) && String.eqb _db_type Pages.AMPACHE)%bool
        then [text (PyStr.of_Z (bitrate / 1000) ++ "k")]
   else [])
  ++ [xalign 1].

(** [_cell_show_unknown] *)
Definition _cell_show_unknown (value : string) : list set_property :=
  if String.eqb value "" then [text "<unknown>"] else [].

(** [_cell_ralign], for a column of integers. *)
Definition _cell_ralign (val : Z) : list set_property :=
  if negb (val =? 0) then [xalign 1] else [text ""].

(** The text that a cell shows: the text of the attribute of the
    column, unless the cell data function has set another. *)
Fixpoint shown (attribute : string) (calls : list set_property) : string :=
  match calls with
  | [] => attribute
  | text value :: rest => shown value rest
  | xalign _ :: rest => shown attribute rest
  end.

End Cells.

(** ** PageCommon: the widths of the columns *)
Module Columns.

(** A [gtk.TreeViewColumn], as far as its widths go. *)
Record column : Set := Column {
  get_width : Z;
  get_fixed_width : Z
}.

(** [x.set_fixed_width (w)]; GTK refuses a width that is not
    positive, and leaves the column as it is. *)
Definition set_fixed_width (w : Z) (x : column) : column :=
  if 0 <? w then Column (get_width x) w else x.

(** [a or b] on integers *)
Definition or_ (a b : Z) : Z := if a =? 0 then b else a.

(** [sep.join (l)] *)
Fixpoint join (sep : string) (l : list string) : string :=
  match l with
  | [] => ""
  | [x] => x
  | x :: rest => x ++ sep ++ join sep rest
  end.

(** [s.split (sep)] for a separator of one character. *)
Fixpoint split (sep : ascii) (s : string) : list string :=
  match s with
  | EmptyString => [""]
  | String c rest =>
      if Ascii.eqb c sep then "" :: split sep rest
      else
        match split sep rest with
        | w :: ws => String c w :: ws
        | [] => [PyStr.of_char c]
        end
  end.

(** [get_col_widths] *)
Definition get_col_widths (tree_cols : list column) : string :=
  join "," (map (fun x => PyStr.of_Z (or_ (get_width x) (get_fixed_width x)))
              tree_cols).

(** What stops [set_col_widths]: [c.next ()] with no column left, or
    [int (w)]. *)
Inductive raised : Set :=
| StopIteration
| Exception (e : py_exn).

(** [for w in ...: ...] of [set_col_widths], [c] being the columns
    that the iterator has not given yet: the exception that ends the
    loop, if any, and the columns as they are then. *)
Fixpoint restore (ws : list string) (c : list column) : option raised * list column :=
  match ws with
  | [] => (None, c)
  | w :: ws' =>
      match c with
      | [] => (Some StopIteration, [])
      | x :: c' =>
          if negb (String.eqb w "0") then
            match PyStr.int w with
            | Some n =>
                let '(r, c'') := restore ws' c' in
                (r, set_fixed_width n x :: c'')
            | None => (Some (Exception ValueError), x :: c')
            end
          else
            let '(r, c'') := restore ws' c' in
            (r, x :: c'')
      end
  end.

(** [set_col_widths] *)
Definition set_col_widths (data : string) (tree_cols : list column)
  : option raised * list column :=
  restore (split "," data) tree_cols.

(** A text without white space. *)
Fixpoint spaceless (s : string) : bool :=
  match s with
  | EmptyString => true
  | String c rest => negb (PyStr.isspace c) && spaceless rest
  end.

End Columns.

(** ** MediaPane: the discovery of the database type *)
Module MediaPane.
Import DBAccessor.

(** [s.split ()]: the words of [s], which white space separates. *)
Fixpoint split (s : string) : list string :=
  match s with
  | EmptyString => []
  | String c rest =>
      if PyStr.isspace c then split rest
      else
        match rest with
        | EmptyString => [PyStr.of_char c]
        | String c' _ =>
            if PyStr.isspace c' then PyStr.of_char c :: split rest
            else
              match split rest with
              | w :: ws => String c w :: ws
              | [] => [PyStr.of_char c]
              end
        end
  end.

(** The rows that [cursor.fetchall ()] gives: tuples of columns. *)
Definition table : Set := list (list string).

(** [x[0] for x in data] *)
Fixpoint first_columns (data : table) : py_exn + list string :=
  match data with
  | [] => inr []
  | [] :: _ => inl IndexError
  | (x0 :: _) :: rest =>
      match first_columns rest with
      | inr l => inr (x0 :: l)
      | inl e => inl e
      end
  end.

(** [a.issubset (b)], the sets being given by their elements. *)
Definition issubset (a b : list string) : bool :=
  forallb (fun x => existsb (String.eqb x) b) a.

(** [schema_test] *)
Definition schema_test (string_ : string) (data : table) : py_exn + bool :=
  match first_columns data with
  | inr names => inr (issubset (split string_) names)
  | inl e => inl e
  end.

(** What a handler of the pane does: requests to the accessor,
    notifications, and calls of [_safe_disconnect] and [_hand_over]. *)
Inductive action : Set :=
| request (j : job)
| notify (msg : string)
| _safe_disconnect
| _hand_over (database_name : string).

(** [request ((query,), handler, failhandler)] *)
Definition ask (query handler failhandler : string) : action :=
  request (Job (Some (query, [])) handler (Some failhandler)).

(** The [else] branch of the stages. *)
Definition unrecognised : list action :=
  [notify "Unrecognised database"; _safe_disconnect].

Definition _stage_1 (data : table) : py_exn + list action :=
  Pages.and_then (schema_test "tracks" data) (fun found =>
  if found : bool then inr [ask "DESCRIBE tracks" "_stage_2" "_fail_1"]
  else
    Pages.and_then (schema_test "album artist song" data) (fun found =>
    if found : bool then inr [ask "DESCRIBE song" "_stage_4" "_fail_1"]
    else inr unrecognised)).

Definition _stage_2 (data : table) : py_exn + list action :=
  Pages.and_then
    (schema_test "artist title album tracknumber bitrate path filename" data)
    (fun found =>
     if found : bool then
       inr [notify "Found Prokyon 3 schema";
            ask "ALTER TABLE tracks ADD FULLTEXT artist (artist,title,
                        album,filename)" "_stage_3" "_fail_2"]
     else inr unrecognised).

Definition _stage_3 : list action :=
  [notify "Fulltext index added"; _hand_over "Prokyon 3"].

Definition _stage_4 (data : table) : py_exn + list action :=
  Pages.and_then (schema_test "artist title album track bitrate file" data)
    (fun found =>
     if found : bool then inr [ask "DESCRIBE artist" "_stage_5" "_fail_1"]
     else inr unrecognised).

Definition _stage_5 (data : table) : py_exn + list action :=
  Pages.and_then (schema_test "name prefix" data) (fun found =>
  if found : bool then inr [ask "DESCRIBE artist" "_stage_6" "_fail_1"]
  else inr unrecognised).

Definition _stage_6 (data : table) : py_exn + list action :=
  Pages.and_then (schema_test "name prefix" data) (fun found =>
  if found : bool then
    inr [notify "Found Ampache schema";
         ask "ALTER TABLE album ADD FULLTEXT idjc (name)" "_stage_7" "_fail_3"]
  else inr unrecognised).

Definition _stage_7 : list action :=
  [ask "ALTER TABLE artist ADD FULLTEXT idjc (name)" "_stage_8" "_fail_3"].

Definition _stage_8 : list action :=
  [ask "ALTER TABLE song ADD FULLTEXT idjc (title)" "_stage_9" "_fail_3"].

Definition _stage_9 : list action :=
  [notify "Fulltext index added"; _hand_over Pages.AMPACHE].

(** [_fail_1] *)
Definition _fail_1 : list action := [_safe_disconnect].

(** An item of [exception.args]. *)
Inductive argument : Set :=
| Number (n : Z)
| Text (s : string).

(** [code != 1061] *)
Definition differs_from_1061 (code : argument) : bool :=
  match code with
  | Number n => negb (n =? 1061)
  | Text _ => true
  end.

(** The function [inner] that [factory (dbtype)] returns; [notify_]
    is not a name that is bound in the module. *)
Definition factory (dbtype : string) (exception_args : list argument)
  : py_exn + list action :=
  match exception_args with
  | [] => inr [_hand_over dbtype]                  (* except IndexError: pass *)
  | code :: _ =>
      if differs_from_1061 code then inl NameError
      else inr [_hand_over dbtype]
  end.

Definition _fail_2 : list argument -> py_exn + list action := factory Pages.PROKYON_3.

Definition _fail_3 : list argument -> py_exn + list action := factory Pages.AMPACHE.

(** The actions that activate the pages. *)
Definition hands_over (a : action) : bool :=
  match a with
  | _hand_over _ => true
  | _ => false
  end.

(** What the actions of a handler come to for the accessor, the
    handler running in the worker thread: [request] and [notify] are
    the two functions that [run] passes; [_safe_disconnect] and
    [_hand_over] call nothing of the accessor, and leave their work to
    the main loop. *)
Fixpoint accessor_calls (acts : list action) : list acc_call :=
  match acts with
  | [] => []
  | request j :: rest => CallRequest j :: accessor_calls rest
  | notify msg :: rest => CallNotify msg :: accessor_calls rest
  | _ :: rest => accessor_calls rest
  end.

End MediaPane.

(** ** Drag and drop: the files of the selected rows *)
Module DragData.
Import Pages.

(** ["file://%s/%s" % row], [row] being a path and a file name. *)
Definition uri (row : string * string) : string :=
  "file://" ++ fst row ++ "/" ++ snd row.

(** ["\n"] *)
Definition newline : string := PyStr.of_char "010".

(** [FlatPage._drag_data]: the paths are the positions of the selected
    rows in the list store, and a generator whose code raises is used
    up by [join], which raises in its turn. *)
Fixpoint flat_drag_data (model : list flat_row) (paths : list nat)
  : py_exn + list (string * string) :=
  match paths with
  | [] => inr []
  | path :: rest =>
      match model !! path with
      | None => inl IndexError
      | Some (_, row) =>
          and_then (flat_drag_data model rest) (fun l =>
          inr ((r_path row, r_filename row) :: l))
      end
  end.

Section Tree.

(** [model[path]] for a tree store: the row at a path, if there is
    one. *)
Variable getitem : list nat -> option node.




End Tree.

(** [_cb_drag_data_get]: the text given to the selection. *)
Definition _cb_drag_data_get (rows : py_exn + list (string * string))
  : py_exn + string :=
  and_then rows (fun l => inr (Columns.join newline (map uri l))).

End DragData.

(** ** FlatPage: the search *)
Module Search.
Import Pages DBAccessor.

(** The double quote of the queries. *)
Definition dq : string := PyStr.of_char "034".

(** [FUZZY, CLEAN, WHERE, DIRTY = xrange (4)]: the access modes. *)
Inductive access_mode : Set := CLEAN | DIRTY.

Definition prokyon_fuzzy : string :=
  "
                    SELECT artist,album,tracknumber,title,length,
                    bitrate,filename,path,0 as disk FROM tracks
                    WHERE MATCH (artist,album,title,filename) AGAINST (%s)
                    ".

Definition prokyon_where : string :=
  "
                    SELECT artist,album,tracknumber,title,length,
                    bitrate,filename, path, 0 as disk FROM tracks WHERE (%s)
                    ORDER BY artist,album,path,tracknumber,title
                    ".

Definition ampache_fuzzy : string :=
  "
                    SELECT
                    concat_ws(" ++ dq ++ " " ++ dq ++ ",artist.prefix,artist.name),
                    concat_ws(" ++ dq ++ " " ++ dq ++ ",album.prefix,album.name),
                    track as tracknumber, title, time as length,
                    bitrate, file, " ++ dq ++ dq ++ " as padding, album.disk as disk FROM song
                    LEFT JOIN artist ON artist.id = song.artist
                    LEFT JOIN album ON album.id = song.album
                    WHERE
                         (MATCH(album.name) against(%s)
                          OR MATCH(artist.name) against(%s)
                          OR MATCH(title) against(%s))
                    ".

Definition ampache_where : string :=
  "
                    SELECT
                    concat_ws(" ++ dq ++ " " ++ dq ++ ", artist.prefix, artist.name) as artist,
                    concat_ws(" ++ dq ++ " " ++ dq ++ ", album.prefix, album.name) as albumname,
                    track as tracknumber, title,
                    time as length, bitrate, file, " ++ dq ++ dq ++ " as padding,
                    album.disk as disk FROM song
                    LEFT JOIN album on album.id = song.album
                    LEFT JOIN artist on artist.id = song.artist
                    WHERE (%s) ORDER BY
                    artist.name, album.name, file, album.disk, track, title
                    ".

(** [_queries_table[db_type]]: the entries [FUZZY] and [WHERE];
    [None] stands for [KeyError]. *)
Definition _queries_table (db_type : string)
  : option ((access_mode * string) * (access_mode * string)) :=
  if String.eqb db_type PROKYON_3 then
    Some ((CLEAN, prokyon_fuzzy), (DIRTY, prokyon_where))
  else if String.eqb db_type AMPACHE then
    Some ((CLEAN, ampache_fuzzy), (DIRTY, ampache_where))
  else None.

(** [s.startswith (p)] *)
Fixpoint startswith (p s : string) : bool :=
  match p, s with
  | EmptyString, _ => true
  | String _ _, EmptyString => false
  | String a p', String b s' => Ascii.eqb a b && startswith p' s'
  end.

(** [s.count (sub)]: the occurrences of [sub] that do not overlap,
    from the left; [skip] characters belong to the occurrence found
    last. *)
Fixpoint count_from (sub : string) (skip : nat) (s : string) : Z :=
  match s with
  | EmptyString => if String.eqb sub "" then 1 else 0
  | String _ rest =>
      match skip with
      | S skip' => count_from sub skip' rest
      | O =>
          if startswith sub s
          then 1 + count_from sub (String.length sub - 1) rest
          else count_from sub 0 rest
      end
  end.

Definition count (sub s : string) : Z := count_from sub 0 s.

(** [template % args] for a tuple of texts; the templates of the
    module have no other conversion than [%s]. *)
Fixpoint format (template : string) (args : list string) : py_exn + string :=
  match template with
  | EmptyString =>
      match args with
      | [] => inr EmptyString
      | _ :: _ => inl TypeError           (* not all arguments converted *)
      end
  | String "%" (String "s" rest) =>
      match args with
      | [] => inl TypeError               (* not enough arguments *)
      | a :: args' => and_then (format rest args') (fun t => inr (a ++ t))
      end
  | String "%" (String "%" rest) =>
      and_then (format rest args) (fun t => inr (String "%" t))
  | String "%" _ => inl ValueError
  | String c rest => and_then (format rest args) (fun t => inr (String c t))
  end.

(** [s * n] *)
Definition times (s : string) (n : Z) : string :=
  String.concat "" (repeat s (Z.to_nat n)).

(** [_cb_update], on a page that is activated: the request made, if
    any, the text of [where_entry] afterwards, and the page. *)
Definition _cb_update (fuzzy_entry where_entry : string) (p : flat_page)
  : py_exn + option job * string * flat_page :=
  match _queries_table (db_type (f_common p)) with
  | None => inr (None, where_entry, p)        (* except KeyError: ... return *)
  | Some (fuzzy, where_) =>
      let user_text := PyStr.strip fuzzy_entry in
      if negb (String.eqb user_text "") then
        let '(access_mode, query) := fuzzy in
        let qty := count "(%s)" query in
        match access_mode with
        | CLEAN =>
            inr (Some (Job (Some (query, repeat user_text (Z.to_nat qty))) "_handler" None),
                 where_entry, p)
        | DIRTY =>
            and_then (format query [user_text]) (fun text =>
            inr (Some (Job (Some (times text qty, [])) "_handler" None),
                 where_entry, p))
        end
      else
        let '(access_mode, query) := where_ in
        let user_text := PyStr.strip where_entry in
        if String.eqb user_text "" then
          inr (None, "", FlatPage (cancel_updates (f_common p)) [] (found_title p))
        else
          let qty := count "(%s)" query in
          match access_mode with
          | CLEAN =>
              inr (Some (Job (Some (query, repeat user_text (Z.to_nat qty))) "_handler" None),
                   where_entry, p)
          | DIRTY =>
              and_then (format query [user_text]) (fun text =>
              inr (Some (Job (Some (times text qty, [])) "_handler" None),
                   where_entry, p))
          end
  end.

(** The two parts of a query around its first ["(%s)"]. *)
Definition around (query : string) : string * string :=
  let k := match List.find (fun k => startswith "(%s)" (PyStr.drop k query))
                   (seq 0 (String.length query)) with
           | Some k => k
           | None => 0%nat
           end in
  (String.substring 0 k query,
   PyStr.drop (k + 4) query).

End Search.

(** * Properties *)

Local Open Scope list_scope.

(** ** Strings *)
Module PyStrFacts.
Import PyStr.

Lemma rcut_None (sep : ascii) (s : string) :
  rcut sep s = None <-> contains sep s = false.
Proof.
  induction s as [|c s IH]; simpl; [tauto|].
  destruct (rcut sep s) as [[a b]|].
  - split; [discriminate|].
    intros H. apply orb_false_iff in H as [_ H].
    apply IH in H. discriminate.
  - destruct (Ascii.eqb c sep); simpl.
    + split; discriminate.
    + split; intros _; [now apply IH | reflexivity].
Qed.

Lemma rcut_Some (sep : ascii) (s a b : string) :
  rcut sep s = Some (a, b) -> s = (a ++ String sep b)%string /\ contains sep b = false.
Proof.
  revert a. induction s as [|c s IH]; simpl; intros a H; [discriminate|].
  destruct (rcut sep s) as [[a' b']|] eqn:E.
  - inversion H; subst. destruct (IH a' eq_refl) as [-> Hb]. now split.
  - destruct (Ascii.eqb_spec c sep) as [->|]; [|discriminate].
    inversion H; subst. split; [reflexivity|]. now apply rcut_None.
Qed.

Lemma rcut_app (sep : ascii) (a b : string) :
  contains sep b = false -> rcut sep (a ++ String sep b)%string = Some (a, b).
Proof.
  intros Hb. induction a as [|c a IH]; simpl.
  - apply rcut_None in Hb. rewrite Hb, Ascii.eqb_refl. reflexivity.
  - rewrite IH. reflexivity.
Qed.

(** [int] on the texts that can follow the last [":"]. *)
Example int_of_texts :
  int "3306" = Some 3306 /\ int " 3307 " = Some 3307 /\ int "+80" = Some 80 /\
  int "-1" = Some (-1) /\ int "" = None /\ int "mysql" = None /\
  int "33 06" = None /\ int "0x10" = None /\ int "-" = None.
Proof. now repeat split. Qed.

Example strip_of_text : strip "  X/ " = "X/" /\ strip "" = "" /\ strip " " = "".
Proof. now repeat split. Qed.

Example slice_from_of_text :
  slice_from 2 "ab/c" = "/c" /\ slice_from 9 "ab/c" = "" /\ slice_from (-1) "ab/c" = "c".
Proof. now repeat split. Qed.

End PyStrFacts.

(** ** The file path transformation *)
Module PrefsFacts.
Import PrefsControls.

(** With a count that is not negative, the transformation drops that
    many characters and puts the prefix in front. *)
Lemma transform_drop (del_qty : Z) (prepend_str input_str : string) :
  0 <= del_qty ->
  transform del_qty prepend_str input_str
  = (prepend_str ++ PyStr.drop (Z.to_nat del_qty) input_str)%string.
Proof.
  intros Hq. unfold transform.
  destruct (Z.eqb_spec del_qty 0) as [->|Hne]; simpl.
  - destruct (String.eqb_spec prepend_str "") as [->|]; simpl.
    + reflexivity.
    + unfold PyStr.slice_from. simpl. reflexivity.
  - unfold PyStr.slice_from.
    destruct (Z.ltb_spec del_qty 0); [lia | reflexivity].
Qed.

(** C8, as stated, does not hold: the result is not ["X/c/song.mp3"]. *)
Lemma transform_strip2_not_as_claimed :
  transform 2 "X/" "ab/c/song.mp3" <> "X/c/song.mp3".
Proof. vm_compute. discriminate. Qed.

(** C8 (amended): the path transform built by [_cb_bind] from the count
    2 and the prefix ["X/"] maps ["ab/c/song.mp3"] to ["X//c/song.mp3"]:
    the two characters ["ab"] are dropped, the ["/"] after them is
    kept. *)
Theorem transform_strip2_prefix :
  match _cb_bind true (Widgets "localhost" "admin" "" "ampache" 2 "X/") with
  | Some (_, f) => f "ab/c/song.mp3" = "X//c/song.mp3"
  | None => False
  end
  /\ transform 2 "X/" "ab/c/song.mp3" = "X//c/song.mp3".
Proof. split; reflexivity. Qed.

End PrefsFacts.

(** ** The worker thread *)
Module AccessorFacts.
Import DBAccessor WorkerLog.

(** *** The constructor *)

Lemma init_args (hostnameport user password database : string) :
  let self := __init__ hostnameport user password database in
  (hostname (args self), port (args self)) = parse_hostnameport hostnameport.
Proof.
  unfold __init__. now destruct (parse_hostnameport hostnameport).
Qed.

(** C10: the constructor splits [hostnameport] on its last [":"] into
    the host name and the integer port; when there is no [":"], or when
    the text after the last [":"] is not an integer for [int], the whole
    string is the host name and the port is 3306. *)
Theorem init_hostname_port (hostnameport user password database a b : string) :
  let self := __init__ hostnameport user password database in
  (PyStr.contains ":" hostnameport = false ->
     hostname (args self) = hostnameport /\ port (args self) = 3306) /\
  (hostnameport = (a ++ String ":" b)%string -> PyStr.contains ":" b = false ->
     match PyStr.int b with
     | Some p => hostname (args self) = a /\ port (args self) = p
     | None => hostname (args self) = hostnameport /\ port (args self) = 3306
     end).
Proof.
  intros self.
  pose proof (init_args hostnameport user password database) as H.
  fold self in H. unfold parse_hostnameport, PyStr.rsplit1 in H.
  split.
  - intros Hc. apply PyStrFacts.rcut_None in Hc. rewrite Hc in H.
    simpl in H. now inversion H.
  - intros -> Hb. rewrite (PyStrFacts.rcut_app _ a b Hb) in H. simpl in H.
    destruct (PyStr.int b); now inversion H.
Qed.

Lemma init_hostname_port_witness :
  (hostname (args (__init__ "localhost" "admin" "" "ampache")) = "localhost"
   /\ port (args (__init__ "localhost" "admin" "" "ampache")) = 3306)
  /\ (hostname (args (__init__ "db.example.org:3307" "admin" "" "ampache")) = "db.example.org"
      /\ port (args (__init__ "db.example.org:3307" "admin" "" "ampache")) = 3307)
  /\ (hostname (args (__init__ "fe80::1:mysql" "admin" "" "ampache")) = "fe80::1:mysql"
      /\ port (args (__init__ "fe80::1:mysql" "admin" "" "ampache")) = 3306).
Proof.
  split; [|split].
  - apply (proj1 (init_hostname_port "localhost" "admin" "" "ampache" "" "")).
    reflexivity.
  - apply (proj2 (init_hostname_port "db.example.org:3307" "admin" "" "ampache"
                    "db.example.org" "3307")); reflexivity.
  - apply (proj2 (init_hostname_port "fe80::1:mysql" "admin" "" "ampache"
                    "fe80::1" "mysql")); reflexivity.
Defined.

(** *** The job queue and its semaphore *)

Lemma acquire_available (w : world) (fuel : nat) (s : accessor) (n : nat) :
  semaphore s = S n -> acquire w fuel s = (Normal tt, set_semaphore n s).
Proof. intros H. destruct fuel; simpl; now rewrite H. Qed.

Lemma set_same (s : accessor) :
  set_semaphore (semaphore s) (set_jobs (jobs s) s) = s.
Proof. now destruct s. Qed.

Lemma purge_job_queue_run (w : world) (fuel : nat) (remain : Z) (s : accessor) :
  0 <= remain ->
  (length (jobs s) <= fuel)%nat ->
  Z.of_nat (length (jobs s)) - remain <= Z.of_nat (semaphore s) ->
  let d := (length (jobs s) - Z.to_nat remain)%nat in
  purge_job_queue w fuel remain s
  = (Normal tt, set_semaphore (semaphore s - d) (set_jobs (drop d (jobs s)) s)).
Proof.
  intros Hr. revert s. induction fuel as [|fuel IH]; intros s Hf Hs d.
  - destruct (jobs s) as [|j rest] eqn:Ej; [|simpl in Hf; lia].
    subst d. simpl. rewrite Ej. simpl.
    destruct (Z.gtb_spec (Z.of_nat 0) remain); [lia|].
    rewrite Nat.sub_0_r, <- Ej. now rewrite set_same.
  - simpl. destruct (Z.gtb_spec (Z.of_nat (length (jobs s))) remain) as [Hgt|Hle].
    + destruct (jobs s) as [|j rest] eqn:Ej; [simpl in Hgt; lia|].
      simpl in Hgt, Hs, Hf.
      destruct (semaphore s) as [|n] eqn:Es; [lia|].
      unfold mbind, M_bind, modify.
      rewrite (acquire_available w fuel (set_jobs rest s) n) by (now destruct s).
      rewrite IH; cycle 1.
      { destruct s; simpl in *. lia. }
      { destruct s; simpl in *. lia. }
      subst d. destruct s; simpl in *. subst.
      replace (S (length rest) - Z.to_nat remain)%nat
        with (S (length rest - Z.to_nat remain)) by lia.
      reflexivity.
    + subst d. replace (length (jobs s) - Z.to_nat remain)%nat with 0%nat by lia.
      simpl. now rewrite Nat.sub_0_r, set_same.
Qed.

(** C5: whatever the queue holds and whatever [remain] is (not
    negative), [purge_job_queue (remain)] leaves the
    [min (remain, len (jobs))] newest jobs in their order, and takes one
    signal from the semaphore per discarded job, so that the difference
    between the count of the semaphore and the length of the queue is
    what it was. The semaphore is supposed to hold a signal for each job
    to discard, as [request] provides. *)
Theorem purge_job_queue_keeps_newest (w : world) (fuel : nat) (remain : Z)
    (s : accessor) :
  0 <= remain ->
  (length (jobs s) <= fuel)%nat ->
  Z.of_nat (length (jobs s)) - remain <= Z.of_nat (semaphore s) ->
  exists s',
    purge_job_queue w fuel remain s = (Normal tt, s') /\
    (exists discarded,
        jobs s = (discarded ++ jobs s')%list /\
        semaphore s = (length discarded + semaphore s')%nat) /\
    length (jobs s') = Nat.min (Z.to_nat remain) (length (jobs s)) /\
    Z.of_nat (semaphore s') - Z.of_nat (length (jobs s'))
      = Z.of_nat (semaphore s) - Z.of_nat (length (jobs s)) /\
    log s' = log s /\ keepalive s' = keepalive s /\
    _handle s' = _handle s /\ _cursor s' = _cursor s.
Proof.
  intros Hr Hf Hs. eexists. split; [now apply purge_job_queue_run|].
  set (d := (length (jobs s) - Z.to_nat remain)%nat).
  assert (Hd : (d <= length (jobs s))%nat) by (subst d; lia).
  assert (Hj : jobs (set_semaphore (semaphore s - d) (set_jobs (drop d (jobs s)) s))
               = drop d (jobs s)) by now destruct s.
  assert (Hsem : semaphore (set_semaphore (semaphore s - d) (set_jobs (drop d (jobs s)) s))
               = (semaphore s - d)%nat) by now destruct s.
  rewrite Hj, Hsem, length_drop.
  split; [|split; [|split]].
  - exists (take d (jobs s)). rewrite take_drop, length_take. split; [reflexivity|].
    subst d. lia.
  - subst d. lia.
  - subst d. lia.
  - now destruct s.
Qed.

Lemma purge_job_queue_keeps_newest_witness :
  let w := World (fun _ => ExecRows 0) (fun _ => Connected true)
             (fun _ _ => []) (fun _ _ => []) (fun _ _ => None) (fun _ => []) in
  let j1 := Job (Some ("SELECT 1", [])) "_handler" None in
  let j2 := Job (Some ("SELECT 2", [])) "_handler" None in
  let j3 := Job (Some ("SELECT 3", [])) "_handler" None in
  let s := request j3 (request j2 (request j1
             (__init__ "localhost" "admin" "" "ampache"))) in
  exists s',
    purge_job_queue w 3 1 s = (Normal tt, s') /\
    (exists discarded,
        jobs s = (discarded ++ jobs s')%list /\
        semaphore s = (length discarded + semaphore s')%nat) /\
    length (jobs s') = Nat.min (Z.to_nat 1) (length (jobs s)) /\
    Z.of_nat (semaphore s') - Z.of_nat (length (jobs s'))
      = Z.of_nat (semaphore s) - Z.of_nat (length (jobs s)) /\
    log s' = log s /\ keepalive s' = keepalive s /\
    _handle s' = _handle s /\ _cursor s' = _cursor s.
Proof.
  intros w j1 j2 j3 s.
  apply (purge_job_queue_keeps_newest w 3 1 s); [lia | simpl; lia | simpl; lia].
Defined.

Lemma init_signalled (hostnameport user password database : string) :
  signalled (__init__ hostnameport user password database).
Proof.
  unfold signalled, __init__. destruct (parse_hostnameport _). simpl. lia.
Qed.

Lemma consumer_step_signalled (s : accessor) (c : consumer_call) :
  signalled s -> signalled (consumer_step s c).
Proof.
  unfold signalled. destruct s, c; simpl; [|destruct is_alive0; simpl].
  all: rewrite ?length_app; simpl; lia.
Qed.

Lemma worker_ext_refl (s : accessor) : worker_ext [] s s.
Proof.
  split; [reflexivity|]. split.
  - exists []. now rewrite app_nil_r, Nat.add_0_r.
  - exists []. now rewrite app_nil_r.
Qed.

Lemma worker_ext_trans (k1 k2 : list event) (s1 s2 s3 : accessor) :
  worker_ext k1 s1 s2 -> worker_ext k2 s2 s3 -> worker_ext (k1 ++ k2) s1 s3.
Proof.
  intros (Hk1 & (a1 & Hj1 & Hs1) & seg1 & Hl1 & Hf1)
         (Hk2 & (a2 & Hj2 & Hs2) & seg2 & Hl2 & Hf2).
  split; [congruence|]. split.
  - exists (a1 ++ a2)%list. rewrite Hj2, Hj1, Hs2, Hs1, app_assoc, length_app.
    split; [reflexivity | lia].
  - exists (seg1 ++ seg2)%list. rewrite Hl2, Hl1, app_assoc, List.filter_app.
    now subst.
Qed.





(** *** Steps of the computations, and of the consumer *)

Lemma bind_normal {A B} (m : M A) (f : A -> M B) (s s' : accessor) (a : A) :
  m s = (Normal a, s') -> (m ≫= f) s = f a s'.
Proof. intros H. unfold mbind, M_bind. now rewrite H. Qed.


Lemma consumer_steps_worker (cs : list consumer_call) (s : accessor) :
  ~ In ConsumerClose cs -> worker_ext [] s (fold_left consumer_step cs s).
Proof.
  revert s. induction cs as [|c cs IH]; intros s Hc; simpl.
  - apply worker_ext_refl.
  - change (@nil event) with (@nil event ++ [])%list.
    eapply worker_ext_trans; [|apply IH; intros H; apply Hc; now right].
    destruct c as [j|]; [|exfalso; apply Hc; now left].
    split; [now destruct s|]. split.
    + exists [j]. destruct s; simpl. split; [reflexivity | lia].
    + exists [Consumer (ConsumerRequest j)]. now destruct s.
Qed.

Lemma consumer_steps_private (cs : list consumer_call) (s : accessor) :
  let s' := fold_left consumer_step cs s in
  _cursor s' = _cursor s /\ _handle s' = _handle s /\
  executed s' = executed s /\ connections s' = connections s /\
  cursors s' = cursors s.
Proof.
  revert s. induction cs as [|c cs IH]; intros s; simpl; [tauto|].
  destruct (IH (consumer_step s c)) as (-> & -> & -> & -> & ->).
  destruct c, s; simpl; [tauto|]. destruct is_alive0; simpl; tauto.
Qed.

(** *** A request whose every attempt fails *)

(** A round of [while self.keepalive] that finds a job in the queue. *)
Lemma loop_takes_job (w : world) (fuel : nat) (j : job) (rest : list job)
    (n : nat) (s : accessor) :
  jobs s = j :: rest ->
  semaphore s = S n ->
  keepalive s = true ->
  loop w (S fuel) s
  = (go_on ← retry w fuel j 0 None;
     if go_on : bool then loop w fuel else mret tt)
      (set_jobs rest (set_semaphore n s)).
Proof.
  intros Hj Hs Hk. cbn [loop].
  rewrite (bind_normal get _ s s s eq_refl). rewrite Hk.
  rewrite (bind_normal _ _ _ _ _ (acquire_available w fuel s n Hs)).
  rewrite (bind_normal get _ _ _ _ eq_refl).
  replace (jobs (set_semaphore n s)) with (j :: rest) by (now destruct s).
  replace (keepalive (set_semaphore n s)) with true by (now destruct s).
  now rewrite (bind_normal (modify (set_jobs rest)) _ _ _ tt eq_refl).
Qed.






Section Retries.

Variable w : world.

(** The consumer does not call [close]. *)
Hypothesis never_closed : forall t, ~ In ConsumerClose (consumer w t).

(** An attempt to connect goes through or fails with an error of the
    driver. *)
Hypothesis connect_fails_in_driver :
  forall n e, connect_result w n = ConnectRaises e -> is_sql_error e = true.








Opaque after_tick.















End Retries.



(** *** Who calls the handlers *)

Lemma grows_refl (s : accessor) : grows s s.
Proof. exists []. now rewrite app_nil_r. Qed.

Lemma grows_trans (s1 s2 s3 : accessor) : grows s1 s2 -> grows s2 s3 -> grows s1 s3.
Proof.
  intros (g1 & H1 & F1) (g2 & H2 & F2). exists (g1 ++ g2)%list.
  rewrite H2, H1, app_assoc, forallb_app, F1, F2. now split.
Qed.

Lemma grows_same_log (s s' : accessor) : log s' = log s -> grows s s'.
Proof. intros H. exists []. now rewrite app_nil_r. Qed.

Lemma grows_add_log (e : event) (s : accessor) :
  well_placed e = true -> grows s (add_log e s).
Proof. intros H. exists [e]. simpl. rewrite H. now destruct s. Qed.

Create HintDb growing.

Lemma growing_ret {A} (a : A) : growing (mret a).
Proof. intros s. apply grows_refl. Qed.

Lemma growing_raise {A} (e : py_exn) : growing (@raise A e).
Proof. intros s. apply grows_refl. Qed.

Lemma growing_out_of_fuel {A} : growing (@out_of_fuel A).
Proof. intros s. apply grows_refl. Qed.

Lemma growing_get : growing get.
Proof. intros s. apply grows_refl. Qed.

Lemma growing_modify (f : accessor -> accessor) :
  (forall s, log (f s) = log s) -> growing (modify f).
Proof. intros H s. simpl. now apply grows_same_log. Qed.

Lemma growing_emit (e : event) : well_placed e = true -> growing (emit e).
Proof. intros H s. simpl. now apply grows_add_log. Qed.

Lemma growing_notify (msg : string) : growing (notify msg).
Proof. now apply growing_emit. Qed.

Lemma growing_bind {A B} (m : M A) (f : A -> M B) :
  growing m -> (forall a, growing (f a)) -> growing (m ≫= f).
Proof.
  intros Hm Hf s. unfold mbind, M_bind. specialize (Hm s).
  destruct (m s) as [[a| |] s1]; simpl in *; [|exact Hm..].
  eapply grows_trans; [exact Hm | apply Hf].
Qed.

Lemma growing_try_except {A B} (m : M A) (catches : py_exn -> bool)
    (handler : py_exn -> M B) (orelse : A -> M B) :
  growing m -> (forall e, growing (handler e)) -> (forall a, growing (orelse a)) ->
  growing (try_except m catches handler orelse).
Proof.
  intros Hm Hh Ho s. unfold try_except. specialize (Hm s).
  destruct (m s) as [[a|e|] s1]; simpl in *.
  - eapply grows_trans; [exact Hm | apply Ho].
  - destruct (catches e); [|exact Hm]. eapply grows_trans; [exact Hm | apply Hh].
  - exact Hm.
Qed.

Lemma growing_swallow (m : M unit) : growing m -> growing (swallow m).
Proof.
  intros H. apply growing_try_except; [exact H | intros; apply growing_ret..].
Qed.

Lemma growing_try_finally {A} (m : M A) (final : M unit) :
  growing m -> growing final -> growing (try_finally m final).
Proof.
  intros Hm Hf s. unfold try_finally. specialize (Hm s).
  destruct (m s) as [[a|e|] s1]; simpl in *; [| |exact Hm].
  - eapply grows_trans; [exact Hm|].
    apply (growing_bind final (fun _ => mret a)); [exact Hf | intros; apply growing_ret].
  - eapply grows_trans; [exact Hm|].
    apply (growing_bind final (fun _ => raise e)); [exact Hf | intros; apply growing_raise].
Qed.

Lemma growing_if {A} (b : bool) (m1 m2 : M A) :
  growing m1 -> growing m2 -> growing (if b then m1 else m2).
Proof. now destruct b. Qed.

#[local] Hint Resolve growing_ret growing_raise growing_out_of_fuel growing_get
  growing_notify growing_bind growing_try_except growing_swallow
  growing_try_finally growing_if : growing.

Section Growing.
Variable w : world.
Transparent after_tick.

Lemma grows_consumer_steps (cs : list consumer_call) (s : accessor) :
  grows s (fold_left consumer_step cs s).
Proof.
  revert s. induction cs as [|c cs IH]; intros s; simpl; [apply grows_refl|].
  eapply grows_trans; [|apply IH].
  unfold consumer_step. eapply grows_trans; [|apply grows_add_log; reflexivity].
  apply grows_same_log. destruct c, s; simpl; [reflexivity|].
  now destruct is_alive0.
Qed.

Lemma growing_tick : growing (tick w).
Proof.
  intros s. simpl. unfold after_tick.
  eapply grows_trans; [apply grows_consumer_steps|].
  apply grows_same_log. reflexivity.
Qed.

Lemma growing_acquire (fuel : nat) : growing (acquire w fuel).
Proof.
  induction fuel as [|fuel IH]; intros s; simpl.
  - destruct (semaphore s); [apply grows_refl|].
    apply grows_same_log. now destruct s.
  - destruct (semaphore s).
    + apply (growing_bind (tick w) (fun _ => acquire w fuel));
        [apply growing_tick | intros; exact IH].
    + apply grows_same_log. now destruct s.
Qed.

Lemma growing_cursor_close : growing cursor_close.
Proof.
  intros s. unfold cursor_close. destruct (_cursor s); [|apply grows_refl].
  now apply growing_emit.
Qed.

Lemma growing_handle_close : growing handle_close.
Proof.
  intros s. unfold handle_close. destruct (_handle s) as [[|]|]; try apply grows_refl.
  apply (growing_bind (modify (set_handle (Some HandleClosed))) (fun _ => emit HandleClose)).
  - apply growing_modify. now intros [].
  - intros _. now apply growing_emit.
Qed.

#[local] Hint Resolve growing_tick growing_acquire growing_cursor_close
  growing_handle_close : growing.

Lemma growing_disconnect : growing disconnect.
Proof. unfold disconnect. auto with growing. Qed.

Lemma growing_new_cursor : growing new_cursor.
Proof.
  intros s. unfold new_cursor. destruct (_handle s); [|apply grows_refl].
  apply grows_same_log. now destruct s.
Qed.

Lemma growing_replace_cursor (cursor : option nat) : growing (replace_cursor cursor).
Proof.
  intros s. unfold replace_cursor. destruct (decide _); [|apply grows_refl].
  apply growing_new_cursor.
Qed.

Lemma growing_purge_job_queue (fuel : nat) (remain : Z) :
  growing (purge_job_queue w fuel remain).
Proof.
  induction fuel as [|fuel IH]; intros s; simpl;
    destruct (_ >? _); try apply grows_refl.
  destruct (jobs s) as [|j rest]; [apply grows_refl|].
  apply (growing_bind (modify (set_jobs rest))
           (fun _ => acquire w fuel ;; purge_job_queue w fuel remain)).
  - apply growing_modify. now intros [].
  - intros _. apply growing_bind; [apply growing_acquire | intros; exact IH].
Qed.

#[local] Hint Resolve growing_disconnect growing_new_cursor growing_replace_cursor
  growing_purge_job_queue : growing.

Lemma growing_do_calls (fuel : nat) (cursor : option nat) (cs : list acc_call) :
  growing (do_calls w fuel cursor cs).
Proof.
  induction cs as [|c cs IH]; simpl; [apply growing_ret|].
  apply growing_bind; [|intros; exact IH].
  destruct c; simpl; auto with growing.
Qed.

Lemma growing_notify_all (msgs : list string) : growing (notify_all msgs).
Proof. induction msgs; simpl; auto with growing. Qed.

#[local] Hint Resolve growing_do_calls growing_notify_all : growing.

Lemma growing_call_handler (fuel : nat) (name : string) (rows : Z) :
  growing (call_handler w fuel name rows).
Proof.
  unfold call_handler. apply growing_bind; [apply growing_get|]. intros s.
  apply growing_bind; [now apply growing_emit|]. auto with growing.
Qed.

Lemma growing_call_failhandler (name : string) (e : option py_exn) :
  growing (call_failhandler w name e).
Proof.
  unfold call_failhandler. destruct e; [|apply growing_raise].
  apply growing_bind; [now apply growing_emit|]. intros _.
  apply growing_bind; [apply growing_tick|]. intros _.
  apply growing_bind; [auto with growing|]. intros _.
  destruct (failhandler_raises _ _ _); auto with growing.
Qed.

Lemma growing_execute (query : option statement) : growing (execute w query).
Proof.
  intros s. unfold execute. destruct (_cursor s); [|apply grows_refl].
  destruct query as [q|]; [|apply grows_refl].
  apply (growing_bind (emit (Execute n q))); [now apply growing_emit|]. intros _.
  apply growing_bind; [apply growing_tick|]. intros _.
  apply growing_bind; [apply growing_modify; now intros []|]. intros _.
  destruct (execute_result _ _); auto with growing.
Qed.

Lemma growing_connect : growing (connect w).
Proof.
  intros s. unfold connect.
  apply (growing_bind (emit Connect)); [now apply growing_emit|]. intros _.
  apply growing_bind; [apply growing_tick|]. intros _.
  apply growing_bind; [apply growing_modify; now intros []|]. intros _.
  destruct (connect_result _ _); [|apply growing_raise].
  apply growing_bind; [apply growing_modify; now intros []|].
  auto with growing.
Qed.

#[local] Hint Resolve growing_call_handler growing_call_failhandler
  growing_execute growing_connect : growing.

Lemma growing_on_error (trycount : Z) (e : py_exn) : growing (on_error w trycount e).
Proof.
  unfold on_error.
  apply growing_bind; [apply growing_get|]. intros s.
  apply growing_if; [apply growing_ret|].
  apply growing_bind; [auto with growing|]. intros _.
  apply growing_bind; [apply growing_get|]. intros s'.
  apply growing_if; [apply growing_ret|].
  apply growing_bind; [apply growing_notify|]. intros _.
  apply growing_try_except; [apply growing_connect | |].
  - intros e'. apply growing_bind; [apply growing_notify|]. intros _.
    apply growing_bind; [now apply growing_emit|]. intros _.
    apply growing_bind; [now apply growing_emit|]. auto with growing.
  - intros utf8_ok. auto with growing.
Qed.

Lemma growing_attempt (fuel : nat) (j : job) (trycount : Z) :
  growing (attempt w fuel j trycount).
Proof.
  unfold attempt.
  apply growing_bind; [now apply growing_emit|]. intros _.
  apply growing_try_except.
  - apply growing_bind; [destruct (job_query j); auto with growing|].
    auto with growing.
  - apply growing_on_error.
  - intros rows. apply growing_bind; [apply growing_get|]. intros s.
    auto with growing.
Qed.

Lemma growing_retry (fuel : nat) (j : job) (trycount : Z) (e : option py_exn) :
  growing (retry w fuel j trycount e).
Proof.
  revert trycount e. induction fuel as [|fuel IH]; intros trycount e; simpl.
  - apply growing_if; [apply growing_out_of_fuel|].
    apply growing_bind; [destruct (job_failhandler j); auto with growing|].
    auto with growing.
  - apply growing_if.
    + apply growing_bind; [apply growing_attempt|]. intros [| |t' e'];
        auto with growing.
    + apply growing_bind; [destruct (job_failhandler j); auto with growing|].
      auto with growing.
Qed.

Lemma growing_loop (fuel : nat) : growing (loop w fuel).
Proof.
  induction fuel as [|fuel IH]; simpl; [apply growing_out_of_fuel|].
  apply growing_bind; [apply growing_get|]. intros s.
  apply growing_if; [|apply growing_ret].
  apply growing_bind; [apply growing_acquire|]. intros _.
  apply growing_bind; [apply growing_get|]. intros s'.
  destruct (jobs s') as [|j rest]; [exact IH|].
  apply growing_if; [|exact IH].
  apply growing_bind; [apply growing_modify; now intros []|]. intros _.
  apply growing_bind; [apply growing_retry|]. intros go_on.
  apply growing_if; [exact IH | apply growing_ret].
Qed.

Lemma growing_run (fuel : nat) : growing (run w fuel).
Proof.
  intros s. unfold run.
  pose proof (growing_try_finally (loop w fuel)
                (swallow cursor_close ;; swallow handle_close ;;
                 notify "Disconnected")) as H.
  specialize (H (growing_loop fuel)).
  assert (Hf : growing (swallow cursor_close ;; swallow handle_close ;;
                        notify "Disconnected")) by auto 10 with growing.
  specialize (H Hf s).
  destruct (try_finally _ _ s) as [[a|e|] s']; exact H.
Qed.

Lemma grows_In (e : event) (s s' : accessor) :
  grows s s' -> In e (log s) -> In e (log s').
Proof. intros (seg & -> & _) H. apply in_or_app. now left. Qed.

Lemma grows_after_bind {A B} (m : M A) (f : A -> M B) (s : accessor) :
  (forall a, growing (f a)) -> grows (snd (m s)) (snd ((m ≫= f) s)).
Proof.
  intros Hf. unfold mbind, M_bind.
  destruct (m s) as [[a| |] s1]; simpl; [apply Hf | apply grows_refl..].
Qed.

Lemma grows_after_finally {A} (m : M A) (final : M unit) (s : accessor) :
  growing final -> grows (snd (m s)) (snd (try_finally m final s)).
Proof.
  intros Hf. unfold try_finally.
  destruct (m s) as [[a|e|] s1]; simpl; [| |apply grows_refl].
  - apply (growing_bind final (fun _ => mret a)); [exact Hf | intros; apply growing_ret].
  - apply (growing_bind final (fun _ => raise e)); [exact Hf | intros; apply growing_raise].
Qed.

Lemma attempt_calls_handler (fuel : nat) (j : job) (q : statement) (trycount : Z)
    (c : nat) (rows : Z) (s : accessor) :
  job_query j = Some q ->
  _cursor s = Some c ->
  keepalive s = true ->
  execute_result w (executed s) = ExecRows rows ->
  ~ In ConsumerClose (consumer w (clock s)) ->
  In (Call (Handler (job_handler j) (Some c) rows))
     (log (snd (attempt w fuel j trycount s))).
Proof.
  intros Hq Hc Hk He Hn.
  set (s1 := set_executed (S (executed s))
               (after_tick w (add_log (Execute c q) (add_log (Try trycount) s)))).
  assert (Hc1 : _cursor s1 = Some c).
  { unfold s1, after_tick.
    destruct (consumer_steps_private (consumer w (clock s))
                (add_log (Execute c q) (add_log (Try trycount) s))) as (H & _).
    simpl in *. rewrite H. exact Hc. }
  assert (Hk1 : keepalive s1 = true).
  { unfold s1, after_tick.
    destruct (consumer_steps_worker (consumer w (clock s))
                (add_log (Execute c q) (add_log (Try trycount) s)) Hn)
      as (H & _).
    simpl in *. rewrite H. exact Hk. }
  assert (E : attempt w fuel j trycount s
              = (call_handler w fuel (job_handler j) rows ;; mret Break) s1).
  { unfold attempt. rewrite Hq.
    rewrite (bind_normal (emit (Try trycount)) _ s _ tt eq_refl).
    unfold try_except.
    rewrite (bind_normal (mret tt) _ _ _ tt eq_refl).
    unfold execute. simpl (_cursor _). rewrite Hc.
    rewrite (bind_normal (emit (Execute c q)) _ _ _ tt eq_refl).
    rewrite (bind_normal (tick w) _ _ _ tt eq_refl).
    rewrite (bind_normal (modify _) _ _ _ tt eq_refl).
    simpl (executed _). rewrite He. fold s1.
    change (@mret M _ Z rows s1) with (Normal rows, s1). cbv beta iota.
    rewrite (bind_normal get _ s1 s1 s1 eq_refl). now rewrite Hk1. }
  rewrite E. eapply grows_In; [apply grows_after_bind; intros; apply growing_ret|].
  unfold call_handler. rewrite (bind_normal get _ s1 s1 s1 eq_refl), Hc1.
  rewrite (bind_normal (emit _) _ s1 _ tt eq_refl).
  eapply grows_In; [apply (growing_bind (tick w)); auto with growing|].
  destruct s1. simpl. apply in_or_app. right. now left.
Qed.

Lemma run_calls_handler (fuel : nat) (j : job) (q : statement) (rest : list job)
    (n c : nat) (rows : Z) (s : accessor) :
  jobs s = j :: rest ->
  job_query j = Some q ->
  semaphore s = S n ->
  keepalive s = true ->
  _cursor s = Some c ->
  execute_result w (executed s) = ExecRows rows ->
  ~ In ConsumerClose (consumer w (clock s)) ->
  In (Call (Handler (job_handler j) (Some c) rows))
     (log (snd (run w (S (S fuel)) s))).
Proof.
  intros Hj Hq Hs Hk Hc He Hn.
  set (s0 := set_jobs rest (set_semaphore n s)).
  assert (H0 : In (Call (Handler (job_handler j) (Some c) rows))
                  (log (snd (attempt w fuel j 0 s0)))).
  { apply (attempt_calls_handler fuel j q 0 c rows s0); subst s0;
      try assumption; now destruct s. }
  assert (E : loop w (S (S fuel)) s
              = (go_on ← retry w (S fuel) j 0 None;
                 if go_on : bool then loop w (S fuel) else mret tt) s0).
  { cbn [loop]. rewrite (bind_normal get _ s s s eq_refl), Hk.
    rewrite (bind_normal _ _ _ _ _ (acquire_available w (S fuel) s n Hs)).
    rewrite (bind_normal get _ _ _ _ eq_refl).
    replace (jobs (set_semaphore n s)) with (j :: rest) by (now destruct s).
    replace (keepalive (set_semaphore n s)) with true by (now destruct s).
    now rewrite (bind_normal (modify (set_jobs rest)) _ _ _ tt eq_refl). }
  assert (G : grows (snd (attempt w fuel j 0 s0)) (snd (run w (S (S fuel)) s))).
  { eapply grows_trans; [|eapply grows_trans].
    - apply (grows_after_bind (attempt w fuel j 0)
               (fun p => match p with
                         | Break => mret true
                         | Return => mret false
                         | Again t' e' => retry w fuel j t' (Some e')
                         end)).
      intros [| |t' e']; auto with growing. apply growing_retry.
    - apply (grows_after_bind (retry w (S fuel) j 0 None)
               (fun go_on : bool => if go_on then loop w (S fuel) else mret tt)).
      intros go_on. apply growing_if; [apply growing_loop | apply growing_ret].
    - rewrite <- E. unfold run.
      pose proof (grows_after_finally (loop w (S (S fuel)))
                    (swallow cursor_close ;; swallow handle_close ;;
                     notify "Disconnected") s) as H.
      destruct (try_finally _ _ s) as [[a|e|] s']; apply H; auto 10 with growing. }
  exact (grows_In _ _ _ G H0).
Qed.

End Growing.

(** *** The worker after [close] *)

Lemma consumer_steps_stay_closed (cs : list consumer_call) (s : accessor) :
  keepalive s = false ->
  keepalive (fold_left consumer_step cs s) = false /\
  exists seg, log (fold_left consumer_step cs s) = log s ++ seg /\
              forallb (fun e => negb (is_handler_call e)) seg = true.
Proof.
  revert s. induction cs as [|c cs IH]; intros s Hk; simpl.
  - split; [exact Hk|]. exists []. now rewrite app_nil_r.
  - destruct (IH (consumer_step s c)) as (Hk' & seg & Hl & Hf).
    { destruct c, s; simpl in *; [exact Hk|]. now destruct is_alive0. }
    split; [exact Hk'|]. exists (Consumer c :: seg). rewrite Hl. split; [|exact Hf].
    replace (log (consumer_step s c)) with (log s ++ [Consumer c]).
    + now rewrite <- app_assoc.
    + destruct c, s; simpl; [reflexivity|]. now destruct is_alive0.
Qed.

(** Once the worker is told to stop, a pass through the body of
    [while trycount < 3] calls no handler: it ends in [return], or with an
    exception that the [except] clause does not catch. *)
Lemma attempt_when_closed (w : world) (fuel : nat) (j : job) (q : statement)
    (trycount : Z) (s : accessor) :
  job_query j = Some q ->
  keepalive s = false ->
  exists r s' seg,
    attempt w fuel j trycount s = (r, s') /\
    (r = Normal Return \/ exists e, r = Raise e) /\
    keepalive s' = false /\
    log s' = log s ++ seg /\
    forallb (fun e => negb (is_handler_call e)) seg = true.
Proof.
  intros Hq Hk. unfold attempt. rewrite Hq.
  rewrite (bind_normal (emit (Try trycount)) _ s _ tt eq_refl).
  set (s0 := add_log (Try trycount) s).
  assert (Hk0 : keepalive s0 = false) by (now destruct s).
  assert (Hret : forall e s1, keepalive s1 = false ->
            on_error w trycount e s1 = (Normal Return, s1)).
  { intros e s1 H1. unfold on_error.
    rewrite (bind_normal get _ s1 s1 s1 eq_refl). now rewrite H1. }
  unfold try_except. rewrite (bind_normal (mret tt) _ s0 s0 tt eq_refl).
  unfold execute. replace (_cursor s0) with (_cursor s) by (now destruct s).
  destruct (_cursor s) as [c|].
  - rewrite (bind_normal (emit (Execute c q)) _ s0 _ tt eq_refl).
    rewrite (bind_normal (tick w) _ _ _ tt eq_refl).
    rewrite (bind_normal (modify _) _ _ _ tt eq_refl).
    set (s1 := set_executed _ _).
    destruct (consumer_steps_stay_closed (consumer w (clock s)) (add_log (Execute c q) s0))
      as (Hk' & seg & Hl & Hf); [now destruct s|].
    assert (Hk1 : keepalive s1 = false) by (subst s1; unfold after_tick; exact Hk').
    assert (Hl1 : log s1 = log s ++ Try trycount :: Execute c q :: seg).
    { subst s1. unfold after_tick. cbn [log set_executed set_clock].
      replace (clock (add_log (Execute c q) s0)) with (clock s) by (now destruct s).
      rewrite Hl. destruct s; simpl. now rewrite <- !app_assoc. }
    destruct (execute_result w (executed s0)) as [rows|e].
    + change (@mret M _ Z rows s1) with (Normal rows, s1). cbv beta iota.
      rewrite (bind_normal get _ s1 s1 s1 eq_refl), Hk1.
      exists (Normal Return), s1, (Try trycount :: Execute c q :: seg).
      split; [reflexivity|]. split; [now left|]. now repeat split.
    + change (@raise Z e s1) with (@Raise Z e, s1). cbv beta iota.
      destruct (is_sql_error e || is_attribute_error e).
      * rewrite (Hret e s1 Hk1).
        exists (Normal Return), s1, (Try trycount :: Execute c q :: seg).
        split; [reflexivity|]. split; [now left|]. now repeat split.
      * exists (Raise e), s1, (Try trycount :: Execute c q :: seg).
        split; [reflexivity|]. split; [right; now exists e|]. now repeat split.
  - cbv beta iota. cbn [is_sql_error is_attribute_error orb].
    rewrite (Hret AttributeError s0 Hk0).
    exists (Normal Return), s0, [Try trycount].
    split; [reflexivity|]. split; [now left|]. split; [exact Hk0|].
    split; [now destruct s | reflexivity].
Qed.

(** So the loop [while trycount < 3], entered after [close], returns
    from [run] without a call of a handler; and [while self.keepalive]
    is left at once. *)
Lemma retry_when_closed (w : world) (fuel : nat) (j : job) (q : statement)
    (trycount : Z) (e : option py_exn) (s : accessor) :
  job_query j = Some q ->
  keepalive s = false ->
  trycount < 3 ->
  exists r s' seg,
    retry w (S fuel) j trycount e s = (r, s') /\
    (r = Normal false \/ exists e', r = Raise e') /\
    log s' = log s ++ seg /\
    forallb (fun e => negb (is_handler_call e)) seg = true.
Proof.
  intros Hq Hk Ht.
  destruct (attempt_when_closed w fuel j q trycount s Hq Hk)
    as (r & s' & seg & E & Hr & _ & Hl & Hf).
  cbn [retry]. destruct (Z.ltb_spec trycount 3); [|lia].
  unfold mbind, M_bind. rewrite E.
  destruct Hr as [-> | [e' ->]].
  - exists (Normal false), s', seg. split; [reflexivity|]. split; [now left|]. now split.
  - exists (Raise e'), s', seg. split; [reflexivity|].
    split; [right; now exists e'|]. now split.
Qed.

Lemma loop_when_closed (w : world) (fuel : nat) (s : accessor) :
  keepalive s = false -> loop w (S fuel) s = (Normal tt, s).
Proof.
  intros Hk. cbn [loop]. rewrite (bind_normal get _ s s s eq_refl). now rewrite Hk.
Qed.

(** The worker stops only through the [finally] clause of [run]: the
    last entry of its log is the "Disconnected" notification, and the
    thread is no longer alive. *)
Lemma run_ends_disconnected (w : world) (fuel : nat) (s : accessor) :
  fst (run w fuel s) <> OutOfFuel ->
  exists before,
    log (snd (run w fuel s)) = (before ++ [IdleAdd (Notify "Disconnected")])%list /\
    is_alive (snd (run w fuel s)) = false.
Proof.
  unfold run, try_finally. destruct (loop w fuel s) as [[[]|e|] s1]; intros H.
  - unfold swallow, try_except, cursor_close, handle_close, mbind, M_bind.
    destruct (_cursor s1), (_handle s1) as [[|]|] eqn:Eh; simpl; rewrite ?Eh; simpl;
      eexists; split; reflexivity.
  - unfold swallow, try_except, cursor_close, handle_close, mbind, M_bind.
    destruct (_cursor s1), (_handle s1) as [[|]|] eqn:Eh; simpl; rewrite ?Eh; simpl;
      eexists; split; reflexivity.
  - now contradiction H.
Qed.

(** A worker with an open connection that takes a job whose query is
    [None] from its queue. *)
Lemma run_disconnect_marker (w : world) (fuel : nat) (j : job) (rest : list job)
    (n c : nat) (s : accessor) :
  jobs s = j :: rest ->
  job_query j = None ->
  semaphore s = S n ->
  keepalive s = true ->
  _handle s = Some HandleOpen ->
  _cursor s = Some c ->
  exists s',
    run w (S (S fuel)) s = (Raise TypeError, s') /\
    jobs s' = rest /\
    is_alive s' = false /\
    log s' = (log s ++ [Try 0; HandleClose; IdleAdd (Notify "Connection dropped");
                        CursorClose c; IdleAdd (Notify "Disconnected")])%list.
Proof.
  intros Hj Hq Hs Hk Hh Hc. destruct s, j. simpl in *. subst.
  eexists. split; [reflexivity|]. simpl. rewrite <- !app_assoc. now repeat split.
Qed.

(** C6, at a failing input: a connected worker takes a job whose query
    is [None]. It calls [disconnect], and the [execute] call that
    follows raises [TypeError], which nothing catches: the thread ends
    through the [finally] clause and the next job stays in the queue. *)
Theorem disconnect_marker_ends_the_worker :
  let w := World (fun _ => ExecRows 1) (fun _ => Connected true)
             (fun _ _ => []) (fun _ _ => []) (fun _ _ => None) (fun _ => []) in
  let marker := Job None "_handler" None in
  let next := Job (Some ("SHOW tables", [])) "_stage_1" (Some "_fail_1") in
  let s := Accessor (ConnectionArgs "localhost" 3306 "admin" "" "ampache")
             (Some HandleOpen) (Some 0%nat) [marker; next] 2 true true
             0 0 1 1 [] in
  fst (run w 10 s) = Raise TypeError /\
  jobs (snd (run w 10 s)) = [next] /\
  is_alive (snd (run w 10 s)) = false /\
  log (snd (run w 10 s))
  = [Try 0; HandleClose; IdleAdd (Notify "Connection dropped");
     CursorClose 0; IdleAdd (Notify "Disconnected")].
Proof. vm_compute. now repeat split. Qed.

(** C3, at a failing input: every statement and every connection
    fails, and the consumer calls [close] while the worker sleeps after
    its third attempt to connect. The [else] clause of the [while] loop
    does not look at [keepalive]: the fail handler is called after
    [close]. *)
Theorem failhandler_called_after_close :
  let w := World (fun _ => ExecRaises OperationalError)
             (fun _ => ConnectRaises OperationalError)
             (fun _ _ => []) (fun _ _ => []) (fun _ _ => None)
             (fun t => if Nat.eqb t 5 then [ConsumerClose] else []) in
  let j := Job (Some ("SHOW tables", [])) "_stage_1" (Some "_fail_1") in
  let s := request j (__init__ "localhost" "admin" "" "ampache") in
  fst (run w 20 s) = Normal tt /\
  log (snd (run w 20 s))
  = [Try 0; IdleAdd (Notify "Connecting"); Connect;
     IdleAdd (Notify "Connection failed (try 1)"); Print OperationalError; Sleep;
     Try 1; IdleAdd (Notify "Connecting"); Connect;
     IdleAdd (Notify "Connection failed (try 2)"); Print OperationalError; Sleep;
     Try 2; IdleAdd (Notify "Connecting"); Connect;
     IdleAdd (Notify "Connection failed (try 3)"); Print OperationalError; Sleep;
     Consumer ConsumerClose;
     Call (FailHandler "_fail_1" OperationalError);
     IdleAdd (Notify "Disconnected")].
Proof. vm_compute. now split. Qed.

(** C2, as stated, does not hold: the handler of a request that went
    through is called by the worker thread, inside [run], and is not
    queued for the main loop of the consumer. *)
Lemma handler_not_on_consumer_context :
  let w := World (fun _ => ExecRows 3) (fun _ => Connected true)
             (fun _ _ => [CallReplaceCursor]) (fun _ _ => []) (fun _ _ => None)
             (fun t => if Nat.eqb t 5 then [ConsumerClose] else []) in
  let j := Job (Some ("SHOW tables", [])) "_stage_1" (Some "_fail_1") in
  let s := request j (__init__ "localhost" "admin" "" "ampache") in
  fst (run w 20 s) = Normal tt /\
  In (Call (Handler "_stage_1" (Some 0%nat) 3)) (log (snd (run w 20 s))) /\
  ~ In (IdleAdd (Handler "_stage_1" (Some 0%nat) 3)) (log (snd (run w 20 s))).
Proof.
  vm_compute. split; [reflexivity|]. split.
  - repeat (first [left; reflexivity | right]).
  - intros H. repeat (destruct H as [H|H]; [discriminate H|]). exact H.
Qed.

(** C2 (amended): the handler of a request that went through, and the
    fail handler of a request that was given up, are called by the worker
    thread itself, inside [run]; only the status notifications are
    queued, with [glib.idle_add], for the main loop of the consumer. *)
Theorem handlers_are_called_by_the_worker (w : world) (fuel : nat) (s : accessor) :
  (exists seg,
      log (snd (run w fuel s)) = (log s ++ seg)%list /\
      forallb well_placed seg = true) /\
  (forall (j : job) (q : statement) (rest : list job) (n c : nat) (rows : Z),
      jobs s = j :: rest ->
      job_query j = Some q ->
      semaphore s = S n ->
      keepalive s = true ->
      _cursor s = Some c ->
      execute_result w (executed s) = ExecRows rows ->
      ~ In ConsumerClose (consumer w (clock s)) ->
      In (Call (Handler (job_handler j) (Some c) rows))
         (log (snd (run w (S (S fuel)) s)))).
Proof.
  split; [apply growing_run|]. intros. eapply run_calls_handler; eassumption.
Qed.

Lemma handlers_are_called_by_the_worker_witness :
  let w := World (fun _ => ExecRows 3) (fun _ => Connected true)
             (fun _ _ => [CallReplaceCursor; CallPurgeJobQueue 1]) (fun _ _ => [])
             (fun _ _ => None)
             (fun t => if Nat.eqb t 2 then [ConsumerClose] else []) in
  let j := Job (Some ("SELECT 1", [])) "_handler" None in
  let s := Accessor (ConnectionArgs "localhost" 3306 "admin" "" "ampache")
             (Some HandleOpen) (Some 0%nat) [j] 2 true true 0 0 1 1 [] in
  In (Call (Handler "_handler" (Some 0%nat) 3)) (log (snd (run w 6 s))).
Proof.
  intros w j s.
  apply (proj2 (handlers_are_called_by_the_worker w 4 s) j ("SELECT 1", []) [] 1%nat 0%nat 3);
    try reflexivity.
  simpl. intros H. exact H.
Defined.

End AccessorFacts.

(** ** The view builders *)
Module PagesFacts.
Import Pages Builders.

(** *** Cancelled updates *)

Lemma heap_set_kill {P : Set} (ns : nat) (c : common P) (i : nat) :
  heap (set_kill ns c) !! i
  = if decide (ns = i)
    then (fun n => Namespace true (data n)) <$> heap c !! i
    else heap c !! i.
Proof.
  unfold set_kill. simpl. rewrite list_lookup_alter.
  destruct (decide (ns = i)) as [->|Hne]; reflexivity.
Qed.

(** Once set, the flag of a namespace stays set through [cancel]. *)
Lemma cancel_keeps_kill {P : Set} (pending : list (nat * nat)) (c : common P)
    (i : nat) (n : namespace P) :
  heap c !! i = Some n -> kill n = true ->
  exists n', heap (cancel pending c) !! i = Some n' /\ kill n' = true /\ data n' = data n.
Proof.
  revert c n. induction pending as [|[context ns] rest IH]; intros c n Hi Hk; simpl.
  - exists n. now repeat split.
  - destruct (decide (ns = i)) as [->|Hne].
    + eapply (IH _ (Namespace true (data n))); [|reflexivity].
      rewrite heap_set_kill. destruct (decide (i = i)); [|congruence].
      simpl. now rewrite Hi.
    + apply (IH _ n); [|exact Hk].
      rewrite heap_set_kill. destruct (decide (ns = i)); [congruence|]. exact Hi.
Qed.

(** [cancel] sets the flag of every namespace in the list. *)
Lemma cancel_kills {P : Set} (pending : list (nat * nat)) (c : common P)
    (context ns : nat) (n : namespace P) :
  In (context, ns) pending -> heap c !! ns = Some n ->
  exists n', heap (cancel pending c) !! ns = Some n' /\ kill n' = true /\ data n' = data n.
Proof.
  revert c n. induction pending as [|[context' ns'] rest IH]; intros c n Hin Hn;
    [contradiction|].
  simpl. destruct (decide (ns' = ns)) as [->|Hne].
  - apply (cancel_keeps_kill rest _ ns (Namespace true (data n))); [|reflexivity].
    rewrite heap_set_kill. destruct (decide (ns = ns)); [|congruence].
    simpl. now rewrite Hn.
  - destruct Hin as [Heq|Hin]; [congruence|].
    apply (IH _ n Hin). rewrite heap_set_kill.
    destruct (decide (ns' = ns)); [congruence|]. exact Hn.
Qed.

(** What [deactivate], [_handler] and [_cb_update] do to the pending
    updates of a page: each of their namespaces has its flag set. *)
Lemma cancel_updates_kills {P : Set} (c : common P) (context ns : nat)
    (n : namespace P) :
  In (context, ns) (_update_id c) -> heap c !! ns = Some n ->
  exists n', heap (cancel_updates c) !! ns = Some n' /\ kill n' = true /\ data n' = data n.
Proof. apply cancel_kills. Qed.

(** So does [_handler], which starts the next run of the builder. *)
Lemma _handler_kills {P : Set} (empty : P) (rows : Z) (c : common P)
    (context ns : nat) (n : namespace P) :
  In (context, ns) (_update_id c) -> heap c !! ns = Some n ->
  exists n', heap (_handler empty rows c) !! ns = Some n' /\
             kill n' = true /\ data n' = data n.
Proof.
  intros Hin Hn. destruct (cancel_updates_kills c context ns n Hin Hn) as (n' & H & Hk & Hd).
  exists n'. split; [|now split]. unfold _handler. simpl.
  now rewrite (lookup_app_l_Some _ _ _ _ H).
Qed.

(** C7: an idle function of a builder whose namespace has its flag set
    returns [False] at once: the page, with its stores, and the cursor
    are as they were. This holds of [_update_1] and [_update_2] of both
    pages. *)
Theorem cancelled_updates_do_nothing
    (get_iter_root : tree_store (node * string) -> option nat)
    (fuel : nat) (keepalive : bool) (rows total do_max : Z) (ns : nat)
    (fp : flat_page) (tp : tree_page) (cur : cursor) :
  (forall n, heap (f_common fp) !! ns = Some n -> kill n = true ->
     flat_update_1 rows ns fp = (Returns false, fp)) /\
  (forall found, heap (f_common fp) !! ns = Some (Namespace true (FFound found)) ->
     flat_update_2 keepalive ns fp cur = (Returns false, fp, cur)) /\
  (forall n, heap (t_common tp) !! ns = Some n -> kill n = true ->
     tree_update_1 rows ns tp = (Returns false, tp)) /\
  (forall r_dep l_dep done,
     heap (t_common tp) !! ns = Some (Namespace true (TDepths r_dep l_dep done)) ->
     tree_update_2 get_iter_root fuel keepalive total do_max ns tp cur
     = Some (Returns false, tp, cur)).
Proof.
  repeat split.
  - intros n Hn Hk. unfold flat_update_1. now rewrite Hn, Hk.
  - intros found Hn. unfold flat_update_2. now rewrite Hn.
  - intros n Hn Hk. unfold tree_update_1. now rewrite Hn, Hk.
  - intros r_dep l_dep done Hn. unfold tree_update_2. now rewrite Hn.
Qed.

Lemma cancelled_updates_do_nothing_witness :
  let c := fun (P : Set) (d : P) => Common [Namespace true d] [] 1%nat [] (Some ListStore) AMPACHE (fun s => s) in
  let fp := FlatPage (c _ (FFound 1)) [(1, song "A" "X" "t1" "a/x/t1.mp3")] "(1)" in
  let tp := TreePage (c _ (TDepths 0 0 0))
              (ArtistSide [] None None None None) (AlbumSide [] None None)
              None "Populating" (Ratio 0 1) [] in
  let cur := [inr (song "B" "Y" "t3" "b/y/t3.mp3")] in
  flat_update_2 true 0 fp cur = (Returns false, fp, cur) /\
  tree_update_2 (fun _ => None) 3 true 1 30 0 tp cur = Some (Returns false, tp, cur).
Proof.
  intros c fp tp cur. split.
  - apply (proj1 (proj2 (cancelled_updates_do_nothing (fun _ => None) 3 true 1 1 30 0%nat fp tp cur)) 1).
    reflexivity.
  - apply (proj2 (proj2 (proj2 (cancelled_updates_do_nothing (fun _ => None) 3 true 1 1 30 0%nat fp tp cur))) 0 0 0).
    reflexivity.
Defined.

(** A call of [FlatPage._update_2] that is still pending when the next
    request is answered does nothing when it comes to run. *)
Lemma superseded_flat_update_does_nothing (rows found : Z) (keepalive k : bool)
    (context ns : nat) (p : flat_page) (cur : cursor) :
  In (context, ns) (_update_id (f_common p)) ->
  heap (f_common p) !! ns = Some (Namespace k (FFound found)) ->
  flat_update_2 keepalive ns (f_with (_handler FEmpty rows) p) cur
  = (Returns false, f_with (_handler FEmpty rows) p, cur).
Proof.
  intros Hin Hn.
  destruct (_handler_kills FEmpty rows (f_common p) context ns _ Hin Hn)
    as ([k' d'] & H & Hk & Hd). simpl in Hk, Hd. subst.
  unfold flat_update_2. cbn [f_with f_common]. now rewrite H.
Qed.

(** *** The trees of three rows *)

(** Two rows of one album and a row of another artist: the artist tree
    has two artists, the first with one album of two tracks, the second
    with one album of one track. *)
Example tree_of_three_rows :
  let c := Common [Namespace false (TDepths 0 0 0)] [] 1%nat [] None PROKYON_3
             (PrefsControls.transform 2 "X/") in
  let tp := TreePage c (ArtistSide [] None None None None) (AlbumSide [] None None)
              None "Populating" (Ratio 0 1) [] in
  let cur := [inr (Row "A" "X" 1 "t1" 180 128 "t1.mp3" "ab/c" 0);
              inr (Row "a" "x" 2 "t2" 200 128 "t2.mp3" "ab/c" 0);
              inr (Row "B" "Y" 1 "t3" 190 128 "t3.mp3" "ab/d" 0)] in
  match tree_update_2 (fun _ => Some 0%nat) 3 true 3 30 0 tp cur with
  | Some (e, tp', cur') =>
      e = Returns false /\ cur' = [] /\
      artist_store (artist tp')
      = [(None, Node (-1) "A" 0 0 0 "" "" 0);
         (Some 0%nat, Node (-2) "X" 0 0 0 "" "" 0);
         (Some 1%nat, Node 0 "t1" 1 180 128 "t1.mp3" "X//c" 0);
         (Some 1%nat, Node 0 "t2" 2 200 128 "t2.mp3" "X//c" 0);
         (None, Node (-1) "B" 0 0 0 "" "" 0);
         (Some 4%nat, Node (-2) "Y" 0 0 0 "" "" 0);
         (Some 5%nat, Node 0 "t3" 1 190 128 "t3.mp3" "X//d" 0)] /\
      map fst (album_store (album tp'))
      = [None; Some 0%nat; Some 1%nat; Some 1%nat; None; Some 4%nat; Some 5%nat] /\
      loading_label tp' = "Merging Albums"
  | None => False
  end.
Proof. vm_compute. now repeat split. Qed.

(** *** Rows whose file cannot be split *)

(** [TreePage._update_2] skips a row of an Ampache database whose [file]
    has no ["/"]: the loop goes on with the next row and the page is as
    it was. *)
Lemma tree_loop_skips_unsplit_row
    (get_iter_root : tree_store (node * string) -> option nat)
    (n fuel : nat) (r_dep l_dep : Z) (p : tree_page) (r : row) (cur : cursor) :
  db_type (t_common p) = AMPACHE ->
  PyStr.contains "/" (r_filename r) = false ->
  tree_loop get_iter_root (S n) fuel true r_dep l_dep p (inr r :: cur)
  = tree_loop get_iter_root n fuel true r_dep l_dep p cur.
Proof.
  intros Hdb Hf. apply PyStrFacts.rcut_None in Hf.
  simpl. rewrite Hdb. simpl. unfold split_file, PyStr.rsplit1. now rewrite Hf.
Qed.

(** [FlatPage._update_2] does not: the unpacking raises [ValueError],
    which [except IndexError] lets through. *)
Lemma flat_loop_raises_on_unsplit_row
    (n : nat) (found : Z) (p : flat_page) (r : row) (cur : cursor) :
  db_type (f_common p) = AMPACHE ->
  PyStr.contains "/" (r_filename r) = false ->
  flat_loop (S n) true found p (inr r :: cur) = (FlatEnds (Raises ValueError), p, cur).
Proof.
  intros Hdb Hf. apply PyStrFacts.rcut_None in Hf.
  simpl. unfold is_ampache. rewrite Hdb. simpl. unfold flat_tuple, PyStr.rsplit1. now rewrite Hf.
Qed.

Lemma flat_update_2_raises_on_row (ns : nat) (found : Z) (p : flat_page)
    (r : row) (cur : cursor) :
  heap (f_common p) !! ns = Some (Namespace false (FFound found)) ->
  db_type (f_common p) = AMPACHE ->
  PyStr.contains "/" (r_filename r) = false ->
  flat_update_2 true ns p (inr r :: cur) = (Raises ValueError, p, cur).
Proof.
  intros Hn Hdb Hf. unfold flat_update_2. rewrite Hn.
  change 100%nat with (S 99).
  now rewrite (flat_loop_raises_on_unsplit_row 99 found p r cur Hdb Hf).
Qed.

(** C9, at a failing input: an Ampache database gives a row whose [file]
    is ["song.mp3"], then a row whose [file] is ["b/y/t3.mp3"]. The tree
    builder skips the first row and stores the second; the flat builder
    raises [ValueError] at the first row and stores nothing. *)
Theorem flat_update_2_raises_on_unsplit_row :
  let c := fun (P : Set) (d : P) =>
             Common [Namespace false d] [] 1%nat [] None AMPACHE (fun s => s) in
  let fp := FlatPage (c _ (FFound 0)) [] "(0)" in
  let tp := TreePage (c _ (TDepths 0 0 0))
              (ArtistSide [] None None None None) (AlbumSide [] None None)
              None "Populating" (Ratio 0 1) [] in
  let cur := [inr (song "A" "X" "t1" "song.mp3");
              inr (song "B" "Y" "t3" "b/y/t3.mp3")] in
  flat_update_2 true 0 fp cur
  = (Raises ValueError, fp, [inr (song "B" "Y" "t3" "b/y/t3.mp3")])
  /\ exists tp',
      tree_update_2 (fun _ => Some 0%nat) 3 true 2 30 0 tp cur
      = Some (Returns false, tp', [])
      /\ artist_store (artist tp')
         = [(None, Node (-1) "B" 0 0 0 "" "" 0);
            (Some 0%nat, Node (-2) "Y" 0 0 0 "" "" 0);
            (Some 1%nat, Node 0 "t3" 1 180 128 "t3.mp3" "b/y" 1)].
Proof.
  split; [reflexivity|]. eexists. split; reflexivity.
Qed.

(** *** The [while 1] loops end *)

Lemma artist_pass_0 (transform : string -> string) (r : row) (a : artist_side) :
  exists a', artist_pass transform r 0 a = inr (true, 2, a').
Proof.
  unfold artist_pass. simpl. rewrite !String.eqb_refl. simpl.
  rewrite !String.eqb_refl. simpl. eexists; reflexivity.
Qed.

Lemma artist_pass_1 (transform : string -> string) (r : row) (a : artist_side) :
  (exists e, artist_pass transform r 1 a = inl e) \/
  (exists a', artist_pass transform r 1 a = inr (true, 2, a')) \/
  artist_pass transform r 1 a = inr (false, 0, a).
Proof.
  unfold artist_pass. simpl.
  destruct (artlower a) as [al|] eqn:Ea; simpl; [|left; eexists; reflexivity].
  destruct (String.eqb al (PyStr.lower (r_artist r))) eqn:E1; simpl.
  - destruct (r_iter1 a) as [i1|]; simpl; [|left; eexists; reflexivity].
    rewrite ?Ea. simpl. rewrite ?E1, ?String.eqb_refl. simpl.
    right; left; eexists; reflexivity.
  - right; right; reflexivity.
Qed.

Lemma artist_pass_2 (transform : string -> string) (r : row) (a : artist_side) :
  (exists e, artist_pass transform r 2 a = inl e) \/
  (exists a', artist_pass transform r 2 a = inr (true, 2, a')) \/
  artist_pass transform r 2 a = inr (false, 1, a).
Proof.
  unfold artist_pass. simpl.
  destruct (artlower a) as [al|] eqn:Ea; simpl; [|left; eexists; reflexivity].
  destruct (String.eqb al (PyStr.lower (r_artist r))) eqn:E1; simpl.
  - destruct (alblower a) as [bl|]; simpl; [|left; eexists; reflexivity].
    destruct (String.eqb bl (PyStr.lower (r_album r))); simpl.
    + destruct (r_iter2 a); simpl; [right; left|left]; eexists; reflexivity.
    + right; right; reflexivity.
  - right; right; reflexivity.
Qed.

(** The first [while 1] loop makes at most three passes, and leaves
    [r_dep] at 2. *)
Lemma artist_loop_ends (fuel : nat) (transform : string -> string) (r : row)
    (r_dep : Z) (a : artist_side) :
  0 <= r_dep <= 2 ->
  (exists e, artist_loop (3 + fuel) transform r r_dep a = Some (inl e)) \/
  (exists a', artist_loop (3 + fuel) transform r r_dep a = Some (inr (2, a'))).
Proof.
  intros Hd.
  assert (H0 : forall f a, exists a',
             artist_loop (S f) transform r 0 a = Some (inr (2, a'))).
  { intros f a0. destruct (artist_pass_0 transform r a0) as [a' E].
    exists a'. simpl. now rewrite E. }
  assert (H1 : forall f a,
             (exists e, artist_loop (S (S f)) transform r 1 a = Some (inl e)) \/
             (exists a', artist_loop (S (S f)) transform r 1 a = Some (inr (2, a')))).
  { intros f a0. destruct (artist_pass_1 transform r a0) as [[e E]|[[a' E]|E]].
    - left. exists e. cbn [artist_loop]. now rewrite E.
    - right. exists a'. cbn [artist_loop]. now rewrite E.
    - right. destruct (H0 f a0) as [a' E']. exists a'.
      change (artist_loop (S (S f)) transform r 1 a0)
        with (match artist_pass transform r 1 a0 with
              | inl e => Some (inl e)
              | inr (true, r_dep, a) => Some (inr (r_dep, a))
              | inr (false, r_dep, a) => artist_loop (S f) transform r r_dep a
              end).
      now rewrite E. }
  assert (Hcases : r_dep = 0 \/ r_dep = 1 \/ r_dep = 2) by lia.
  destruct Hcases as [-> | [-> | ->]].
  - right. apply H0.
  - apply H1.
  - destruct (artist_pass_2 transform r a) as [[e E]|[[a' E]|E]].
    + left. exists e. cbn [artist_loop Nat.add]. now rewrite E.
    + right. exists a'. cbn [artist_loop Nat.add]. now rewrite E.
    + change (artist_loop (3 + fuel) transform r 2 a)
        with (match artist_pass transform r 2 a with
              | inl e => Some (inl e)
              | inr (true, r_dep, a) => Some (inr (r_dep, a))
              | inr (false, r_dep, a) => artist_loop (S (S fuel)) transform r r_dep a
              end).
      rewrite E. apply H1.
Qed.

Lemma album_pass_0 (transform : string -> string) (r : row) (a : album_side) :
  exists a', album_pass transform r 0 a = inr (true, 1, a').
Proof.
  unfold album_pass. simpl. rewrite !String.eqb_refl. simpl.
  eexists; reflexivity.
Qed.

Lemma album_pass_1 (transform : string -> string) (r : row) (a : album_side) :
  (exists e, album_pass transform r 1 a = inl e) \/
  (exists a', album_pass transform r 1 a = inr (true, 1, a')) \/
  album_pass transform r 1 a = inr (false, 0, a).
Proof.
  unfold album_pass. simpl.
  destruct (albartlower a) as [key|]; simpl; [|left; eexists; reflexivity].
  destruct (_ && _)%bool; simpl.
  - destruct (l_iter a); simpl; [right; left|left]; eexists; reflexivity.
  - right; right; reflexivity.
Qed.

(** The second [while 1] loop makes at most two passes, and leaves
    [l_dep] at 1. *)
Lemma album_loop_ends (fuel : nat) (transform : string -> string) (r : row)
    (l_dep : Z) (a : album_side) :
  0 <= l_dep <= 1 ->
  (exists e, album_loop (2 + fuel) transform r l_dep a = Some (inl e)) \/
  (exists a', album_loop (2 + fuel) transform r l_dep a = Some (inr (1, a'))).
Proof.
  intros Hd.
  assert (H0 : forall f a, exists a',
             album_loop (S f) transform r 0 a = Some (inr (1, a'))).
  { intros f a0. destruct (album_pass_0 transform r a0) as [a' E].
    exists a'. simpl. now rewrite E. }
  assert (Hcases : l_dep = 0 \/ l_dep = 1) by lia.
  destruct Hcases as [-> | ->].
  - right. apply H0.
  - destruct (album_pass_1 transform r a) as [[e E]|[[a' E]|E]].
    + left. exists e. cbn [album_loop Nat.add]. now rewrite E.
    + right. exists a'. cbn [album_loop Nat.add]. now rewrite E.
    + right. destruct (H0 fuel a) as [a' E']. exists a'.
      change (album_loop (2 + fuel) transform r 1 a)
        with (match album_pass transform r 1 a with
              | inl e => Some (inl e)
              | inr (true, l_dep, a) => Some (inr (l_dep, a))
              | inr (false, l_dep, a) => album_loop (S fuel) transform r l_dep a
              end).
      now rewrite E.
Qed.

(** The loop of [TreePage._update_2] ends with three units of fuel for
    its [while 1] loops, when the depths that it starts with are those
    that it leaves in the namespace. *)
Lemma tree_loop_ends
    (get_iter_root : tree_store (node * string) -> option nat)
    (n fuel : nat) (keepalive : bool) (r_dep l_dep : Z) (p : tree_page)
    (cur : cursor) :
  0 <= r_dep <= 2 -> 0 <= l_dep <= 1 ->
  exists x p' cur',
    tree_loop get_iter_root n (3 + fuel) keepalive r_dep l_dep p cur
    = Some (x, p', cur') /\
    match x with
    | TreeDone r_dep' l_dep' => 0 <= r_dep' <= 2 /\ 0 <= l_dep' <= 1
    | TreeEnds _ => True
    end.
Proof.
  revert r_dep l_dep p cur. induction n as [|n IH]; intros r_dep l_dep p cur Hr Hl.
  - do 3 eexists. split; [reflexivity|]. now split.
  - cbn [tree_loop]. destruct keepalive; cbn [negb];
      [|do 3 eexists; split; [reflexivity | exact I]].
    destruct (fetchone cur) as [[e|[r|]] cur'];
      try (do 3 eexists; split; [reflexivity | exact I]).
    destruct (if String.eqb (db_type (t_common p)) AMPACHE then split_file r else inr r)
      as [e|r'].
    + destruct e; try (do 3 eexists; split; [reflexivity | exact I]).
      now apply IH.
    + destruct (artist_loop_ends fuel (transform (t_common p)) r' r_dep (artist p) Hr)
        as [[e E]|[a' E]]; rewrite E;
        [do 3 eexists; split; [reflexivity | exact I]|].
      cbn [album t_common].
      destruct (album_loop_ends (S fuel) (transform (t_common p)) r' l_dep (album p) Hl)
        as [[e E']|[b' E']];
        change (2 + S fuel)%nat with (3 + fuel)%nat in E'; rewrite E';
        [do 3 eexists; split; [reflexivity | exact I]|].
      apply IH; lia.
Qed.

(** [TreePage._update_2] returns. *)
Lemma tree_update_2_returns
    (get_iter_root : tree_store (node * string) -> option nat)
    (fuel : nat) (keepalive : bool) (total do_max : Z) (ns : nat)
    (p : tree_page) (cur : cursor) (k : bool) (r_dep l_dep done : Z) :
  heap (t_common p) !! ns = Some (Namespace k (TDepths r_dep l_dep done)) ->
  0 <= r_dep <= 2 -> 0 <= l_dep <= 1 ->
  exists res,
    tree_update_2 get_iter_root (3 + fuel) keepalive total do_max ns p cur = Some res.
Proof.
  intros Hn Hr Hl. unfold tree_update_2. rewrite Hn.
  destruct k; [eexists; reflexivity|].
  destruct (tree_loop_ends get_iter_root (Z.to_nat do_max) fuel keepalive
              r_dep l_dep p cur Hr Hl) as (x & p' & cur' & E & _).
  rewrite E. destruct x; [|eexists; reflexivity].
  destruct (total =? 0); eexists; reflexivity.
Qed.

(** *** A run of the flat builder *)

Lemma flat_tuple_splits (ampache : bool) (transform : string -> string)
    (found : Z) (r : row) :
  splits ampache r ->
  exists t, flat_tuple ampache transform found r = inr (found, t).
Proof.
  intros H. unfold flat_tuple. destruct ampache; [|eexists; reflexivity].
  specialize (H eq_refl). unfold PyStr.rsplit1.
  destruct (PyStr.rcut "/" (r_filename r)) as [[a b]|] eqn:E;
    [eexists; reflexivity|].
  apply PyStrFacts.rcut_None in E. congruence.
Qed.

Lemma stored_app (ampache : bool) (transform : string -> string) (found : Z)
    (rs1 rs2 : list row) :
  Forall (splits ampache) rs1 ->
  stored ampache transform found (rs1 ++ rs2)
  = stored ampache transform found rs1
    ++ stored ampache transform (found + Z.of_nat (length rs1)) rs2.
Proof.
  revert found. induction rs1 as [|r rs1 IH]; intros found H; simpl.
  - now rewrite Z.add_0_r.
  - inversion H as [|? ? Hr Hrest]; subst.
    destruct (flat_tuple_splits ampache transform (found + 1) r Hr) as [t ->].
    simpl. rewrite IH by assumption. do 3 f_equal. lia.
Qed.

Lemma stored_indices (ampache : bool) (transform : string -> string) (found : Z)
    (rs : list row) :
  Forall (splits ampache) rs ->
  map fst (stored ampache transform found rs) = seqZ (found + 1) (Z.of_nat (length rs)) /\
  Forall2 (fun t r => flat_tuple ampache transform (fst t) r = inr t)
    (stored ampache transform found rs) rs.
Proof.
  revert found. induction rs as [|r rs IH]; intros found H; simpl.
  - split; [reflexivity | constructor].
  - inversion H as [|? ? Hr Hrest]; subst.
    destruct (flat_tuple_splits ampache transform (found + 1) r Hr) as [t E].
    rewrite E. destruct (IH (found + 1) Hrest) as [Hi Hf]. split.
    + simpl. rewrite Hi.
      replace (Z.of_nat (S (length rs))) with (Z.succ (Z.of_nat (length rs))) by lia.
      rewrite (seqZ_cons (found + 1) (Z.succ (Z.of_nat (length rs)))) by lia.
      f_equal. f_equal; lia.
    + constructor; [exact E | exact Hf].
Qed.

(** The loop of [_update_2] over [n] rows that can be stored. *)
Lemma flat_loop_stores (n : nat) (found : Z) (p : flat_page) (rs : list row)
    (rest : cursor) :
  length rs = n ->
  Forall (splits (is_ampache p)) rs ->
  flat_loop n true found p (map inr rs ++ rest)
  = (FlatDone (found + Z.of_nat n),
     FlatPage (f_common p)
       (list_store p ++ stored (is_ampache p) (transform (f_common p)) found rs)
       (found_title p),
     rest).
Proof.
  revert found p rs. induction n as [|n IH]; intros found p rs Hl H.
  - destruct rs; [|discriminate]. simpl. rewrite Z.add_0_r, app_nil_r. now destruct p.
  - destruct rs as [|r rs]; [discriminate|]. inversion H as [|? ? Hr Hrest]; subst.
    destruct (flat_tuple_splits _ (transform (f_common p)) (found + 1) r Hr) as [t E].
    cbn [flat_loop map app negb fetchone stored]. fold (is_ampache p). rewrite E.
    rewrite (IH (found + 1) _ rs); [|now inversion Hl | exact Hrest].
    simpl. rewrite <- app_assoc. simpl. do 3 f_equal. lia.
Qed.

(** The loop of [_update_2] when the cursor has fewer rows than the
    range. *)
Lemma flat_loop_exhausts (n : nat) (found : Z) (p : flat_page) (rs : list row) :
  (length rs < n)%nat ->
  Forall (splits (is_ampache p)) rs ->
  flat_loop n true found p (map inr rs)
  = (FlatEnds (Returns false),
     finish (found + Z.of_nat (length rs))
       (FlatPage (f_common p)
          (list_store p ++ stored (is_ampache p) (transform (f_common p)) found rs)
          (found_title p)),
     []).
Proof.
  revert found p rs. induction n as [|n IH]; intros found p rs Hl H; [lia|].
  destruct rs as [|r rs].
  - simpl. unfold finish. rewrite Z.add_0_r, app_nil_r.
    destruct (found =? 0); simpl; now destruct p.
  - inversion H as [|? ? Hr Hrest]; subst.
    destruct (flat_tuple_splits _ (transform (f_common p)) (found + 1) r Hr) as [t E].
    cbn [flat_loop map app negb fetchone stored]. fold (is_ampache p). rewrite E.
    rewrite (IH (found + 1) _ rs); [|simpl in Hl; lia | exact Hrest].
    simpl. rewrite <- app_assoc. simpl.
    replace (found + 1 + Z.of_nat (length rs)) with (found + Z.pos (Pos.of_succ_nat (length rs))) by lia.
    reflexivity.
Qed.

Lemma heap_set_data {P : Set} (ns : nat) (d : P) (c : common P) (n : namespace P) :
  heap c !! ns = Some n ->
  heap (set_data ns d c) !! ns = Some (Namespace (kill n) d).
Proof.
  intros H. unfold set_data. simpl. rewrite list_lookup_alter.
  destruct (decide (ns = ns)); [|congruence]. now rewrite H.
Qed.

(** One call of [_update_2] when the cursor still has a hundred rows or
    more: they are stored, the count goes to the namespace, and the
    function asks to be called again. *)
Lemma flat_update_2_again (ns : nat) (found : Z) (p : flat_page) (rs : list row) :
  heap (f_common p) !! ns = Some (Namespace false (FFound found)) ->
  Forall (splits (is_ampache p)) rs ->
  (100 <= length rs)%nat ->
  flat_update_2 true ns p (map inr rs)
  = (Returns true,
     FlatPage (set_data ns (FFound (found + 100)) (f_common p))
       (list_store p
        ++ stored (is_ampache p) (transform (f_common p)) found (take 100 rs))
       (found_title p),
     map inr (drop 100 rs)).
Proof.
  intros Hn Hs Hl. unfold flat_update_2. rewrite Hn.
  rewrite <- (take_drop 100 rs) at 1. rewrite map_app.
  rewrite (flat_loop_stores 100 found p (take 100 rs));
    [reflexivity | rewrite length_take; lia | now apply Forall_take].
Qed.

(** The last call: the cursor has fewer than a hundred rows left. *)
Lemma flat_update_2_last (ns : nat) (found : Z) (p : flat_page) (rs : list row) :
  heap (f_common p) !! ns = Some (Namespace false (FFound found)) ->
  Forall (splits (is_ampache p)) rs ->
  (length rs < 100)%nat ->
  flat_update_2 true ns p (map inr rs)
  = (Returns false,
     finish (found + Z.of_nat (length rs))
       (FlatPage (f_common p)
          (list_store p ++ stored (is_ampache p) (transform (f_common p)) found rs)
          (found_title p)),
     []).
Proof.
  intros Hn Hs Hl. unfold flat_update_2. rewrite Hn.
  now rewrite (flat_loop_exhausts 100 found p rs).
Qed.

Lemma flat_run_stores (ns : nat) (calls : nat) (rs : list row) (found : Z)
    (p : flat_page) :
  (length rs < 100 * calls)%nat ->
  heap (f_common p) !! ns = Some (Namespace false (FFound found)) ->
  Forall (splits (is_ampache p)) rs ->
  exists c',
    flat_run calls true ns p (map inr rs)
    = Some (Returns false,
            finish (found + Z.of_nat (length rs))
              (FlatPage c'
                 (list_store p ++ stored (is_ampache p) (transform (f_common p)) found rs)
                 (found_title p)),
            []) /\
    view_model c' = view_model (f_common p) /\
    ((length rs < 100)%nat -> c' = f_common p).
Proof.
  revert rs found p. induction calls as [|calls IH]; intros rs found p Hl Hn Hs; [lia|].
  destruct (Nat.lt_ge_cases (length rs) 100) as [Hlt|Hge].
  - exists (f_common p). simpl. rewrite (flat_update_2_last ns found p rs Hn Hs Hlt).
    unfold finish. destruct (_ =? 0); now repeat split.
  - simpl. rewrite (flat_update_2_again ns found p rs Hn Hs Hge).
    set (p' := FlatPage _ _ _).
    destruct (IH (drop 100 rs) (found + 100) p') as (c' & E & Hv & _).
    + rewrite length_drop. lia.
    + subst p'. exact (heap_set_data ns _ _ _ Hn).
    + now apply Forall_drop.
    + exists c'. rewrite E. subst p'. simpl. split; [|split; [exact Hv | lia]].
      unfold is_ampache. simpl. fold (is_ampache p).
      assert (Hst : stored (is_ampache p) (transform (f_common p)) found rs
                    = stored (is_ampache p) (transform (f_common p)) found (take 100 rs)
                      ++ stored (is_ampache p) (transform (f_common p)) (found + 100)
                           (drop 100 rs)).
      { rewrite <- (take_drop 100 rs) at 1.
        rewrite stored_app by now apply Forall_take.
        rewrite length_take. do 3 f_equal. lia. }
      rewrite Hst, length_drop, <- app_assoc. do 4 f_equal. lia.
Qed.

(** C4 (amended): a run of the flat builder over the rows [rs] that the
    cursor gives. [_update_1] takes the model from the view and clears
    the list store; the calls of [_update_2] store the rows with the
    found indices 1, 2, ... in their order. When the cursor is exhausted
    and at least one row was found, the list store is made the model of
    the view and the first column is given the count as its title; when
    no row was found nothing more is done: the title is the one of the
    previous search, while the view has no model and the list store is
    empty, as [_update_1] left them. *)
Theorem flat_builder_run (rows : Z) (ns : nat) (p : flat_page)
    (n : namespace flat_payload) (rs : list row) :
  heap (f_common p) !! ns = Some n ->
  kill n = false ->
  Forall (splits (is_ampache p)) rs ->
  exists p1 p2,
    flat_update_1 rows ns p = (Returns false, p1) /\
    view_model (f_common p1) = None /\ list_store p1 = [] /\
    flat_run (S (length rs / 100)) true ns p1 (map inr rs)
    = Some (Returns false, p2, []) /\
    map fst (list_store p2) = seqZ 1 (Z.of_nat (length rs)) /\
    Forall2 (fun t r => flat_tuple (is_ampache p) (transform (f_common p)) (fst t) r = inr t)
      (list_store p2) rs /\
    match rs with
    | [] => p2 = p1 /\ found_title p2 = found_title p
    | _ :: _ =>
        view_model (f_common p2) = Some ListStore /\
        found_title p2 = ("(" ++ PyStr.of_Z (Z.of_nat (length rs)) ++ ")")%string
    end.
Proof.
  intros Hn Hk Hs.
  assert (E1 : exists c1,
             flat_update_1 rows ns p = (Returns false, FlatPage c1 [] (found_title p)) /\
             view_model c1 = None /\
             heap c1 !! ns = Some (Namespace false (FFound 0)) /\
             db_type c1 = db_type (f_common p) /\
             transform c1 = transform (f_common p)).
  { unfold flat_update_1. rewrite Hn, Hk. simpl. eexists. split; [reflexivity|].
    simpl. repeat split. rewrite list_lookup_alter.
    destruct (decide (ns = ns)); [|congruence]. rewrite Hn. simpl. now rewrite Hk. }
  destruct E1 as (c1 & E1 & Hv1 & Hh1 & Hd1 & Ht1).
  set (p1 := FlatPage c1 [] (found_title p)).
  assert (Ha : is_ampache p1 = is_ampache p) by (unfold is_ampache; simpl; now rewrite Hd1).
  destruct (flat_run_stores ns (S (length rs / 100)) rs 0 p1) as (c' & E & Hv & Hc).
  - pose proof (Nat.div_mod_eq (length rs) 100).
    pose proof (Nat.mod_upper_bound (length rs) 100). lia.
  - exact Hh1.
  - now rewrite Ha.
  - rewrite Ha in E. simpl in E. rewrite Ht1 in E.
    destruct (stored_indices (is_ampache p) (transform (f_common p)) 0 rs Hs) as [Hi Hf].
    exists p1. eexists. split; [exact E1|]. split; [exact Hv1|]. split; [reflexivity|].
    split; [exact E|].
    assert (Hl : forall f P, list_store (finish f P) = list_store P)
      by (intros f P; unfold finish; now destruct (f =? 0)).
    rewrite Hl. simpl. split; [exact Hi|]. split; [exact Hf|].
    unfold finish. destruct rs as [|r rs']; simpl.
    + rewrite Hc by (simpl; lia). now split.
    + now split.
Qed.

Lemma flat_builder_run_witness :
  let c := Common [Namespace false FEmpty] [(0%nat, Update1 2 0)] 1%nat [(0%nat, 0%nat)]
             (Some ListStore) AMPACHE (fun s => s) in
  let p := FlatPage c [(1, song "Z" "old" "t0" "z/t0.mp3")] "(1)" in
  let rs := [song "A" "X" "t1" "a/x/t1.mp3"; song "B" "Y" "t3" "b/y/t3.mp3"] in
  exists p1 p2,
    flat_update_1 2 0 p = (Returns false, p1) /\
    view_model (f_common p1) = None /\ list_store p1 = [] /\
    flat_run 1 true 0 p1 (map inr rs) = Some (Returns false, p2, []) /\
    map fst (list_store p2) = [1; 2] /\
    Forall2 (fun t r => flat_tuple true (fun s => s) (fst t) r = inr t)
      (list_store p2) rs /\
    view_model (f_common p2) = Some ListStore /\ found_title p2 = "(2)".
Proof.
  intros c p rs.
  apply (flat_builder_run 2 0 p (Namespace false FEmpty) rs); [reflexivity..|].
  repeat constructor; intros _; reflexivity.
Defined.

(** C4, as stated, does not hold: the list store shows one row of a
    previous search; the builder runs over a cursor without rows; the
    view is left without a model and the list store is empty. Only the
    title of the first column is as it was. *)
Lemma flat_builder_without_rows_clears_display :
  let c := Common [Namespace false FEmpty] [(0%nat, Update1 0 0)] 1%nat [(0%nat, 0%nat)]
             (Some ListStore) PROKYON_3 (fun s => s) in
  let p := FlatPage c [(1, song "Z" "old" "t0" "t0.mp3")] "(1)" in
  exists p1 p2,
    flat_update_1 0 0 p = (Returns false, p1) /\
    flat_run 1 true 0 p1 [] = Some (Returns false, p2, []) /\
    view_model (f_common p) = Some ListStore /\
    view_model (f_common p2) = None /\
    list_store p = [(1, song "Z" "old" "t0" "t0.mp3")] /\
    list_store p2 = [] /\
    found_title p2 = found_title p.
Proof. do 2 eexists. repeat split. Qed.

End PagesFacts.

(** ** The worker thread at work *)
Module ServiceFacts.
Import DBAccessor Service.

Lemma acquire_blocked (w : world) (fuel : nat) (s : accessor) :
  semaphore s = 0%nat ->
  acquire w (S fuel) s = acquire w fuel (after_tick w s).
Proof. intros H. simpl. now rewrite H. Qed.

(** The worker waits for the semaphore during [k] blocking operations,
    and then the consumer calls [close]. *)
Lemma acquire_woken (w : world) (k : nat) : forall (fuel : nat) (s : accessor),
  semaphore s = 0%nat ->
  is_alive s = true ->
  (forall t, (t < k)%nat -> consumer w (clock s + t) = []) ->
  consumer w (clock s + k) = [ConsumerClose] ->
  acquire w (S k + fuel) s =
    (Normal tt,
     set_clock (S (clock s + k))
       (set_keepalive false (add_log (Consumer ConsumerClose) s))).
Proof.
  induction k as [|k IH]; intros fuel s Hs Ha Hq Hc.
  - rewrite Nat.add_0_r in *. rewrite acquire_blocked by exact Hs.
    unfold after_tick. rewrite Hc.
    destruct s; simpl in *; subst. destruct fuel; reflexivity.
  - change (S (S k) + fuel)%nat with (S (S k + fuel)).
    rewrite acquire_blocked by exact Hs.
    pose proof (Hq 0%nat ltac:(lia)) as H0. rewrite Nat.add_0_r in H0.
    unfold after_tick. rewrite H0. cbn [fold_left].
    rewrite IH.
    + destruct s; unfold set_clock, set_keepalive, add_log; simpl. do 2 f_equal. lia.
    + now destruct s.
    + now destruct s.
    + intros t Ht.
      replace (clock _ + t)%nat with (clock s + S t)%nat by (destruct s; simpl; lia).
      apply Hq. lia.
    + replace (clock _ + k)%nat with (clock s + S k)%nat by (destruct s; simpl; lia).
      exact Hc.
Qed.

(** X1: a worker that waits for a request, its queue empty, is closed
    by the consumer. [run] ends without an exception: whatever cursor
    and open connection there are get closed, "Disconnected" is
    notified once, and nothing else is logged: no statement is sent and no
    handler is called. *)
Theorem close_ends_the_idle_worker (w : world) (k fuel : nat) (s : accessor) :
  jobs s = [] ->
  semaphore s = 0%nat ->
  keepalive s = true ->
  is_alive s = true ->
  (forall t, (t < k)%nat -> consumer w (clock s + t) = []) ->
  consumer w (clock s + k) = [ConsumerClose] ->
  exists s',
    run w (k + 3 + fuel) s = (Normal tt, s') /\
    is_alive s' = false /\
    log s' = log s ++ [Consumer ConsumerClose] ++ closing s ++
             [IdleAdd (Notify "Disconnected")].
Proof.
  intros Hj Hs Hk Ha Hq Hc.
  assert (L : loop w (k + 3 + fuel) s =
              (Normal tt,
               set_clock (S (clock s + k))
                 (set_keepalive false (add_log (Consumer ConsumerClose) s)))).
  { replace (k + 3 + fuel)%nat with (S (S k + S fuel)) by lia.
    cbn [loop].
    rewrite (AccessorFacts.bind_normal get _ s s s eq_refl). rewrite Hk.
    rewrite (AccessorFacts.bind_normal _ _ _ _ _ (acquire_woken w k (S fuel) s Hs Ha Hq Hc)).
    rewrite (AccessorFacts.bind_normal get _ _ _ _ eq_refl).
    replace (jobs _) with (@nil job) by (destruct s; simpl in *; congruence).
    replace (S k + S fuel)%nat with (S (S k + fuel))%nat by lia.
    cbn [loop]. rewrite (AccessorFacts.bind_normal get _ _ _ _ eq_refl).
    destruct s; reflexivity. }
  unfold run, try_finally. rewrite L.
  unfold closing. destruct s; simpl in *; subst.
  destruct _cursor0 as [c|], _handle0 as [[|]|];
    (eexists; split; [reflexivity|]; cbn; split; [reflexivity|];
     rewrite <- ?app_assoc; reflexivity).
Qed.

Lemma close_ends_the_idle_worker_witness :
  let w := World (fun _ => ExecRows 0) (fun _ => Connected true)
             (fun _ _ => []) (fun _ _ => []) (fun _ _ => None)
             (fun t => if Nat.eqb t 2 then [ConsumerClose] else []) in
  let s := Accessor (ConnectionArgs "localhost" 3306 "admin" "" "ampache")
             (Some HandleOpen) (Some 4%nat) [] 0 true true 0 0 0 5 [] in
  exists s',
    run w 5 s = (Normal tt, s') /\
    is_alive s' = false /\
    log s' = [Consumer ConsumerClose; CursorClose 4; HandleClose;
              IdleAdd (Notify "Disconnected")].
Proof.
  intros w s.
  apply (close_ends_the_idle_worker w 2 0 s); try reflexivity.
  intros [|[|t]] H; [reflexivity | reflexivity | lia].
Defined.

(** [disconnect] on a connection that is open, and then once more. *)
Lemma disconnect_open (s : accessor) :
  _handle s = Some HandleOpen ->
  disconnect s =
    (Normal tt,
     add_log (IdleAdd (Notify "Connection dropped"))
       (add_log HandleClose (set_handle (Some HandleClosed) s))).
Proof.
  intros H. unfold disconnect, try_except, handle_close. rewrite H. reflexivity.
Qed.

Lemma disconnect_closed (s : accessor) :
  _handle s = Some HandleClosed ->
  disconnect s =
    (Normal tt, add_log (IdleAdd (Notify "Problem dropping connection")) s).
Proof.
  intros H. unfold disconnect, try_except, handle_close. rewrite H. reflexivity.
Qed.

(** X2: [disconnect] raises nothing when the accessor has a
    connection object, and leaves it closed: an open connection is
    closed and "Connection dropped" is notified; for one that is closed
    already the error of the driver is caught and "Problem dropping
    connection" is notified. So [disconnect] may be called twice. Without
    a connection object the [AttributeError] is not caught. *)
Theorem disconnect_leaves_closed (s : accessor) :
  match _handle s with
  | Some h =>
      exists s', disconnect s = (Normal tt, s') /\
        _handle s' = Some HandleClosed /\
        log s' = log s ++
          match h with
          | HandleOpen => [HandleClose; IdleAdd (Notify "Connection dropped")]
          | HandleClosed => [IdleAdd (Notify "Problem dropping connection")]
          end /\
        exists s'', (disconnect ;; disconnect) s = (Normal tt, s'') /\
          log s'' = log s' ++ [IdleAdd (Notify "Problem dropping connection")]
  | None => disconnect s = (Raise AttributeError, s)
  end.
Proof.
  destruct (_handle s) as [[|]|] eqn:E.
  - rewrite (disconnect_open s E). eexists. split; [reflexivity|].
    split; [now destruct s|]. split; [destruct s; simpl; now rewrite <- app_assoc|].
    rewrite (AccessorFacts.bind_normal _ _ _ _ _ (disconnect_open s E)).
    rewrite disconnect_closed by now destruct s.
    eexists. split; reflexivity.
  - rewrite (disconnect_closed s E). eexists. split; [reflexivity|].
    split; [now destruct s|]. split; [now destruct s|].
    rewrite (AccessorFacts.bind_normal _ _ _ _ _ (disconnect_closed s E)).
    rewrite disconnect_closed by now destruct s.
    eexists. split; reflexivity.
  - unfold disconnect, try_except, handle_close. now rewrite E.
Qed.

Section Silent.

Variable w : world.

(** The consumer leaves the worker alone. *)
Hypothesis silent : forall t, consumer w t = [].

(** The computation is run, the answers of the server and the code of
    the handlers being given by hypotheses. *)
Ltac run_silent :=
  repeat first
    [ progress cbn
    | progress unfold attempt, mbind, M_bind, mret, M_ret, raise, try_except, execute,
        emit, modify, get, tick, on_error, swallow, cursor_close, handle_close,
        connect, notify, new_cursor, call_handler, after_tick
    | rewrite silent
    | match goal with H : execute_result w _ = _ |- _ => rewrite H end
    | match goal with H : connect_result w _ = _ |- _ => rewrite H end
    | match goal with H : handler_body w _ _ = _ |- _ => rewrite H end
    | match goal with H : job_query _ = _ |- _ => rewrite H end ].

(** A handler that only makes requests and notifications: the requests
    join the queue, each with its signal, and the notifications are
    queued for the main loop. *)
Lemma do_calls_plain (fuel : nat) (cursor : option nat) (cs : list acc_call) :
  forall s : accessor,
  forallb plain cs = true ->
  exists s',
    do_calls w fuel cursor cs s = (Normal tt, s') /\
    jobs s' = jobs s ++ requested cs /\
    semaphore s' = (semaphore s + length (requested cs))%nat /\
    log s' = log s ++ notified cs /\
    keepalive s' = keepalive s /\ _cursor s' = _cursor s /\
    _handle s' = _handle s /\ executed s' = executed s /\
    connections s' = connections s.
Proof.
  induction cs as [|c cs IH]; intros s Hp.
  - exists s. cbn. rewrite !app_nil_r, Nat.add_0_r. repeat split.
  - cbn [forallb] in Hp. apply andb_true_iff in Hp as [Hc Hp].
    destruct c as [j| | | |msg]; try discriminate Hc; cbn [do_calls do_call].
    + rewrite (AccessorFacts.bind_normal (modify (request j)) _ s _ tt eq_refl).
      destruct (IH (request j s) Hp)
        as (s' & E & Hj & Hs & Hl & Hk & Hcu & Hh & He & Hn).
      exists s'. split; [exact E|]. cbn [requested notified length].
      rewrite Hj, Hs, Hl, Hk, Hcu, Hh, He, Hn. destruct s; cbn.
      rewrite <- app_assoc. repeat split. lia.
    + rewrite (AccessorFacts.bind_normal (notify msg) _ s _ tt eq_refl).
      destruct (IH (add_log (IdleAdd (Notify msg)) s) Hp)
        as (s' & E & Hj & Hs & Hl & Hk & Hcu & Hh & He & Hn).
      exists s'. split; [exact E|]. cbn [requested notified length].
      rewrite Hj, Hs, Hl, Hk, Hcu, Hh, He, Hn. destruct s; cbn.
      rewrite <- app_assoc. repeat split.
Qed.

(** The statement goes through and the handler makes its requests and
    notifications. *)
Lemma attempt_served_plain (fuel : nat) (j : job) (q : statement) (t : Z)
    (c : nat) (rows : Z) (s : accessor) :
  job_query j = Some q ->
  _cursor s = Some c ->
  keepalive s = true ->
  execute_result w (executed s) = ExecRows rows ->
  forallb plain (handler_body w (job_handler j) rows) = true ->
  exists s',
    attempt w fuel j t s = (Normal Break, s') /\
    jobs s' = jobs s ++ requested (handler_body w (job_handler j) rows) /\
    semaphore s'
    = (semaphore s + length (requested (handler_body w (job_handler j) rows)))%nat /\
    keepalive s' = true /\ _cursor s' = Some c /\ _handle s' = _handle s /\
    executed s' = S (executed s) /\ connections s' = connections s /\
    log s' = log s ++
      [Try t; Execute c q; Call (Handler (job_handler j) (Some c) rows)]
      ++ notified (handler_body w (job_handler j) rows).
Proof.
  intros Hq Hc Hk He Hp.
  set (s1 := set_clock (S (S (clock s)))
               (set_executed (S (executed s))
                  (add_log (Call (Handler (job_handler j) (Some c) rows))
                     (add_log (Execute c q) (add_log (Try t) s))))).
  destruct (do_calls_plain fuel (Some c) _ s1 Hp)
    as (s' & E & Hj & Hs & Hl & Hk' & Hcu & Hh & Hx & Hn).
  assert (A : attempt w fuel j t s
              = (do_calls w fuel (Some c) (handler_body w (job_handler j) rows) ;;
                 mret Break) s1).
  { unfold s1. clear E Hj Hs Hl Hk' Hcu Hh Hx Hn s1 s'.
    destruct s. simpl in *. subst.
    repeat first
      [ progress cbn -[do_calls]
      | progress unfold attempt, mbind, M_bind, mret, M_ret, try_except, execute,
          emit, modify, get, tick, call_handler, after_tick
      | rewrite silent | rewrite He | rewrite Hq ].
    reflexivity. }
  exists s'. split; [rewrite A; now rewrite (AccessorFacts.bind_normal _ _ _ _ _ E)|].
  rewrite Hj, Hs, Hl, Hk', Hcu, Hh, Hx, Hn. unfold s1. destruct s; simpl in *. subst.
  rewrite <- !app_assoc. repeat split.
Qed.

(** The server has dropped the connection: the statement fails with
    [OperationalError], cursor and connection are closed, and a new
    connection is made. *)
Lemma attempt_expired (fuel : nat) (j : job) (q : statement) (t : Z)
    (c : nat) (s : accessor) :
  job_query j = Some q ->
  _cursor s = Some c ->
  _handle s = Some HandleOpen ->
  keepalive s = true ->
  execute_result w (executed s) = ExecRaises OperationalError ->
  connect_result w (connections s) = Connected true ->
  exists s',
    attempt w fuel j t s = (Normal (Again (t + 1) OperationalError), s') /\
    _handle s' = Some HandleOpen /\ _cursor s' = Some (cursors s) /\
    keepalive s' = true /\
    executed s' = S (executed s) /\ connections s' = S (connections s) /\
    jobs s' = jobs s /\
    log s' = log s ++
      [Try t; Execute c q; CursorClose c; HandleClose;
       IdleAdd (Notify "Connecting"); Connect; IdleAdd (Notify "Connected")].
Proof.
  intros Hq Hc Hh Hk He1 Hco.
  destruct s. simpl in *. subst.
  run_silent.
  eexists. split; [reflexivity|]. simpl. rewrite <- !app_assoc. simpl. tauto.
Qed.

(** There is no cursor yet: [self._cursor.execute] raises
    [AttributeError], nothing is sent, and a connection is made. *)
Lemma attempt_unconnected (fuel : nat) (j : job) (q : statement) (t : Z)
    (s : accessor) :
  job_query j = Some q ->
  _cursor s = None ->
  keepalive s = true ->
  connect_result w (connections s) = Connected true ->
  exists s',
    attempt w fuel j t s = (Normal (Again (t + 1) AttributeError), s') /\
    _handle s' = Some HandleOpen /\ _cursor s' = Some (cursors s) /\
    keepalive s' = true /\
    executed s' = executed s /\ connections s' = S (connections s) /\
    jobs s' = jobs s /\
    log s' = log s ++
      [Try t; IdleAdd (Notify "Connecting"); Connect; IdleAdd (Notify "Connected")].
Proof.
  intros Hq Hc Hk Hco.
  destruct s. simpl in *. subst.
  run_silent.
  eexists. split; [reflexivity|]. simpl. rewrite <- !app_assoc. simpl. tauto.
Qed.

Lemma retry_second_try (fuel : nat) (j : job) (e : py_exn) (s s1 s2 : accessor) :
  attempt w (S fuel) j 0 s = (Normal (Again (0 + 1) e), s1) ->
  attempt w fuel j 1 s1 = (Normal Break, s2) ->
  retry w (S (S fuel)) j 0 None s = (Normal true, s2).
Proof.
  intros E1 E2.
  cbn [retry]. change (0 <? 3) with true. cbv iota.
  rewrite (AccessorFacts.bind_normal _ _ _ _ _ E1). cbv beta iota. change (0 + 1) with 1.
  cbn [retry]. change (1 <? 3) with true. cbv iota.
  rewrite (AccessorFacts.bind_normal _ _ _ _ _ E2). reflexivity.
Qed.

(** X3: the connection of the accessor has expired, and the
    statement of a request fails with [OperationalError]. The worker
    closes cursor and connection, connects again, and sends the same
    statement with the new cursor; the handler is called once, with the
    new cursor and the result of the second execution. The consumer is
    told "Connecting" and "Connected", and the fail handler is not
    called. The consumer makes no call meanwhile, and the handler calls
    nothing but [request] and [notify]: its requests join the queue and
    its notifications follow its call in the log. *)
Theorem expired_connection_is_remade (fuel : nat) (j : job) (q : statement)
    (c : nat) (rows : Z) (s : accessor) :
  job_query j = Some q ->
  _cursor s = Some c ->
  _handle s = Some HandleOpen ->
  keepalive s = true ->
  execute_result w (executed s) = ExecRaises OperationalError ->
  connect_result w (connections s) = Connected true ->
  execute_result w (S (executed s)) = ExecRows rows ->
  forallb plain (handler_body w (job_handler j) rows) = true ->
  exists s',
    retry w (S (S fuel)) j 0 None s = (Normal true, s') /\
    _handle s' = Some HandleOpen /\ _cursor s' = Some (cursors s) /\
    jobs s' = jobs s ++ requested (handler_body w (job_handler j) rows) /\
    log s' = log s ++
      [Try 0; Execute c q; CursorClose c; HandleClose;
       IdleAdd (Notify "Connecting"); Connect; IdleAdd (Notify "Connected");
       Try 1; Execute (cursors s) q;
       Call (Handler (job_handler j) (Some (cursors s)) rows)]
      ++ notified (handler_body w (job_handler j) rows).
Proof.
  intros Hq Hc Hh Hk He1 Hco He2 Hb.
  destruct (attempt_expired (S fuel) j q 0 c s Hq Hc Hh Hk He1 Hco)
    as (s1 & E1 & Hh1 & Hc1 & Hk1 & Hx1 & _ & Hj1 & Hl1).
  rewrite <- Hx1 in He2.
  destruct (attempt_served_plain fuel j q 1 (cursors s) rows s1 Hq Hc1 Hk1 He2 Hb)
    as (s2 & E2 & Hj2 & _ & _ & Hc2 & Hh2 & _ & _ & Hl2).
  exists s2. split; [exact (retry_second_try fuel j _ s s1 _ E1 E2)|].
  rewrite Hh2, Hc2, Hj2, Hl2, Hh1, Hj1, Hl1, <- !app_assoc. repeat split.
Qed.

(** X4: no connection is made before there is a request. For the
    first request of an accessor, which has no cursor, the first pass
    through [while trycount < 3] sends nothing: it makes the connection.
    The statement is sent in the second pass, with [trycount = 1], and
    the handler is called with the cursor of the new connection. The
    consumer makes no call meanwhile, and the handler calls nothing but
    [request] and [notify]: its requests join the queue and its
    notifications follow its call in the log. *)
Theorem first_request_connects (fuel : nat) (j : job) (q : statement)
    (rows : Z) (s : accessor) :
  job_query j = Some q ->
  _cursor s = None ->
  keepalive s = true ->
  connect_result w (connections s) = Connected true ->
  execute_result w (executed s) = ExecRows rows ->
  forallb plain (handler_body w (job_handler j) rows) = true ->
  exists s',
    retry w (S (S fuel)) j 0 None s = (Normal true, s') /\
    _handle s' = Some HandleOpen /\ _cursor s' = Some (cursors s) /\
    connections s' = S (connections s) /\ executed s' = S (executed s) /\
    jobs s' = jobs s ++ requested (handler_body w (job_handler j) rows) /\
    log s' = log s ++
      [Try 0; IdleAdd (Notify "Connecting"); Connect; IdleAdd (Notify "Connected");
       Try 1; Execute (cursors s) q;
       Call (Handler (job_handler j) (Some (cursors s)) rows)]
      ++ notified (handler_body w (job_handler j) rows).
Proof.
  intros Hq Hc Hk Hco He Hb.
  destruct (attempt_unconnected (S fuel) j q 0 s Hq Hc Hk Hco)
    as (s1 & E1 & Hh1 & Hc1 & Hk1 & Hx1 & Hn1 & Hj1 & Hl1).
  rewrite <- Hx1 in He.
  destruct (attempt_served_plain fuel j q 1 (cursors s) rows s1 Hq Hc1 Hk1 He Hb)
    as (s2 & E2 & Hj2 & _ & _ & Hc2 & Hh2 & Hx2 & Hn2 & Hl2).
  exists s2. split; [exact (retry_second_try fuel j _ s s1 _ E1 E2)|].
  rewrite Hh2, Hc2, Hx2, Hn2, Hj2, Hl2, Hh1, Hx1, Hn1, Hj1, Hl1, <- !app_assoc.
  repeat split.
Qed.

Lemma loop_serves (js : list job) :
  forall (fuel : nat) (c : nat) (extra : list job) (s : accessor),
  (1 <= fuel)%nat ->
  jobs s = js ++ extra ->
  Forall (fun j => job_query j <> None) js ->
  (forall n, (n < length js)%nat ->
     exists rows, execute_result w (executed s + n) = ExecRows rows) ->
  (forall j rows, In j js -> forallb plain (handler_body w (job_handler j) rows) = true) ->
  (length js <= semaphore s)%nat ->
  keepalive s = true ->
  _cursor s = Some c ->
  exists s',
    loop w (length js + fuel) s = loop w fuel s' /\
    jobs s' = extra ++ asked w (executed s) js /\
    semaphore s' = (semaphore s - length js + length (asked w (executed s) js))%nat /\
    keepalive s' = true /\
    log s' = log s ++ served w c (executed s) js.
Proof.
  induction js as [|j js IH]; intros fuel c extra s Hf Hj Hq Hx Hp Hs Hk Hc.
  - exists s. simpl. rewrite !app_nil_r. repeat split; auto. lia.
  - inversion Hq as [|? ? Hqj Hqs]; subst.
    destruct (job_query j) as [q|] eqn:Eq; [|congruence].
    destruct (Hx 0%nat) as (rows & Hr); [simpl; lia|].
    rewrite Nat.add_0_r in Hr.
    destruct fuel as [|fuel]; [lia|].
    simpl in Hs. destruct (semaphore s) as [|sem] eqn:Es; [lia|].
    set (s0 := set_jobs (js ++ extra) (set_semaphore sem s)).
    set (body := handler_body w (job_handler j) rows).
    destruct (attempt_served_plain (length js + fuel) j q 0 c rows s0 Eq)
      as (s1 & E & Hj1 & Hs1 & Hk1 & Hc1 & _ & Hx1 & _ & Hl1).
    { now destruct s. }
    { now destruct s. }
    { now destruct s. }
    { apply Hp. now left. }
    fold body in Hj1, Hs1, Hl1.
    destruct (IH (S fuel) c (extra ++ requested body) s1)
      as (s' & L & Hj' & Hs' & Hk' & Hl').
    { lia. }
    { rewrite Hj1. unfold s0. destruct s; simpl. now rewrite app_assoc. }
    { exact Hqs. }
    { intros n Hn. destruct (Hx (S n)) as (r & Hr'); [simpl; lia|].
      exists r. rewrite <- Hr'. f_equal. rewrite Hx1. destruct s; simpl. lia. }
    { intros j' rows' Hin. apply Hp. now right. }
    { rewrite Hs1. destruct s; simpl in *. lia. }
    { exact Hk1. }
    { exact Hc1. }
    assert (Hx0 : executed s1 = S (executed s)) by (rewrite Hx1; now destruct s).
    rewrite Hx0 in Hj', Hs', Hl'.
    exists s'. split; [|split; [|split; [|split; [exact Hk'|]]]].
    + rewrite <- L.
      change (length (j :: js) + S fuel)%nat with (S (length js + S fuel)).
      rewrite (AccessorFacts.loop_takes_job w _ j (js ++ extra) sem s Hj Es Hk).
      fold s0.
      replace (length js + S fuel)%nat with (S (length js + fuel)) by lia.
      cbn [retry]. change (0 <? 3) with true. cbv iota.
      rewrite (AccessorFacts.bind_normal _ _ _ _ _
                 (AccessorFacts.bind_normal _ _ _ _ _ E)).
      reflexivity.
    + rewrite Hj'. cbn [asked]. rewrite Hr. fold body. now rewrite app_assoc.
    + rewrite Hs', Hs1. cbn [asked]. rewrite Hr. fold body.
      rewrite length_app. destruct s; simpl in *. lia.
    + rewrite Hl', Hl1. cbn [served]. rewrite Eq, Hr. fold body.
      unfold s0. destruct s; simpl. now rewrite <- !app_assoc.
Qed.

Lemma statements_notified (cs : list acc_call) (l : list event) :
  statements (notified cs ++ l) = statements l /\
  handlers (notified cs ++ l) = handlers l.
Proof.
  induction cs as [|[]]; cbn; auto.
Qed.

Lemma served_in_turn (c : nat) (js : list job) : forall n : nat,
  Forall (fun j => job_query j <> None) js ->
  (forall i, (i < length js)%nat ->
     exists rows, execute_result w (n + i) = ExecRows rows) ->
  statements (served w c n js) = omap job_query js /\
  handlers (served w c n js) = map job_handler js.
Proof.
  induction js as [|j js IH]; intros n Hq Hx; [now split|].
  inversion Hq as [|? ? Hqj Hqs]; subst.
  destruct (Hx 0%nat) as (rows & Hr); [simpl; lia|]. rewrite Nat.add_0_r in Hr.
  destruct (IH (S n) Hqs) as [IH1 IH2].
  { intros i Hi. destruct (Hx (S i)) as (r & Hr'); [simpl; lia|].
    exists r. rewrite <- Hr'. f_equal. lia. }
  cbn [served]. destruct (job_query j) as [q|] eqn:Eq; [|congruence]. rewrite Hr.
  destruct (statements_notified (handler_body w (job_handler j) rows)
              (served w c (S n) js)) as [S1 S2].
  change (omap job_query (j :: js))
    with (match job_query j with Some q => q :: omap job_query js
          | None => omap job_query js end).
  rewrite Eq. cbn. now rewrite S1, S2, IH1, IH2.
Qed.

(** The stages of the media pane are such handlers. *)
Lemma stages_are_plain (acts : list MediaPane.action) :
  forallb plain (MediaPane.accessor_calls acts) = true.
Proof.
  induction acts as [|[] acts IH]; cbn; auto.
Qed.

(** X5: the queue is served first in, first out. The worker has a
    cursor and finds the requests [js] in its queue, each with its
    signal in the semaphore; the statements all go through, the
    handlers of these requests call nothing but [request] and [notify],
    as the stages of the media pane do, and the consumer makes no call
    meanwhile. Then the worker takes one request per round of
    [while self.keepalive]: the statements are sent in the order of the
    queue, each once, and each handler is called after its own
    statement, its notifications following. After as many rounds as
    there were requests the queue holds the requests that the handlers
    have made, in the order in which they were made, each with its
    signal. *)
Theorem requests_are_served_in_turn (js : list job) (fuel : nat) (c : nat)
    (s : accessor) :
  (1 <= fuel)%nat ->
  jobs s = js ->
  Forall (fun j => job_query j <> None) js ->
  (forall n, (n < length js)%nat ->
     exists rows, execute_result w (executed s + n) = ExecRows rows) ->
  (forall j rows, In j js -> forallb plain (handler_body w (job_handler j) rows) = true) ->
  (length js <= semaphore s)%nat ->
  keepalive s = true ->
  _cursor s = Some c ->
  exists s',
    loop w (length js + fuel) s = loop w fuel s' /\
    jobs s' = asked w (executed s) js /\
    semaphore s' = (semaphore s - length js + length (jobs s'))%nat /\
    log s' = log s ++ served w c (executed s) js /\
    statements (served w c (executed s) js) = omap job_query js /\
    handlers (served w c (executed s) js) = map job_handler js.
Proof.
  intros Hf Hj Hq Hx Hp Hs Hk Hc.
  destruct (loop_serves js fuel c [] s Hf) as (s' & L & Hj' & Hs' & _ & Hl);
    [now rewrite app_nil_r | assumption..|].
  exists s'. split; [exact L|]. split; [exact Hj'|].
  split; [now rewrite Hj', Hs'|]. split; [exact Hl|].
  now apply served_in_turn.
Qed.

End Silent.

Lemma expired_connection_is_remade_witness :
  let body := fun (name : string) (_ : Z) =>
    if String.eqb name "_stage_6"
    then match MediaPane._stage_6 [["name"]; ["prefix"]] with
         | inr acts => MediaPane.accessor_calls acts
         | inl _ => []
         end
    else [] in
  let w := World (fun n => if Nat.eqb n 0 then ExecRaises OperationalError else ExecRows 2)
             (fun _ => Connected true) body (fun _ _ => []) (fun _ _ => None)
             (fun _ => []) in
  let j := Job (Some ("DESCRIBE artist", [])) "_stage_6" (Some "_fail_1") in
  let s := Accessor (ConnectionArgs "localhost" 3306 "admin" "" "ampache")
             (Some HandleOpen) (Some 0%nat) [] 0 true true 0 0 1 1 [] in
  exists s',
    retry w 2 j 0 None s = (Normal true, s') /\
    _handle s' = Some HandleOpen /\ _cursor s' = Some 1%nat /\
    jobs s' = [Job (Some ("ALTER TABLE album ADD FULLTEXT idjc (name)", []))
                 "_stage_7" (Some "_fail_3")] /\
    log s' =
      [Try 0; Execute 0 ("DESCRIBE artist", []); CursorClose 0; HandleClose;
       IdleAdd (Notify "Connecting"); Connect; IdleAdd (Notify "Connected");
       Try 1; Execute 1 ("DESCRIBE artist", []);
       Call (Handler "_stage_6" (Some 1%nat) 2);
       IdleAdd (Notify "Found Ampache schema")].
Proof.
  intros body w j s.
  apply (expired_connection_is_remade w (fun _ => eq_refl) 0 j ("DESCRIBE artist", [])
           0 2 s);
    reflexivity.
Defined.

Lemma first_request_connects_witness :
  let body := fun (name : string) (_ : Z) =>
    if String.eqb name "_stage_1"
    then match MediaPane._stage_1 [["album"]; ["artist"]; ["song"]] with
         | inr acts => MediaPane.accessor_calls acts
         | inl _ => []
         end
    else [] in
  let w := World (fun _ => ExecRows 3) (fun _ => Connected true)
             body (fun _ _ => []) (fun _ _ => None) (fun _ => []) in
  let j := Job (Some ("SHOW tables", [])) "_stage_1" (Some "_fail_1") in
  let s := __init__ "localhost" "admin" "" "ampache" in
  exists s',
    retry w 2 j 0 None s = (Normal true, s') /\
    _handle s' = Some HandleOpen /\ _cursor s' = Some 0%nat /\
    connections s' = 1%nat /\ executed s' = 1%nat /\
    jobs s' = [Job (Some ("DESCRIBE song", [])) "_stage_4" (Some "_fail_1")] /\
    log s' =
      [Try 0; IdleAdd (Notify "Connecting"); Connect; IdleAdd (Notify "Connected");
       Try 1; Execute 0 ("SHOW tables", []);
       Call (Handler "_stage_1" (Some 0%nat) 3)].
Proof.
  intros body w j s.
  apply (first_request_connects w (fun _ => eq_refl) 0 j ("SHOW tables", []) 3 s);
    reflexivity.
Defined.

Lemma requests_are_served_in_turn_witness :
  let body := fun (name : string) (_ : Z) =>
    if String.eqb name "_stage_6"
    then match MediaPane._stage_6 [["name"]; ["prefix"]] with
         | inr acts => MediaPane.accessor_calls acts
         | inl _ => []
         end
    else if String.eqb name "_stage_7"
    then MediaPane.accessor_calls MediaPane._stage_7
    else [] in
  let w := World (fun n => ExecRows (Z.of_nat n)) (fun _ => Connected true)
             body (fun _ _ => []) (fun _ _ => None) (fun _ => []) in
  let j6 := Job (Some ("DESCRIBE artist", [])) "_stage_6" (Some "_fail_1") in
  let j7 := Job (Some ("ALTER TABLE album ADD FULLTEXT idjc (name)", []))
              "_stage_7" (Some "_fail_3") in
  let j8 := Job (Some ("ALTER TABLE artist ADD FULLTEXT idjc (name)", []))
              "_stage_8" (Some "_fail_3") in
  let s := Accessor (ConnectionArgs "localhost" 3306 "admin" "" "ampache")
             (Some HandleOpen) (Some 0%nat) [j6; j7] 2 true true 0 0 1 1 [] in
  exists s',
    loop w 3 s = loop w 1 s' /\
    jobs s' = [j7; j8] /\
    semaphore s' = (2 - 2 + length (jobs s'))%nat /\
    log s' = [Try 0; Execute 0 ("DESCRIBE artist", []);
              Call (Handler "_stage_6" (Some 0%nat) 0);
              IdleAdd (Notify "Found Ampache schema");
              Try 0; Execute 0 ("ALTER TABLE album ADD FULLTEXT idjc (name)", []);
              Call (Handler "_stage_7" (Some 0%nat) 1)] /\
    statements (served w 0 0 [j6; j7])
    = [("DESCRIBE artist", []); ("ALTER TABLE album ADD FULLTEXT idjc (name)", [])] /\
    handlers (served w 0 0 [j6; j7]) = ["_stage_6"; "_stage_7"].
Proof.
  intros body w j6 j7 j8 s.
  apply (requests_are_served_in_turn w (fun _ => eq_refl) [j6; j7] 1 0 s).
  - lia.
  - reflexivity.
  - repeat constructor; discriminate.
  - intros n _. eexists. reflexivity.
  - intros j rows [<-|[<-|[]]]; reflexivity.
  - simpl. lia.
  - reflexivity.
  - reflexivity.
Defined.

End ServiceFacts.

(** ** The tree builder *)
Module TreeFacts.
Import Pages Trees.

Section Filed.

Context {R : Set}.
Variable columns : R -> node.

Lemma lineage_app (store new : tree_store R) (parent : option nat) :
  is_Some (lineage columns store parent) ->
  lineage columns (store ++ new) parent = lineage columns store parent.
Proof.
  unfold lineage. destruct parent as [p|]; simpl; [|now intros [? ?]].
  destruct (store !! p) as [[grand x]|] eqn:E1; simpl; [|now intros [? ?]].
  rewrite (lookup_app_l_Some _ _ _ _ E1). simpl.
  destruct grand as [g|]; simpl; [|now intros [? ?]].
  destruct (store !! g) as [[? y]|] eqn:E2; simpl; [|now intros [? ?]].
  now rewrite (lookup_app_l_Some _ _ _ _ E2).
Qed.

Lemma filed_in_app (store new l : tree_store R) :
  Forall (fun e => is_Some (fst e)) (filed_in columns store l) ->
  filed_in columns (store ++ new) l = filed_in columns store l.
Proof.
  unfold filed_in. induction l as [|[parent x] l IH]; simpl; [reflexivity|].
  destruct (n_depth (columns x) =? 0); simpl; intros H.
  - inversion H as [|? ? H1 H2]; subst. simpl in H1.
    now rewrite lineage_app, IH.
  - now apply IH.
Qed.

Lemma filed_app (store new : tree_store R) :
  Forall (fun e => is_Some (fst e)) (filed columns store) ->
  filed columns (store ++ new)
  = filed columns store ++ filed_in columns (store ++ new) new.
Proof.
  intros H. unfold filed at 1. unfold filed_in at 1. rewrite flat_map_app.
  fold (filed_in columns (store ++ new) store).
  fold (filed_in columns (store ++ new) new).
  now rewrite filed_in_app.
Qed.

End Filed.

Lemma by_artist_filed (transform : string -> string) (ds : list row) :
  Forall (fun e => is_Some (fst e)) (by_artist transform ds).
Proof. unfold by_artist. induction ds; simpl; constructor; simpl; eauto. Qed.

Lemma by_album_filed (transform : string -> string) (ds : list row) :
  Forall (fun e => is_Some (fst e)) (by_album transform ds).
Proof. unfold by_album. induction ds; simpl; constructor; simpl; eauto. Qed.

(** The first loop at depth 2, on a page whose attributes are set. *)
Lemma artist_loop_at_2 (fuel : nat) (transform : string -> string) (r : row)
    (store : tree_store node) (al bl : string) (i1 i2 : nat) :
  (3 <= fuel)%nat ->
  artist_loop fuel transform r 2 (ArtistSide store (Some al) (Some bl) (Some i1) (Some i2)) =
  Some (inr (2,
    let n := length store in
    if String.eqb al (PyStr.lower (r_artist r)) then
      if String.eqb bl (PyStr.lower (r_album r)) then
        ArtistSide (store ++ [(Some i2, track transform r)])
          (Some al) (Some bl) (Some i1) (Some i2)
      else
        ArtistSide (store ++ [(Some i1, second_row (r_album r));
                              (Some n, track transform r)])
          (Some al) (Some (PyStr.lower (r_album r))) (Some i1) (Some n)
    else
      ArtistSide (store ++ [(None, top_row (r_artist r));
                            (Some n, second_row (r_album r));
                            (Some (S n), track transform r)])
        (Some (PyStr.lower (r_artist r))) (Some (PyStr.lower (r_album r)))
        (Some n) (Some (S n)))).
Proof.
  intros Hf. destruct fuel as [|[|[|fuel]]]; try lia.
  destruct (String.eqb al (PyStr.lower (r_artist r))) eqn:E1;
    [destruct (String.eqb bl (PyStr.lower (r_album r))) eqn:E2|].
  - cbn [artist_loop]. unfold artist_pass. simpl. rewrite E1. simpl. rewrite E2.
    reflexivity.
  - cbn [artist_loop]. unfold artist_pass. simpl. rewrite E1. simpl. rewrite E2.
    simpl. rewrite E1. simpl. rewrite E1, !String.eqb_refl. simpl.
    rewrite <- app_assoc. reflexivity.
  - cbn [artist_loop]. unfold artist_pass. simpl. rewrite E1. simpl. rewrite E1.
    simpl. rewrite !String.eqb_refl. simpl. rewrite !String.eqb_refl. simpl.
    rewrite !length_app, <- !app_assoc. simpl.
    replace (length store + 1)%nat with (S (length store)) by lia. reflexivity.
Qed.

(** X6: what the first [while 1] loop of [TreePage._update_2] does with a
    row when it is at depth 2, an artist and an album being open. The
    loop ends, and leaves the depth at 2. When the row has the artist
    and the album that are open (in lower case), one track is appended
    below the open album. When it has the artist only, a new album is
    appended below the open artist, and the track below it. Otherwise a
    new artist is appended at the top, a new album below it, and the
    track below that. *)
Theorem artist_loop_groups (fuel : nat) (transform : string -> string) (r : row)
    (a : artist_side) (al bl : string) (i1 i2 : nat) :
  (3 <= fuel)%nat ->
  artlower a = Some al -> alblower a = Some bl ->
  r_iter1 a = Some i1 -> r_iter2 a = Some i2 ->
  artist_loop fuel transform r 2 a =
  Some (inr (2,
    let n := length (artist_store a) in
    if String.eqb al (PyStr.lower (r_artist r)) then
      if String.eqb bl (PyStr.lower (r_album r)) then
        ArtistSide (artist_store a ++ [(Some i2, track transform r)])
          (Some al) (Some bl) (Some i1) (Some i2)
      else
        ArtistSide (artist_store a ++ [(Some i1, second_row (r_album r));
                                       (Some n, track transform r)])
          (Some al) (Some (PyStr.lower (r_album r))) (Some i1) (Some n)
    else
      ArtistSide (artist_store a ++ [(None, top_row (r_artist r));
                                     (Some n, second_row (r_album r));
                                     (Some (S n), track transform r)])
        (Some (PyStr.lower (r_artist r))) (Some (PyStr.lower (r_album r)))
        (Some n) (Some (S n)))).
Proof.
  intros Hf Ha Hb H1 H2. destruct a as [store ? ? ? ?]. simpl in *. subst.
  now apply artist_loop_at_2.
Qed.

Lemma artist_loop_groups_witness :
  let a := ArtistSide [(None, top_row "Abba"); (Some 0%nat, second_row "Arrival")]
             (Some "abba") (Some "arrival") (Some 0%nat) (Some 1%nat) in
  let r := Row "ABBA" "Waterloo" 1 "Waterloo" 165 128 "waterloo.mp3" "/music" 1 in
  artist_loop 3 (fun s => s) r 2 a =
  Some (inr (2,
    ArtistSide [(None, top_row "Abba"); (Some 0%nat, second_row "Arrival");
                (Some 0%nat, second_row "Waterloo");
                (Some 2%nat, track (fun s => s) r)]
      (Some "abba") (Some "waterloo") (Some 0%nat) (Some 2%nat))).
Proof.
  intros a r.
  apply (artist_loop_groups 3 (fun s => s) r a "abba" "arrival" 0 1);
    [lia | reflexivity..].
Defined.

(** The first loop at depth 0: the row opens an artist and an album. *)
Lemma artist_loop_opens (fuel : nat) (transform : string -> string) (r : row)
    (a : artist_side) :
  (1 <= fuel)%nat ->
  artist_loop fuel transform r 0 a =
  Some (inr (2,
    let n := length (artist_store a) in
    ArtistSide (artist_store a ++ [(None, top_row (r_artist r));
                                   (Some n, second_row (r_album r));
                                   (Some (S n), track transform r)])
      (Some (PyStr.lower (r_artist r))) (Some (PyStr.lower (r_album r)))
      (Some n) (Some (S n)))).
Proof.
  intros Hf. destruct fuel as [|fuel]; [lia|].
  destruct a as [store ? ? ? ?].
  cbn [artist_loop]. unfold artist_pass. simpl. rewrite !String.eqb_refl. simpl.
  rewrite !String.eqb_refl. simpl.
  rewrite !length_app, <- !app_assoc. simpl.
  replace (length store + 1)%nat with (S (length store)) by lia. reflexivity.
Qed.

(** The second loop at depth 1, on a page whose attributes are set. *)
Lemma album_loop_at_1 (fuel : nat) (transform : string -> string) (r : row)
    (store : tree_store (node * string)) (key : string * string) (i : nat) :
  (2 <= fuel)%nat ->
  album_loop fuel transform r 1 (AlbumSide store (Some key) (Some i)) =
  Some (inr (1,
    let n := length store in
    if (String.eqb (fst key) (PyStr.lower (r_album r)) &&
        String.eqb (snd key) (PyStr.lower (r_artist r)))%bool then
      AlbumSide (store ++ [(Some i, (track transform r, ""))]) (Some key) (Some i)
    else
      AlbumSide (store ++ [(None, (top_row (r_album r), r_artist r));
                           (Some n, (second_row (r_artist r), ""));
                           (Some (S n), (track transform r, ""))])
        (Some (PyStr.lower (r_album r), PyStr.lower (r_artist r))) (Some (S n)))).
Proof.
  intros Hf. destruct fuel as [|[|fuel]]; try lia.
  destruct (_ && _)%bool eqn:E.
  - cbn [album_loop]. unfold album_pass. simpl. rewrite E. reflexivity.
  - cbn [album_loop]. unfold album_pass. simpl. rewrite E. simpl.
    rewrite !String.eqb_refl. simpl.
    rewrite !length_app, <- !app_assoc. simpl.
    replace (length store + 1)%nat with (S (length store)) by lia. reflexivity.
Qed.

(** X7: what the second [while 1] loop does with a row when it is at
    depth 1, an album and its artist being open. The loop ends, and
    leaves the depth at 1. When the row has the album and the artist
    that are open (in lower case), one track is appended below the open
    artist. Otherwise a new album is appended at the top, with the
    artist in its ninth column, the artist below it, and the track
    below that. *)
Theorem album_loop_groups (fuel : nat) (transform : string -> string) (r : row)
    (a : album_side) (key : string * string) (i : nat) :
  (2 <= fuel)%nat ->
  albartlower a = Some key -> l_iter a = Some i ->
  album_loop fuel transform r 1 a =
  Some (inr (1,
    let n := length (album_store a) in
    if (String.eqb (fst key) (PyStr.lower (r_album r)) &&
        String.eqb (snd key) (PyStr.lower (r_artist r)))%bool then
      AlbumSide (album_store a ++ [(Some i, (track transform r, ""))])
        (Some key) (Some i)
    else
      AlbumSide (album_store a ++ [(None, (top_row (r_album r), r_artist r));
                                   (Some n, (second_row (r_artist r), ""));
                                   (Some (S n), (track transform r, ""))])
        (Some (PyStr.lower (r_album r), PyStr.lower (r_artist r))) (Some (S n)))).
Proof.
  intros Hf Hk Hi. destruct a as [store ? ?]. simpl in *. subst.
  now apply album_loop_at_1.
Qed.

Lemma album_loop_groups_witness :
  let a := AlbumSide [(None, (top_row "Arrival", "Abba"));
                      (Some 0%nat, (second_row "Abba", ""))]
             (Some ("arrival", "abba")) (Some 1%nat) in
  let r := Row "ABBA" "Arrival" 2 "Tiger" 175 128 "tiger.mp3" "/music" 1 in
  album_loop 2 (fun s => s) r 1 a =
  Some (inr (1,
    AlbumSide [(None, (top_row "Arrival", "Abba"));
               (Some 0%nat, (second_row "Abba", ""));
               (Some 1%nat, (track (fun s => s) r, ""))]
      (Some ("arrival", "abba")) (Some 1%nat))).
Proof.
  intros a r.
  apply (album_loop_groups 2 (fun s => s) r a ("arrival", "abba") 1);
    [lia | reflexivity..].
Defined.

Lemma album_loop_opens (fuel : nat) (transform : string -> string) (r : row)
    (a : album_side) :
  (1 <= fuel)%nat ->
  album_loop fuel transform r 0 a =
  Some (inr (1,
    let n := length (album_store a) in
    AlbumSide (album_store a ++ [(None, (top_row (r_album r), r_artist r));
                                 (Some n, (second_row (r_artist r), ""));
                                 (Some (S n), (track transform r, ""))])
      (Some (PyStr.lower (r_album r), PyStr.lower (r_artist r))) (Some (S n)))).
Proof.
  intros Hf. destruct fuel as [|fuel]; [lia|].
  destruct a as [store ? ?].
  cbn [album_loop]. unfold album_pass. simpl. rewrite !String.eqb_refl. simpl.
  rewrite !length_app, <- !app_assoc. simpl.
  replace (length store + 1)%nat with (S (length store)) by lia. reflexivity.
Qed.

(** The rows appended last are found at the end of the store. *)
Lemma lookup_appended {A} (l new : list A) (k : nat) :
  (l ++ new) !! (length l + k)%nat = new !! k.
Proof.
  rewrite lookup_app_r by lia. f_equal. lia.
Qed.

Lemma lookup_appended_0 {A} (l new : list A) :
  (l ++ new) !! length l = new !! 0%nat.
Proof. rewrite <- (Nat.add_0_r (length l)) at 1. apply lookup_appended. Qed.

Lemma lookup_appended_1 {A} (l new : list A) :
  (l ++ new) !! S (length l) = new !! 1%nat.
Proof. rewrite <- (Nat.add_1_r (length l)). apply lookup_appended. Qed.

(** A row, and the first loop: the loop ends, and the track of the row
    is filed under the artist and the album of the row. *)
Lemma artist_step (fuel : nat) (transform : string -> string) (r : row)
    (r_dep : Z) (a : artist_side) (ds : list row) :
  (3 <= fuel)%nat ->
  artist_ready r_dep a ->
  filed (fun x => x) (artist_store a) = by_artist transform ds ->
  exists a',
    artist_loop fuel transform r r_dep a = Some (inr (2, a')) /\
    artist_ready 2 a' /\
    filed (fun x => x) (artist_store a') = by_artist transform (ds ++ [r]).
Proof.
  intros Hf Hr Hd. unfold tree_store in *.
  assert (Hs : Forall (fun e => is_Some (fst e)) (filed (fun x => x) (artist_store a)))
    by (rewrite Hd; apply by_artist_filed).
  assert (Hopen :
    let n := length (artist_store a) in
    let a' := ArtistSide (artist_store a ++ [(None, top_row (r_artist r));
                                            (Some n, second_row (r_album r));
                                            (Some (S n), track transform r)])
                (Some (PyStr.lower (r_artist r))) (Some (PyStr.lower (r_album r)))
                (Some n) (Some (S n)) in
    artist_ready 2 a' /\
    filed (fun x => x) (artist_store a') = by_artist transform (ds ++ [r])).
  { cbv zeta. split.
    - right. split; [reflexivity|].
      exists (length (artist_store a)), (S (length (artist_store a))),
        (top_row (r_artist r)), (second_row (r_album r)).
      simpl. unfold tree_store. rewrite lookup_appended_0, lookup_appended_1. now repeat split.
    - simpl. rewrite filed_app by exact Hs. rewrite Hd.
      unfold by_artist. rewrite map_app. f_equal.
      unfold filed_in, lineage. simpl. unfold tree_store.
      rewrite lookup_appended_1. simpl. rewrite lookup_appended_0. reflexivity. }
  destruct Hr as [-> | [-> (i1 & i2 & x & y & H1 & H2 & L1 & L2 & Ha & Hb)]].
  - eexists. split; [apply artist_loop_opens; lia|]. exact Hopen.
  - replace (artist_loop fuel transform r 2 a)
      with (artist_loop fuel transform r 2
              (ArtistSide (artist_store a) (artlower a) (alblower a)
                 (r_iter1 a) (r_iter2 a))) by (now destruct a).
    rewrite Ha, Hb, H1, H2.
    rewrite (artist_loop_at_2 fuel transform r _ _ _ i1 i2 Hf).
    eexists. split; [reflexivity|]. cbv zeta.
    destruct (String.eqb (PyStr.lower (n_text x)) (PyStr.lower (r_artist r))) eqn:E1;
      [destruct (String.eqb (PyStr.lower (n_text y)) (PyStr.lower (r_album r))) eqn:E2|].
    + apply String.eqb_eq in E1, E2. split.
      * right. split; [reflexivity|]. exists i1, i2, x, y. simpl. unfold tree_store.
        rewrite (lookup_app_l_Some _ _ _ _ L1), (lookup_app_l_Some _ _ _ _ L2).
        now repeat split.
      * simpl. rewrite filed_app by exact Hs. rewrite Hd.
        unfold by_artist. rewrite map_app. f_equal.
        unfold filed_in, lineage. simpl. unfold tree_store.
        rewrite (lookup_app_l_Some _ _ _ _ L2). simpl. unfold tree_store.
        rewrite (lookup_app_l_Some _ _ _ _ L1). simpl.
        now rewrite E1, E2.
    + apply String.eqb_eq in E1. split.
      * right. split; [reflexivity|].
        exists i1, (length (artist_store a)), x, (second_row (r_album r)). simpl. unfold tree_store.
        rewrite (lookup_app_l_Some _ _ _ _ L1), lookup_appended_0.
        now repeat split.
      * simpl. rewrite filed_app by exact Hs. rewrite Hd.
        unfold by_artist. rewrite map_app. f_equal.
        unfold filed_in, lineage. simpl. unfold tree_store.
        rewrite lookup_appended_0. simpl. unfold tree_store.
        rewrite (lookup_app_l_Some _ _ _ _ L1). simpl.
        now rewrite E1.
    + exact Hopen.
Qed.

(** A row, and the second loop. *)
Lemma album_step (fuel : nat) (transform : string -> string) (r : row)
    (l_dep : Z) (a : album_side) (ds : list row) :
  (2 <= fuel)%nat ->
  album_ready l_dep a ->
  filed fst (album_store a) = by_album transform ds ->
  exists a',
    album_loop fuel transform r l_dep a = Some (inr (1, a')) /\
    album_ready 1 a' /\
    filed fst (album_store a') = by_album transform (ds ++ [r]).
Proof.
  intros Hf Hr Hd. unfold tree_store in *.
  assert (Hs : Forall (fun e => is_Some (fst e)) (filed fst (album_store a)))
    by (rewrite Hd; apply by_album_filed).
  assert (Hopen :
    let n := length (album_store a) in
    let a' := AlbumSide (album_store a ++ [(None, (top_row (r_album r), r_artist r));
                                          (Some n, (second_row (r_artist r), ""));
                                          (Some (S n), (track transform r, ""))])
                (Some (PyStr.lower (r_album r), PyStr.lower (r_artist r)))
                (Some (S n)) in
    album_ready 1 a' /\
    filed fst (album_store a') = by_album transform (ds ++ [r])).
  { cbv zeta. split.
    - right. split; [reflexivity|].
      exists (S (length (album_store a))), (length (album_store a)),
        (top_row (r_album r), r_artist r), (second_row (r_artist r), "").
      simpl. unfold tree_store. rewrite lookup_appended_0, lookup_appended_1. now repeat split.
    - simpl. rewrite filed_app by exact Hs. rewrite Hd.
      unfold by_album. rewrite map_app. f_equal.
      unfold filed_in, lineage. simpl. unfold tree_store.
      rewrite lookup_appended_1. simpl. rewrite lookup_appended_0. reflexivity. }
  destruct Hr as [-> | [-> (i & g & x & y & Hi & L1 & L2 & Hk)]].
  - eexists. split; [apply album_loop_opens; lia|]. exact Hopen.
  - replace (album_loop fuel transform r 1 a)
      with (album_loop fuel transform r 1
              (AlbumSide (album_store a) (albartlower a) (l_iter a)))
      by (now destruct a).
    rewrite Hk, Hi.
    rewrite (album_loop_at_1 fuel transform r _ _ i Hf).
    eexists. split; [reflexivity|]. cbv zeta. cbn [fst snd].
    destruct (_ && _)%bool eqn:E.
    + apply andb_true_iff in E. destruct E as [E1 E2].
      apply String.eqb_eq in E1, E2. split.
      * right. split; [reflexivity|]. exists i, g, x, y. simpl. unfold tree_store.
        rewrite (lookup_app_l_Some _ _ _ _ L1), (lookup_app_l_Some _ _ _ _ L2).
        now repeat split.
      * simpl. rewrite filed_app by exact Hs. rewrite Hd.
        unfold by_album. rewrite map_app. f_equal.
        unfold filed_in, lineage. simpl. unfold tree_store.
        rewrite (lookup_app_l_Some _ _ _ _ L2). simpl. unfold tree_store.
        rewrite (lookup_app_l_Some _ _ _ _ L1). simpl.
        now rewrite E1, E2.
    + exact Hopen.
Qed.

Lemma split_file_raises (r : row) (e : py_exn) :
  split_file r = inl e -> e = ValueError.
Proof.
  unfold split_file, PyStr.unpack2, PyStr.rsplit1.
  destruct (PyStr.rcut "/" (r_filename r)) as [[? ?]|]; simpl; congruence.
Qed.

Section Slices.

Variable get_iter_root : tree_store (node * string) -> option nat.

(** [for each in xrange (do_max)] over as many rows: every row that is
    not skipped is filed in both stores, and nothing else of the page
    is touched. *)
Lemma tree_loop_files (fuel : nat) (rest : cursor) (ampache : bool) (rs : list row) :
  forall (r_dep l_dep : Z) (p : tree_page) (ds : list row),
  (3 <= fuel)%nat ->
  String.eqb (db_type (t_common p)) AMPACHE = ampache ->
  files r_dep l_dep p ds ->
  exists r_dep' l_dep' art alb,
    tree_loop get_iter_root (length rs) fuel true r_dep l_dep p (map inr rs ++ rest)
    = Some (TreeDone r_dep' l_dep',
            TreePage (t_common p) art alb (sort_column_id p) (loading_label p)
              (progress p) (_pulse_id p),
            rest) /\
    files r_dep' l_dep'
      (TreePage (t_common p) art alb (sort_column_id p) (loading_label p)
         (progress p) (_pulse_id p))
      (ds ++ omap (prepared ampache) rs).
Proof.
  induction rs as [|r rs IH]; intros r_dep l_dep p ds Hf Ha Hp.
  - exists r_dep, l_dep, (artist p), (album p). simpl. rewrite app_nil_r.
    destruct p; simpl. now split.
  - cbn [length tree_loop negb map app fetchone]. rewrite Ha.
    change (omap (prepared ampache) (r :: rs))
      with (match prepared ampache r with
            | Some y => y :: omap (prepared ampache) rs
            | None => omap (prepared ampache) rs
            end).
    assert (Hrow : forall r',
      prepared ampache r = Some r' ->
      exists r_dep' l_dep' art alb,
        match artist_loop fuel (transform (t_common p)) r' r_dep (artist p) with
        | None => None
        | Some (inl e) => Some (TreeEnds (Raises e), p, map inr rs ++ rest)
        | Some (inr (r_dep, art)) =>
            let p := TreePage (t_common p) art (album p) (sort_column_id p)
                       (loading_label p) (progress p) (_pulse_id p) in
            match album_loop fuel (transform (t_common p)) r' l_dep (album p) with
            | None => None
            | Some (inl e) => Some (TreeEnds (Raises e), p, map inr rs ++ rest)
            | Some (inr (l_dep, alb)) =>
                tree_loop get_iter_root (length rs) fuel true r_dep l_dep
                  (TreePage (t_common p) (artist p) alb (sort_column_id p)
                     (loading_label p) (progress p) (_pulse_id p))
                  (map inr rs ++ rest)
            end
        end
        = Some (TreeDone r_dep' l_dep',
                TreePage (t_common p) art alb (sort_column_id p) (loading_label p)
                  (progress p) (_pulse_id p),
                rest) /\
        files r_dep' l_dep'
          (TreePage (t_common p) art alb (sort_column_id p) (loading_label p)
             (progress p) (_pulse_id p))
          (ds ++ r' :: omap (prepared ampache) rs)).
    { intros r' _. destruct Hp as (Hr & Hl & Har & Hal).
      destruct (artist_step fuel _ r' _ _ _ Hf Hr Har) as (a' & E1 & Hr' & Har').
      rewrite E1. cbv zeta. cbn [album t_common transform].
      destruct (album_step fuel _ r' _ _ _ ltac:(lia) Hl Hal) as (b' & E2 & Hl' & Hal').
      rewrite E2. cbn [artist t_common sort_column_id loading_label progress _pulse_id].
      destruct (IH 2 1 (TreePage (t_common p) a' b' (sort_column_id p)
                          (loading_label p) (progress p) (_pulse_id p))
                  (ds ++ [r']) Hf Ha) as (r2 & l2 & art & alb & E & H).
      { now repeat split. }
      exists r2, l2, art, alb. split; [exact E|].
      now rewrite <- app_assoc in H. }
    unfold prepared at 1. unfold prepared at 1 in Hrow. destruct ampache.
    + destruct (split_file r) as [e|r'] eqn:Es.
      * rewrite (split_file_raises r e Es). now apply IH.
      * now apply Hrow.
    + now apply Hrow.
Qed.

(** The loop finds the cursor exhausted. *)
Lemma tree_loop_exhausted (n fuel : nat) (r_dep l_dep : Z) (p : tree_page) :
  tree_loop get_iter_root (S n) fuel true r_dep l_dep p []
  = Some (TreeEnds (Returns false), start_merge get_iter_root p, []).
Proof. reflexivity. Qed.

Lemma tree_loop_app (fuel : nat) (rs : list row) (m : nat) :
  forall (r_dep l_dep : Z) (p : tree_page) (cur : cursor) x,
  tree_loop get_iter_root (length rs) fuel true r_dep l_dep p (map inr rs ++ cur)
  = Some x ->
  tree_loop get_iter_root (length rs + m) fuel true r_dep l_dep p (map inr rs ++ cur)
  = match x with
    | (TreeDone r_dep' l_dep', p', cur') =>
        tree_loop get_iter_root m fuel true r_dep' l_dep' p' cur'
    | _ => Some x
    end.
Proof.
  induction rs as [|r rs IH]; intros r_dep l_dep p cur x.
  - simpl. intros [= <-]. reflexivity.
  - cbn [length Nat.add tree_loop negb map app fetchone].
    destruct (if String.eqb (db_type (t_common p)) AMPACHE then split_file r else inr r)
      as [e|r'].
    + destruct e; try (intros [= <-]; reflexivity). apply IH.
    + destruct (artist_loop _ _ _ _ _) as [[e|[d a']]|]; try discriminate;
        [intros [= <-]; reflexivity|].
      destruct (album_loop _ _ _ _ _) as [[e|[d' b']]|]; try discriminate;
        [intros [= <-]; reflexivity|].
      apply IH.
Qed.


(** X8: a slice of [TreePage._update_2] that finds a row for each
    round of [for each in xrange (do_max)]. The page is between two
    rows, the rows [ds] being filed, and the total of the rows is not
    0. The call raises nothing and returns [True]; each row of the slice, except those of an Ampache
    database whose [file] has no ["/"], has added one track to each
    store, in the order of the rows and after the tracks that were
    there, filed under the artist and the album of the row in lower
    case; the namespace holds the new depths and the new count for the
    next slice. *)
Theorem tree_slice_files_rows (fuel : nat) (total done : Z) (ns : nat)
    (p : tree_page) (r_dep l_dep : Z) (ds rs : list row) (rest : cursor) :
  (3 <= fuel)%nat ->
  heap (t_common p) !! ns = Some (Namespace false (TDepths r_dep l_dep done)) ->
  files r_dep l_dep p ds ->
  total <> 0 ->
  exists r_dep' l_dep' p',
    tree_update_2 get_iter_root fuel true total (Z.of_nat (length rs)) ns p
      (map inr rs ++ rest)
    = Some (Returns true, p', rest) /\
    heap (t_common p') !! ns
    = Some (Namespace false (TDepths r_dep' l_dep' (done + Z.of_nat (length rs)))) /\
    files r_dep' l_dep' p'
      (ds ++ omap (prepared (String.eqb (db_type (t_common p)) AMPACHE)) rs) /\
    progress p' = Ratio (done + Z.of_nat (length rs)) total.
Proof.
  intros Hf Hn Hp Ht. unfold tree_update_2. rewrite Hn, Nat2Z.id.
  destruct (tree_loop_files fuel rest _ rs r_dep l_dep p ds Hf eq_refl Hp)
    as (r' & l' & art & alb & E & H).
  rewrite E. apply Z.eqb_neq in Ht. rewrite Ht.
  exists r', l'. eexists. split; [reflexivity|]. cbn [t_common progress].
  split; [|split; [exact H | reflexivity]].
  now rewrite (PagesFacts.heap_set_data ns _ _ _ Hn).
Qed.

(** X9: the slice of [TreePage._update_2] that finds the cursor
    exhausted before [do_max] rows are fetched. The rows that were left
    are filed like those of any slice. Then the call returns [False],
    having sorted the album store by its first column, shown "Merging
    Albums" and a full progress bar, and scheduled [_update_3] with a
    namespace of its own, which is not killed and holds the first row of
    the album store. *)
Theorem tree_last_slice_starts_merge (fuel : nat) (total do_max done : Z) (ns : nat)
    (p : tree_page) (r_dep l_dep : Z) (ds rs : list row) :
  (3 <= fuel)%nat ->
  heap (t_common p) !! ns = Some (Namespace false (TDepths r_dep l_dep done)) ->
  files r_dep l_dep p ds ->
  Z.of_nat (length rs) < do_max ->
  exists r_dep' l_dep' p',
    tree_update_2 get_iter_root fuel true total do_max ns p (map inr rs)
    = Some (Returns false, p', []) /\
    files r_dep' l_dep' p'
      (ds ++ omap (prepared (String.eqb (db_type (t_common p)) AMPACHE)) rs) /\
    loading_label p' = "Merging Albums" /\
    sort_column_id p' = Some 0 /\
    progress p' = Ratio 1 1 /\
    exists context ns',
      In (context, TreeUpdate3 ns') (sources (t_common p')) /\
      In (context, ns') (_update_id (t_common p')) /\
      heap (t_common p') !! ns'
      = Some (Namespace false (TIter (get_iter_root (album_store (album p'))))).
Proof.
  intros Hf Hn Hp Hd. unfold tree_update_2. rewrite Hn.
  destruct (tree_loop_files fuel [] _ rs r_dep l_dep p ds Hf eq_refl Hp)
    as (r' & l' & art & alb & E & H).
  replace (Z.to_nat do_max) with (length rs + S (Z.to_nat do_max - S (length rs)))%nat
    by lia.
  pose proof (tree_loop_app fuel rs (S (Z.to_nat do_max - S (length rs)))
                r_dep l_dep p [] _ E) as A.
  rewrite app_nil_r in A. rewrite A. rewrite tree_loop_exhausted.
  exists r', l'. eexists. split; [reflexivity|].
  unfold start_merge, allocate, idle_add. cbn.
  split; [exact H|]. do 3 (split; [reflexivity|]).
  exists (next_context (t_common p)), (length (heap (t_common p))).
  split; [apply in_app_iff; right; now left|].
  split; [apply in_app_iff; right; now left|].
  now rewrite lookup_appended_0.
Qed.

End Slices.



Lemma tree_slice_files_rows_witness :
  let c := Common [Namespace false (TDepths 0 0 0)] [(0%nat, TreeUpdate2 3 2 0)] 1%nat
             [(0%nat, 0%nat)] None AMPACHE (fun s => s) in
  let p := TreePage c (ArtistSide [] None None None None) (AlbumSide [] None None)
             None "Populating" (Ratio 0 1) [] in
  let rs := [Builders.song "Abba" "Arrival" "Tiger" "abba/arrival/tiger.mp3";
             Builders.song "Abba" "Arrival" "Cover" "cover.jpg"] in
  let rest := [inr (Builders.song "ABBA" "Waterloo" "Waterloo" "abba/waterloo.mp3")] in
  exists r_dep' l_dep' p',
    tree_update_2 (fun _ => None) 3 true 3 2 0 p (map inr rs ++ rest)
    = Some (Returns true, p', rest) /\
    heap (t_common p') !! 0%nat = Some (Namespace false (TDepths r_dep' l_dep' (0 + 2))) /\
    files r_dep' l_dep' p'
      ([] ++ [Row "Abba" "Arrival" 1 "Tiger" 180 128 "tiger.mp3" "abba/arrival" 1]) /\
    progress p' = Ratio (0 + 2) 3.
Proof.
  intros c p rs rest.
  apply (tree_slice_files_rows (fun _ => None) 3 3 0 0 p 0 0 [] rs rest).
  - lia.
  - reflexivity.
  - split; [now left|]. split; [now left|]. split; reflexivity.
  - discriminate.
Defined.

Lemma tree_last_slice_starts_merge_witness :
  let c := Common [Namespace false (TDepths 0 0 0)] [(0%nat, TreeUpdate2 1 30 0)] 1%nat
             [(0%nat, 0%nat)] None PROKYON_3 (fun s => s) in
  let p := TreePage c (ArtistSide [] None None None None) (AlbumSide [] None None)
             None "Populating" (Ratio 0 1) [] in
  let r := Row "Abba" "Arrival" 1 "Tiger" 180 128 "tiger.mp3" "/music/abba" 0 in
  exists r_dep' l_dep' p',
    tree_update_2 (fun _ => Some 0%nat) 3 true 1 30 0 p [inr r]
    = Some (Returns false, p', []) /\
    files r_dep' l_dep' p' ([] ++ [r]) /\
    loading_label p' = "Merging Albums" /\
    sort_column_id p' = Some 0 /\
    progress p' = Ratio 1 1 /\
    exists context ns',
      In (context, TreeUpdate3 ns') (sources (t_common p')) /\
      In (context, ns') (_update_id (t_common p')) /\
      heap (t_common p') !! ns' = Some (Namespace false (TIter (Some 0%nat))).
Proof.
  intros c p r.
  apply (tree_last_slice_starts_merge (fun _ => Some 0%nat) 3 1 30 0 0 p 0 0 [] [r]).
  - lia.
  - reflexivity.
  - split; [now left|]. split; [now left|]. split; reflexivity.
  - simpl. lia.
Defined.

End TreeFacts.

(** ** Pending updates, and the builders in trouble *)
Module BuilderFacts.
Import Pages Builders Trees.

Section Cancel.

Context {P : Set}.

Lemma cancel_fields (pending : list (nat * nat)) (c : common P) :
  _update_id (cancel pending c) = [] /\
  next_context (cancel pending c) = next_context c /\
  length (heap (cancel pending c)) = length (heap c) /\
  view_model (cancel pending c) = view_model c /\
  db_type (cancel pending c) = db_type c /\
  transform (cancel pending c) = transform c.
Proof.
  revert c. induction pending as [|[context ns] rest IH]; intros c; simpl.
  - now repeat split.
  - destruct (IH (set_kill ns (source_remove context (set_update_id rest c))))
      as (H1 & H2 & H3 & H4 & H5 & H6).
    rewrite H1, H2, H3, H4, H5, H6. simpl. rewrite length_alter. now repeat split.
Qed.

Lemma cancel_sources (pending : list (nat * nat)) (c : common P) (cf : nat * source) :
  In cf (sources (cancel pending c)) <->
  In cf (sources c) /\ ~ In (fst cf) (map fst pending).
Proof.
  revert c. induction pending as [|[context ns] rest IH]; intros c; simpl.
  - tauto.
  - rewrite IH. simpl. rewrite <- !list_elem_of_In, list_elem_of_filter.
    rewrite negb_True, Is_true_true, Nat.eqb_eq. intuition congruence.
Qed.

Lemma cancel_others (pending : list (nat * nat)) (c : common P) (i : nat) :
  ~ In i (map snd pending) ->
  heap (cancel pending c) !! i = heap c !! i.
Proof.
  revert c. induction pending as [|[context ns] rest IH]; intros c H; simpl.
  - reflexivity.
  - simpl in H. rewrite IH by tauto. rewrite PagesFacts.heap_set_kill.
    destruct (decide (ns = i)); [tauto | reflexivity].
Qed.

(** X11: the loop [while self._update_id: ...] of [deactivate],
    [_handler] and [_cb_update]. When it ends no update is pending;
    every update that was pending is withdrawn from glib, and its
    namespace has its flag set and its payload kept; the other sources
    of the page stay registered, none is added, and the other
    namespaces are as they were. *)
Theorem cancel_updates_withdraws (c : common P) :
  _update_id (cancel_updates c) = [] /\
  (forall context ns f,
     In (context, ns) (_update_id c) -> ~ In (context, f) (sources (cancel_updates c))) /\
  (forall cf,
     In cf (sources (cancel_updates c)) <->
     In cf (sources c) /\ ~ In (fst cf) (map fst (_update_id c))) /\
  (forall context ns n,
     In (context, ns) (_update_id c) -> heap c !! ns = Some n ->
     heap (cancel_updates c) !! ns = Some (Namespace true (data n))) /\
  (forall i, ~ In i (map snd (_update_id c)) ->
     heap (cancel_updates c) !! i = heap c !! i).
Proof.
  unfold cancel_updates. split; [apply cancel_fields|].
  split; [|split; [apply cancel_sources|split; [|apply cancel_others]]].
  - intros context ns f Hin H. apply cancel_sources in H. destruct H as [_ H].
    apply H. simpl. apply in_map_iff. now exists (context, ns).
  - intros context ns n Hin Hn.
    destruct (PagesFacts.cancel_kills _ c context ns n Hin Hn) as ([k d] & H & Hk & Hd).
    simpl in Hk, Hd. now subst.
Qed.

(** X12: [PageCommon._handler], which the worker calls with the
    answer to a request. Afterwards exactly one update is pending: a
    call of [_update_1] with the number of rows, registered with glib
    under a new context and given a new namespace [[False, ()]]. What
    was pending before is cancelled: its namespaces have their flags
    set. *)
Theorem handler_leaves_one_update (empty : P) (rows : Z) (c : common P) :
  let c' := _handler empty rows c in
  let ns := length (heap c) in
  _update_id c' = [(next_context c, ns)] /\
  heap c' !! ns = Some (Namespace false empty) /\
  In (next_context c, Update1 rows ns) (sources c') /\
  next_context c' = S (next_context c) /\
  (forall context ns' n,
     In (context, ns') (_update_id c) -> heap c !! ns' = Some n ->
     heap c' !! ns' = Some (Namespace true (data n))).
Proof.
  destruct (cancel_fields (_update_id c) c) as (H1 & H2 & H3 & _).
  cbv zeta. unfold _handler, cancel_updates, allocate, idle_add. simpl.
  rewrite H1, H2, <- H3. split; [reflexivity|].
  split; [now rewrite TreeFacts.lookup_appended_0|].
  split; [apply in_app_iff; right; now left|]. split; [reflexivity|].
  intros context ns' n Hin Hn.
  destruct (PagesFacts.cancel_kills _ c context ns' n Hin Hn) as ([k d] & H & Hk & Hd).
  simpl in Hk, Hd. subst. now rewrite (lookup_app_l_Some _ _ _ _ H).
Qed.

End Cancel.

Lemma cancel_updates_withdraws_witness :
  let c := Common [Namespace false FEmpty; Namespace false (FFound 100)]
             [(0%nat, Update1 230 0); (3%nat, FlatUpdate2 1); (4%nat, ProgressPulse)]
             5%nat [(3%nat, 1%nat)] None AMPACHE (fun s => s) in
  heap (cancel_updates c) !! 1%nat = Some (Namespace true (FFound 100)) /\
  ~ In (3%nat, FlatUpdate2 1) (sources (cancel_updates c)) /\
  heap (cancel_updates c) !! 0%nat = Some (Namespace false FEmpty).
Proof.
  intros c.
  destruct (cancel_updates_withdraws c) as (_ & H2 & _ & H4 & H5).
  split; [|split].
  - apply (H4 3%nat 1%nat (Namespace false (FFound 100))); [now left | reflexivity].
  - apply (H2 3%nat 1%nat). now left.
  - rewrite H5; [reflexivity|]. simpl. lia.
Defined.

Lemma handler_leaves_one_update_witness :
  let c := Common [Namespace false FEmpty; Namespace false (FFound 100)]
             [(0%nat, Update1 230 0); (3%nat, FlatUpdate2 1)]
             5%nat [(3%nat, 1%nat)] None AMPACHE (fun s => s) in
  heap (_handler FEmpty 7 c) !! 1%nat = Some (Namespace true (FFound 100)).
Proof.
  intros c.
  apply (proj2 (proj2 (proj2 (proj2 (handler_leaves_one_update FEmpty 7 c))))
           3%nat 1%nat (Namespace false (FFound 100))); [now left | reflexivity].
Defined.

(** The loop of [FlatPage._update_2] over rows that can be stored, and
    then an exception of [fetchone]. *)
Lemma flat_loop_fetch_raises (n : nat) (e : py_exn) (rest : cursor) (rs : list row) :
  forall (found : Z) (p : flat_page),
  (length rs < n)%nat ->
  Forall (splits (is_ampache p)) rs ->
  flat_loop n true found p (map inr rs ++ inl e :: rest)
  = (FlatEnds (if is_sql_error e then Returns false else Raises e),
     FlatPage (f_common p)
       (list_store p ++ stored (is_ampache p) (transform (f_common p)) found rs)
       (found_title p),
     rest).
Proof.
  revert n. induction rs as [|r rs IH]; intros n found p Hl H.
  - destruct n as [|n]; [simpl in Hl; lia|]. simpl. rewrite app_nil_r.
    destruct (is_sql_error e); now destruct p.
  - destruct n as [|n]; [simpl in Hl; lia|].
    inversion H as [|? ? Hr Hrest]; subst.
    destruct (PagesFacts.flat_tuple_splits _ (transform (f_common p)) (found + 1) r Hr)
      as [t E].
    cbn [flat_loop map app negb fetchone stored]. fold (is_ampache p). rewrite E.
    rewrite (IH n (found + 1)); [|simpl in Hl; lia | exact Hrest].
    simpl. now rewrite <- app_assoc.
Qed.

(** X13: [fetchone] raises in a call of [FlatPage._update_2], after
    rows that could be stored. An error of the driver is caught: the
    call returns [False], so that it is not called again; the rows
    fetched before it stay in the list store, but the store is not made
    the model of the view, the title of the first column is not
    changed, and the namespace keeps the count of the call before. Any
    other exception leaves the function. *)
Theorem flat_update_2_fetch_raises (ns : nat) (found : Z) (p : flat_page)
    (rs : list row) (e : py_exn) (rest : cursor) :
  heap (f_common p) !! ns = Some (Namespace false (FFound found)) ->
  Forall (splits (is_ampache p)) rs ->
  (length rs < 100)%nat ->
  flat_update_2 true ns p (map inr rs ++ inl e :: rest)
  = (if is_sql_error e then Returns false else Raises e,
     FlatPage (f_common p)
       (list_store p ++ stored (is_ampache p) (transform (f_common p)) found rs)
       (found_title p),
     rest).
Proof.
  intros Hn Hs Hl. unfold flat_update_2. rewrite Hn.
  now rewrite (flat_loop_fetch_raises 100 e rest rs found p Hl Hs).
Qed.

Lemma flat_update_2_fetch_raises_witness :
  let c := Common [Namespace false (FFound 0)] [(0%nat, FlatUpdate2 0)] 1%nat
             [(0%nat, 0%nat)] None PROKYON_3 (fun s => s) in
  let p := FlatPage c [] "(3)" in
  let r := Row "Abba" "Arrival" 1 "Tiger" 180 128 "tiger.mp3" "/music/abba" 0 in
  flat_update_2 true 0 p [inr r; inl OperationalError; inr r]
  = (Returns false, FlatPage c [(1, r)] "(3)", [inr r]).
Proof.
  intros c p r.
  apply (flat_update_2_fetch_raises 0 0 p [r] OperationalError [inr r]).
  - reflexivity.
  - repeat constructor. discriminate.
  - simpl. lia.
Defined.

(** X14: the builders after [close]. With [keepalive] false a call of
    [_update_2] of either page returns [False] before it fetches a row:
    the page and the cursor are as they were, and no further call is
    scheduled. *)
Theorem builders_stop_when_closed
    (get_iter_root : tree_store (node * string) -> option nat)
    (fuel : nat) (total do_max : Z) (ns : nat) (fp : flat_page) (tp : tree_page)
    (cur : cursor) (k : bool) :
  (forall found,
     heap (f_common fp) !! ns = Some (Namespace k (FFound found)) ->
     flat_update_2 false ns fp cur = (Returns false, fp, cur)) /\
  (forall r_dep l_dep done,
     heap (t_common tp) !! ns = Some (Namespace k (TDepths r_dep l_dep done)) ->
     0 < do_max ->
     tree_update_2 get_iter_root fuel false total do_max ns tp cur
     = Some (Returns false, tp, cur)).
Proof.
  split.
  - intros found Hn. unfold flat_update_2. rewrite Hn. now destruct k.
  - intros r_dep l_dep done Hn Hd. unfold tree_update_2. rewrite Hn.
    destruct k; [reflexivity|].
    destruct (Z.to_nat do_max) as [|n] eqn:E; [lia | reflexivity].
Qed.

Lemma builders_stop_when_closed_witness :
  let c := fun (P : Set) (d : P) =>
             Common [Namespace false d] [] 1%nat [] None AMPACHE (fun s => s) in
  let fp := FlatPage (c _ (FFound 100)) [] "(0)" in
  let tp := TreePage (c _ (TDepths 2 1 60))
              (ArtistSide [] None None None None) (AlbumSide [] None None)
              None "Populating" (Ratio 60 90) [] in
  let cur := [inr (song "B" "Y" "t3" "b/y/t3.mp3")] in
  flat_update_2 false 0 fp cur = (Returns false, fp, cur) /\
  tree_update_2 (fun _ => None) 3 false 90 30 0 tp cur = Some (Returns false, tp, cur).
Proof.
  intros c fp tp cur. split.
  - apply (proj1 (builders_stop_when_closed (fun _ => None) 3 90 30 0%nat fp tp cur false) 100).
    reflexivity.
  - apply (proj2 (builders_stop_when_closed (fun _ => None) 3 90 30 0%nat fp tp cur false) 2 1 60).
    + reflexivity.
    + lia.
Defined.

End BuilderFacts.

(** ** The cells of the views *)
Module CellFacts.
Import Cells.

(** The three divisions in a row. *)
Lemma divmod_chain (v_in : Z) :
  let s := v_in mod 60 in
  let m := v_in / 60 mod 60 in
  let h := v_in / 60 / 60 mod 24 in
  let d := v_in / 60 / 60 / 24 in
  v_in = ((d * 24 + h) * 60 + m) * 60 + s /\
  0 <= h < 24 /\ 0 <= m < 60 /\ 0 <= s < 60 /\
  (d < 0 <-> v_in < 0) /\ (d = 0 <-> 0 <= v_in < 86400).
Proof.
  pose proof (Z.div_mod v_in 60 ltac:(lia)).
  pose proof (Z.mod_pos_bound v_in 60 ltac:(lia)).
  pose proof (Z.div_mod (v_in / 60) 60 ltac:(lia)).
  pose proof (Z.mod_pos_bound (v_in / 60) 60 ltac:(lia)).
  pose proof (Z.div_mod (v_in / 60 / 60) 24 ltac:(lia)).
  pose proof (Z.mod_pos_bound (v_in / 60 / 60) 24 ltac:(lia)).
  cbv zeta. repeat split; lia.
Qed.

(** X15: the days, hours, minutes and seconds that
    [_cell_secs_to_h_m_s] makes of a number of seconds add up to that
    number, and hours, minutes and seconds are within their ranges,
    also when the number is negative; only the days can be negative. *)
Theorem d_h_m_s_adds_up (v_in : Z) :
  let '(d, h, m, s) := d_h_m_s v_in in
  v_in = ((d * 24 + h) * 60 + m) * 60 + s /\
  0 <= h < 24 /\ 0 <= m < 60 /\ 0 <= s < 60 /\
  (d < 0 <-> v_in < 0) /\ (d = 0 <-> 0 <= v_in < 86400).
Proof. unfold d_h_m_s, divmod. exact (divmod_chain v_in). Qed.

Lemma zfill2_digits (n : Z) :
  0 <= n < 100 -> String.length (zfill2 n) = 2%nat.
Proof.
  intros H. rewrite <- (Z2Nat.id n) by lia.
  assert (Hk : (Z.to_nat n < 100)%nat) by lia.
  generalize dependent (Z.to_nat n). clear. intros k Hk.
  do 100 (destruct k as [|k]; [reflexivity|]). lia.
Qed.

(** X16: a duration of less than an hour is shown as minutes, a
    colon and two digits of seconds; one of less than a day as hours,
    two digits of minutes and two digits of seconds; the cell is
    aligned to the right. *)
Theorem short_durations (v_in : Z) :
  (0 <= v_in < 3600 ->
   _cell_secs_to_h_m_s v_in
   = [xalign 1; text (PyStr.of_Z (v_in / 60) ++ ":" ++ zfill2 (v_in mod 60))%string]) /\
  (3600 <= v_in < 86400 ->
   _cell_secs_to_h_m_s v_in
   = [xalign 1; text (PyStr.of_Z (v_in / 3600) ++ ":" ++ zfill2 (v_in / 60 mod 60)
                      ++ ":" ++ zfill2 (v_in mod 60))%string]) /\
  String.length (zfill2 (v_in mod 60)) = 2%nat /\
  String.length (zfill2 (v_in / 60 mod 60)) = 2%nat.
Proof.
  pose proof (divmod_chain v_in) as H. cbv zeta in H.
  unfold _cell_secs_to_h_m_s. unfold d_h_m_s, divmod in *.
  pose proof (Z.div_div v_in 60 60 ltac:(lia) ltac:(lia)) as Hdd.
  change (60 * 60) with 3600 in Hdd.
  destruct H as (Hv & Hh & Hm & Hs & Hneg & Hd).
  split; [|split; [|split; apply zfill2_digits; lia]].
  - intros Hr. destruct Hd as [_ Hd]. rewrite Hd by lia. simpl.
    assert (E : v_in / 60 / 60 mod 24 = 0) by lia. rewrite E. simpl.
    rewrite Z.mod_small; [reflexivity|].
    pose proof (Z.div_lt_upper_bound v_in 60 60 ltac:(lia) ltac:(lia)).
    pose proof (Z.div_pos v_in 60 ltac:(lia) ltac:(lia)). lia.
  - intros Hr. destruct Hd as [_ Hd]. rewrite Hd by lia. simpl.
    assert (E : v_in / 60 / 60 mod 24 = v_in / 3600).
    { rewrite Hdd. apply Z.mod_small.
      pose proof (Z.div_lt_upper_bound v_in 3600 24 ltac:(lia) ltac:(lia)).
      pose proof (Z.div_pos v_in 3600 ltac:(lia) ltac:(lia)). lia. }
    rewrite E.
    assert (E' : (v_in / 3600 =? 0) = false).
    { apply Z.eqb_neq. pose proof (Z.div_le_lower_bound v_in 3600 1 ltac:(lia) ltac:(lia)). lia. }
    rewrite E'. reflexivity.
Qed.

Lemma short_durations_witness :
  _cell_secs_to_h_m_s 185 = [xalign 1; text "3:05"] /\
  _cell_secs_to_h_m_s 3725 = [xalign 1; text "1:02:05"].
Proof.
  split.
  - apply (proj1 (short_durations 185)). lia.
  - apply (proj1 (proj2 (short_durations 3725))). lia.
Defined.

(** X17: from a day on, and for a negative number, the seconds are
    not shown: two durations within the same minute are shown by the
    same text. *)
Theorem long_durations_drop_seconds (v_in v : Z) :
  86400 <= v_in \/ v_in < 0 ->
  v / 60 = v_in / 60 ->
  _cell_secs_to_h_m_s v = _cell_secs_to_h_m_s v_in.
Proof.
  intros Hr Hm.
  pose proof (divmod_chain v_in) as H. cbv zeta in H.
  unfold _cell_secs_to_h_m_s. unfold d_h_m_s, divmod in *. rewrite Hm.
  destruct H as (_ & _ & _ & _ & _ & Hd).
  destruct (v_in / 60 / 60 / 24 =? 0) eqn:E; [apply Z.eqb_eq in E; lia|].
  reflexivity.
Qed.

Lemma long_durations_drop_seconds_witness :
  _cell_secs_to_h_m_s 90059 = _cell_secs_to_h_m_s 90000 /\
  shown "90000" (_cell_secs_to_h_m_s 90000) = "1d:01:00".
Proof.
  split; [|reflexivity].
  apply (long_durations_drop_seconds 90000 90059); [lia | reflexivity].
Defined.

(** X18: the bit rate cell. The function compares the type of the
    database with ["P3"], which is not the name that [_hand_over] gives
    to a Prokyon 3 database: for such a database, and for any other
    than Ampache, the text of a bit rate other than 0 is never set, so
    that the cell shows the number as it is. With Ampache the text is
    set for the rates above 9999 only, to the thousands and a "k"; a
    rate of 0 is shown as the empty text with any database. *)
Theorem bitrate_cell (_db_type attribute : string) (bitrate : Z) :
  shown attribute (_cell_k _db_type 0) = "" /\
  (bitrate <> 0 -> _db_type <> "P3" ->
   _db_type <> Pages.AMPACHE \/ bitrate <= 9999 ->
   shown attribute (_cell_k _db_type bitrate) = attribute) /\
  (bitrate <> 0 -> shown attribute (_cell_k Pages.PROKYON_3 bitrate) = attribute) /\
  (9999 < bitrate ->
   shown attribute (_cell_k Pages.AMPACHE bitrate)
   = (PyStr.of_Z (bitrate / 1000) ++ "k")%string).
Proof.
  assert (Hgen : bitrate <> 0 -> _db_type <> "P3" ->
                 _db_type <> Pages.AMPACHE \/ bitrate <= 9999 ->
                 shown attribute (_cell_k _db_type bitrate) = attribute).
  { intros H0 H3 H. unfold _cell_k.
    apply Z.eqb_neq in H0. rewrite H0.
    apply String.eqb_neq in H3. rewrite H3.
    destruct H as [H|H].
    - apply String.eqb_neq in H. rewrite H, andb_false_r. reflexivity.
    - assert (E : (bitrate >? 9999) = false) by lia. rewrite E. reflexivity. }
  split; [reflexivity|]. split; [exact Hgen|]. split.
  - intros H0. unfold _cell_k. apply Z.eqb_neq in H0. rewrite H0.
    change (String.eqb Pages.PROKYON_3 "P3") with false.
    change (String.eqb Pages.PROKYON_3 Pages.AMPACHE) with false.
    rewrite andb_false_r. reflexivity.
  - intros H. unfold _cell_k.
    assert (E0 : (bitrate =? 0) = false) by lia.
    assert (E : (bitrate >? 9999) = true) by lia. rewrite E0, E. reflexivity.
Qed.

Lemma bitrate_cell_witness :
  shown "320" (_cell_k Pages.PROKYON_3 320) = "320" /\
  shown "320000" (_cell_k Pages.AMPACHE 320000) = "320k" /\
  shown "128" (_cell_k Pages.AMPACHE 128) = "128".
Proof.
  split; [|split].
  - apply (proj1 (proj2 (proj2 (bitrate_cell "" "320" 320)))). lia.
  - apply (proj2 (proj2 (proj2 (bitrate_cell "" "320000" 320000)))). lia.
  - apply (proj1 (proj2 (bitrate_cell Pages.AMPACHE "128" 128)));
      [lia | discriminate | right; lia].
Defined.

End CellFacts.

(** ** Numbers as text, and the widths of the columns *)
Module ColumnFacts.
Import Columns.

Lemma rstrip_spaceless (s : string) : spaceless s = true -> PyStr.rstrip s = s.
Proof.
  induction s as [|c s IH]; simpl; [reflexivity|].
  intros H. apply andb_true_iff in H. destruct H as [Hc Hs].
  rewrite (IH Hs). destruct s; [|reflexivity].
  apply negb_true_iff in Hc. now rewrite Hc.
Qed.

Lemma strip_spaceless (s : string) : spaceless s = true -> PyStr.strip s = s.
Proof.
  intros H. unfold PyStr.strip.
  assert (E : PyStr.lstrip s = s).
  { destruct s as [|c s]; [reflexivity|]. simpl in *.
    apply andb_true_iff in H. destruct H as [Hc _].
    apply negb_true_iff in Hc. now rewrite Hc. }
  rewrite E. now apply rstrip_spaceless.
Qed.

(** The digits of a decimal number, read by [int]. *)
Lemma digits_value_acc (d : Decimal.uint) : forall acc : positive,
  PyStr.digits_value (Z.pos acc) (NilEmpty.string_of_uint d)
  = Some (Z.pos (Pos.of_uint_acc d acc)).
Proof.
  induction d; intros acc; simpl; [reflexivity|..];
    unfold PyStr.digit_value; simpl;
    rewrite <- IHd; f_equal; lia.
Qed.

Lemma digits_value_uint (d : Decimal.uint) :
  PyStr.digits_value 0 (NilEmpty.string_of_uint d) = Some (Z.of_N (Pos.of_uint d)).
Proof.
  induction d; simpl; [reflexivity|..];
    unfold PyStr.digit_value; simpl;
    first [exact IHd | apply digits_value_acc].
Qed.

Lemma uint_spaceless (d : Decimal.uint) :
  spaceless (NilEmpty.string_of_uint d) = true.
Proof. induction d; simpl; auto. Qed.

Lemma uint_without (sep : ascii) (d : Decimal.uint) :
  PyStr.digit_value sep = None ->
  PyStr.contains sep (NilEmpty.string_of_uint d) = false.
Proof.
  intros H.
  induction d; cbn [NilEmpty.string_of_uint PyStr.contains]; [reflexivity|..];
    rewrite IHd, orb_false_r; apply Ascii.eqb_neq; intros <-; discriminate H.
Qed.

Lemma int_of_pos (p : positive) :
  PyStr.int (NilEmpty.string_of_uint (Pos.to_uint p)) = Some (Z.pos p).
Proof.
  pose proof (DecimalPos.Unsigned.of_to p) as E.
  pose proof (digits_value_uint (Pos.to_uint p)) as D. rewrite E in D.
  pose proof (uint_spaceless (Pos.to_uint p)) as S.
  unfold PyStr.int. rewrite (strip_spaceless _ S).
  destruct (Pos.to_uint p); simpl in *; try discriminate; exact D.
Qed.

Lemma of_Z_pos (p : positive) :
  NilZero.string_of_uint (Pos.to_uint p) = NilEmpty.string_of_uint (Pos.to_uint p).
Proof.
  pose proof (DecimalPos.Unsigned.to_uint_nonnil p).
  now destruct (Pos.to_uint p).
Qed.

Lemma of_Z_spaceless (n : Z) : spaceless (PyStr.of_Z n) = true.
Proof.
  unfold PyStr.of_Z. destruct n as [|p|p]; simpl; [reflexivity|..];
    rewrite of_Z_pos; apply uint_spaceless.
Qed.

Lemma of_Z_without (sep : ascii) (n : Z) :
  PyStr.digit_value sep = None -> Ascii.eqb "-" sep = false ->
  PyStr.contains sep (PyStr.of_Z n) = false.
Proof.
  intros Hd Hm. unfold PyStr.of_Z. destruct n as [|p|p].
  - change (PyStr.contains sep (NilEmpty.string_of_uint (Decimal.D0 Decimal.Nil)) = false).
    now apply uint_without.
  - change (PyStr.contains sep (NilZero.string_of_uint (Pos.to_uint p)) = false).
    rewrite of_Z_pos. now apply uint_without.
  - change (PyStr.contains sep (String "-" (NilZero.string_of_uint (Pos.to_uint p)))
            = false).
    rewrite of_Z_pos. cbn [PyStr.contains]. rewrite Hm. now apply uint_without.
Qed.

Lemma int_of_Z_value (n : Z) : PyStr.int (PyStr.of_Z n) = Some n.
Proof.
  pose proof (of_Z_spaceless n) as S.
  unfold PyStr.int. rewrite (strip_spaceless _ S). clear S.
  unfold PyStr.of_Z. destruct n as [|p|p]; simpl; [reflexivity|..];
    rewrite of_Z_pos;
    pose proof (int_of_pos p) as I; unfold PyStr.int in I;
    rewrite (strip_spaceless _ (uint_spaceless _)) in I.
  - exact I.
  - assert (U : PyStr.unsigned_value (NilEmpty.string_of_uint (Pos.to_uint p))
                = Some (Z.pos p)).
    { destruct (NilEmpty.string_of_uint (Pos.to_uint p)) as [|c s] eqn:Es;
        [discriminate I|].
      destruct (Pos.to_uint p); simpl in Es; try discriminate;
        injection Es as <- <-; exact I. }
    now rewrite U.
Qed.

(** X19: [int (str (n))] is [n], for every integer: the text that
    ["%d" % n] and [str (n)] make of a number, of which the module
    makes the saved column widths and its messages, is read back by
    [int] as that number, and it has no white space and no comma. *)
Theorem int_of_Z (n : Z) :
  PyStr.int (PyStr.of_Z n) = Some n /\
  PyStr.strip (PyStr.of_Z n) = PyStr.of_Z n /\
  PyStr.contains "," (PyStr.of_Z n) = false.
Proof.
  split; [apply int_of_Z_value|].
  split; [apply strip_spaceless, of_Z_spaceless | now apply of_Z_without].
Qed.

Lemma int_of_Z_witness : PyStr.int (PyStr.of_Z (-1061)) = Some (-1061).
Proof. exact (proj1 (int_of_Z (-1061))). Defined.

Lemma split_plain (sep : ascii) (x : string) :
  PyStr.contains sep x = false -> split sep x = [x].
Proof.
  induction x as [|c x IH]; simpl; [reflexivity|].
  intros H. apply orb_false_iff in H. destruct H as [Hc Hx].
  now rewrite Hc, (IH Hx).
Qed.

Lemma split_app (sep : ascii) (x s : string) :
  PyStr.contains sep x = false ->
  split sep (x ++ String sep s) = x :: split sep s.
Proof.
  induction x as [|c x IH]; simpl.
  - now rewrite Ascii.eqb_refl.
  - intros H. apply orb_false_iff in H. destruct H as [Hc Hx].
    now rewrite Hc, (IH Hx).
Qed.

(** [split] undoes [join], when the texts do not have the
    separator. *)
Lemma split_join (sep : ascii) (l : list string) :
  l <> [] ->
  Forall (fun x => PyStr.contains sep x = false) l ->
  split sep (join (PyStr.of_char sep) l) = l.
Proof.
  induction l as [|x l IH]; [congruence|]. intros _ H.
  inversion H as [|? ? Hx Hl]; subst.
  destruct l as [|y l]; [now apply split_plain|].
  change (join (PyStr.of_char sep) (x :: y :: l))
    with (x ++ String sep (join (PyStr.of_char sep) (y :: l)))%string.
  rewrite (split_app sep x _ Hx). f_equal. now apply IH.
Qed.

Lemma restore_widths (cols : list column) : forall targets : list column,
  length targets = length cols ->
  restore (map (fun x => PyStr.of_Z (or_ (get_width x) (get_fixed_width x))) cols)
    targets
  = (None,
     zip_with (fun x t => set_fixed_width (or_ (get_width x) (get_fixed_width x)) t)
       cols targets).
Proof.
  induction cols as [|x cols IH]; intros [|t targets] Hl; try discriminate;
    [reflexivity|].
  cbn [map restore zip_with]. rewrite int_of_Z_value.
  rewrite IH by (simpl in Hl; lia).
  destruct (String.eqb _ "0") eqn:E; [|reflexivity].
  apply String.eqb_eq in E.
  pose proof (int_of_Z_value (or_ (get_width x) (get_fixed_width x))) as I.
  rewrite E in I. injection I as <-. reflexivity.
Qed.

(** X20: the widths that [get_col_widths] saves are those that
    [set_col_widths] restores. For a page with at least one column, the
    text made by [get_col_widths] is taken by [set_col_widths] without
    an exception, on a page with as many columns: each column is given,
    as its fixed width, the width (or, if that is 0, the fixed width)
    that the column in its place had, except that a column whose
    saved width is 0 is left as it is. *)
Theorem col_widths_round_trip (tree_cols targets : list column) :
  tree_cols <> [] ->
  length targets = length tree_cols ->
  set_col_widths (get_col_widths tree_cols) targets
  = (None,
     zip_with (fun x t => set_fixed_width (or_ (get_width x) (get_fixed_width x)) t)
       tree_cols targets).
Proof.
  intros Hne Hl. unfold set_col_widths, get_col_widths.
  change "," with (PyStr.of_char ",") at 1.
  rewrite split_join.
  - now apply restore_widths.
  - now destruct tree_cols.
  - apply Forall_map, Forall_forall. intros x _. now apply of_Z_without.
Qed.

Lemma col_widths_round_trip_witness :
  let tree_cols := [Column 0 1; Column 180 230; Column 0 0; Column 47 150] in
  let targets := [Column 0 1; Column 0 230; Column 0 1; Column 0 150] in
  get_col_widths tree_cols = "1,180,0,47" /\
  set_col_widths (get_col_widths tree_cols) targets
  = (None, [Column 0 1; Column 0 180; Column 0 1; Column 0 47]).
Proof.
  intros tree_cols targets. split; [reflexivity|].
  apply (col_widths_round_trip tree_cols targets); [discriminate | reflexivity].
Defined.

Lemma split_cons (sep : ascii) (s : string) : exists w ws, split sep s = w :: ws.
Proof.
  induction s as [|c s (w & ws & IH)]; simpl; [now eexists _, _|].
  destruct (Ascii.eqb c sep); [now eexists _, _|]. rewrite IH. now eexists _, _.
Qed.

(** X21: what [set_col_widths] raises. Given the empty text, which
    [get_col_widths] makes for a page without columns, it raises
    [ValueError] for a page that has a column: [int] is applied to the
    empty text (this is why [MediaPane.set_col_widths] leaves an empty
    text alone); and for a page without columns it raises
    [StopIteration] whatever the text. It also raises [StopIteration],
    after the columns are restored, when the text has more widths than
    the page has columns. *)
Theorem set_col_widths_raises (data : string) (x : column)
    (tree_cols more : list column) :
  get_col_widths [] = "" /\
  set_col_widths "" (x :: tree_cols) = (Some (Exception ValueError), x :: tree_cols) /\
  set_col_widths data [] = (Some StopIteration, []) /\
  (more <> [] ->
   set_col_widths (get_col_widths (tree_cols ++ more)) tree_cols
   = (Some StopIteration,
      zip_with (fun x t => set_fixed_width (or_ (get_width x) (get_fixed_width x)) t)
        tree_cols tree_cols)).
Proof.
  split; [reflexivity|]. split; [reflexivity|]. split.
  - unfold set_col_widths. destruct (split_cons "," data) as (w & ws & ->). reflexivity.
  - intros Hm. unfold set_col_widths, get_col_widths.
    change "," with (PyStr.of_char ",") at 1.
    rewrite split_join;
      [|destruct tree_cols, more; simpl; congruence
       |apply Forall_map, Forall_forall; intros y _; now apply of_Z_without].
    clear x data. induction tree_cols as [|y l IH].
    + destruct more; [congruence | reflexivity].
    + cbn [map app restore zip_with]. rewrite int_of_Z_value. rewrite IH.
      destruct (String.eqb _ "0") eqn:E; [|reflexivity].
      apply String.eqb_eq in E.
      pose proof (int_of_Z_value (or_ (get_width y) (get_fixed_width y))) as I.
      rewrite E in I. injection I as <-. reflexivity.
Qed.

Lemma set_col_widths_raises_witness :
  set_col_widths "180,47,100" [Column 180 1; Column 47 1]
  = (Some StopIteration, [Column 180 180; Column 47 47]).
Proof.
  apply (proj2 (proj2 (proj2
           (set_col_widths_raises "" (Column 0 1) [Column 180 1; Column 47 1]
              [Column 0 100])))).
  discriminate.
Defined.

End ColumnFacts.

(** ** The discovery of the database type *)
Module MediaFacts.
Import MediaPane.

Lemma issubset_In (a b : list string) :
  issubset a b = true <-> forall x, In x a -> In x b.
Proof.
  unfold issubset. rewrite forallb_forall. split; intros H x Hx.
  - apply H in Hx. apply existsb_exists in Hx. destruct Hx as (y & Hy & E).
    apply String.eqb_eq in E. now subst.
  - apply existsb_exists. exists x. split; [now apply H | apply String.eqb_refl].
Qed.

Lemma first_columns_app (data more : table) (a b : list string) :
  first_columns data = inr a -> first_columns more = inr b ->
  first_columns (data ++ more) = inr (a ++ b).
Proof.
  revert a. induction data as [|[|x0 row] data IH]; intros a; simpl.
  - intros [= <-] H. exact H.
  - discriminate.
  - destruct (first_columns data) as [e|l]; [discriminate|].
    intros [= <-] H. now rewrite (IH l eq_refl H).
Qed.

(** X22: [schema_test] asks whether each word of the text is the
    first column of some row. Rows that are added to the data, before
    or after it, do not make a test fail that is passed; the answer
    does not depend on the order of the rows. A row without columns
    makes the test raise [IndexError]. *)
Theorem schema_test_monotone (string_ : string) (data more : table) (names : list string) :
  first_columns more = inr names ->
  schema_test string_ data = inr true ->
  schema_test string_ (data ++ more) = inr true /\
  schema_test string_ (more ++ data) = inr true /\
  schema_test string_ (data ++ [[]] ++ more) = inl IndexError.
Proof.
  intros Hm. unfold schema_test.
  destruct (first_columns data) as [e|l] eqn:Hd; [discriminate|].
  intros [= H]. rewrite issubset_In in H.
  rewrite (first_columns_app _ _ _ _ Hd Hm), (first_columns_app _ _ _ _ Hm Hd).
  split; [|split].
  - f_equal. apply issubset_In. intros x Hx. apply in_app_iff. left. now apply H.
  - f_equal. apply issubset_In. intros x Hx. apply in_app_iff. right. now apply H.
  - clear H. revert l Hd. induction data as [|[|x0 row] data IH]; intros l; simpl.
    + reflexivity.
    + discriminate.
    + destruct (first_columns data) as [e|l'] eqn:E; [discriminate|].
      intros _. specialize (IH l' eq_refl). simpl in IH.
      destruct (first_columns (data ++ [] :: more)); [|discriminate].
      congruence.
Qed.

Lemma schema_test_monotone_witness :
  schema_test "album artist song" ([["song"]; ["artist"]; ["album"]] ++ [["user"]])
  = inr true.
Proof.
  apply (proj1 (schema_test_monotone "album artist song"
                  [["song"]; ["artist"]; ["album"]] [["user"]] ["user"]
                  eq_refl eq_refl)).
Defined.

Lemma existsb_In (x : string) (names : list string) :
  existsb (String.eqb x) names = true <-> In x names.
Proof.
  rewrite existsb_exists. split.
  - intros (y & Hy & E). apply String.eqb_eq in E. now subst.
  - intros H. exists x. split; [exact H | apply String.eqb_refl].
Qed.

Lemma existsb_not_In (x : string) (names : list string) :
  existsb (String.eqb x) names = false <-> ~ In x names.
Proof.
  rewrite <- existsb_In. now destruct (existsb _ _).
Qed.

(** X23: the first stage decides by the names of the tables, which
    are the first columns of the answer to [SHOW tables]. A table
    [tracks] makes it ask for the columns of [tracks], on the way to
    Prokyon 3, whatever other tables there are; without [tracks], the
    three tables [album], [artist] and [song] make it ask for the
    columns of [song], on the way to Ampache; otherwise the database is
    notified as unrecognised and the connection is given up. *)
Theorem stage_1_decides (data : table) (names : list string) :
  first_columns data = inr names ->
  (In "tracks" names ->
   _stage_1 data = inr [ask "DESCRIBE tracks" "_stage_2" "_fail_1"]) /\
  (~ In "tracks" names ->
   In "album" names /\ In "artist" names /\ In "song" names ->
   _stage_1 data = inr [ask "DESCRIBE song" "_stage_4" "_fail_1"]) /\
  (~ In "tracks" names ->
   ~ (In "album" names /\ In "artist" names /\ In "song" names) ->
   _stage_1 data = inr [notify "Unrecognised database"; _safe_disconnect]).
Proof.
  intros H. unfold _stage_1, schema_test, issubset. rewrite H.
  replace (split "tracks") with ["tracks"] by (vm_compute; reflexivity).
  replace (split "album artist song") with ["album"; "artist"; "song"]
    by (vm_compute; reflexivity).
  cbn [forallb Pages.and_then]. rewrite !andb_true_r.
  split; [|split].
  - intros Ht. now rewrite (proj2 (existsb_In _ _) Ht).
  - intros Ht (Ha & Hb & Hc). rewrite (proj2 (existsb_not_In _ _) Ht).
    now rewrite (proj2 (existsb_In _ _) Ha), (proj2 (existsb_In _ _) Hb),
      (proj2 (existsb_In _ _) Hc).
  - intros Ht Hn. rewrite (proj2 (existsb_not_In _ _) Ht).
    destruct (existsb (String.eqb "album") names) eqn:Ea;
      destruct (existsb (String.eqb "artist") names) eqn:Eb;
      destruct (existsb (String.eqb "song") names) eqn:Ec; try reflexivity.
    exfalso. apply Hn. apply existsb_In in Ea, Eb, Ec. tauto.
Qed.

Lemma stage_1_decides_witness :
  _stage_1 [["song"]; ["tracks"]; ["artist"]; ["album"]]
  = inr [ask "DESCRIBE tracks" "_stage_2" "_fail_1"].
Proof.
  apply (proj1 (stage_1_decides [["song"]; ["tracks"]; ["artist"]; ["album"]]
                  ["song"; "tracks"; "artist"; "album"] eq_refl)).
  simpl. tauto.
Defined.

(** X24: the handler of a failed [ALTER TABLE ... ADD FULLTEXT].
    When the exception has no arguments, or its first argument is the
    number 1061, the pages are handed the database under its type, and
    nothing else is done. With any other first argument the call of
    [notify_] raises [NameError], the name not being bound anywhere, and
    the pages are not handed the database. *)
Theorem fail_handler_hands_over (dbtype : string) (exception_args : list argument) :
  (exception_args = [] \/ (exists rest, exception_args = Number 1061 :: rest) ->
   factory dbtype exception_args = inr [_hand_over dbtype]) /\
  (forall code rest,
     exception_args = code :: rest -> code <> Number 1061 ->
     factory dbtype exception_args = inl NameError).
Proof.
  split.
  - intros [-> | [rest ->]]; reflexivity.
  - intros code rest -> Hc. unfold factory, differs_from_1061.
    destruct code as [n|s]; [|reflexivity].
    destruct (Z.eqb_spec n 1061) as [->|Hn]; [congruence | reflexivity].
Qed.

Lemma fail_handler_hands_over_witness :
  _fail_3 [Number 1061; Text "Duplicate key name"] = inr [_hand_over Pages.AMPACHE] /\
  _fail_2 [Number 1214; Text "The used table type does not support FULLTEXT indexes"]
  = inl NameError.
Proof.
  split.
  - apply (proj1 (fail_handler_hands_over Pages.AMPACHE _)). right. now eexists.
  - apply (proj2 (fail_handler_hands_over Pages.PROKYON_3 _) (Number 1214) _ eq_refl).
    discriminate.
Defined.

(** X25: which handlers of the pane activate the pages. The stages
    that look at the schema or ask for an index, which are [_stage_1],
    [_stage_2] and [_stage_4] to [_stage_8], never call [_hand_over],
    whatever the data. The two stages that run when the last index has
    been added, [_stage_3] for Prokyon 3 and [_stage_9] for Ampache,
    call [_hand_over] once, with the type of the database, and that
    call is the last thing they do. *)
Theorem last_stages_hand_over (data : table) (acts : list action) :
  (_stage_1 data = inr acts \/ _stage_2 data = inr acts \/ _stage_4 data = inr acts \/
   _stage_5 data = inr acts \/ _stage_6 data = inr acts \/
   _stage_7 = acts \/ _stage_8 = acts ->
   existsb hands_over acts = false) /\
  (List.filter hands_over _stage_3 = [_hand_over Pages.PROKYON_3] /\
   last _stage_3 = Some (_hand_over Pages.PROKYON_3)) /\
  (List.filter hands_over _stage_9 = [_hand_over Pages.AMPACHE] /\
   last _stage_9 = Some (_hand_over Pages.AMPACHE)).
Proof.
  split; [|repeat split; reflexivity].
  unfold _stage_1, _stage_2, _stage_4, _stage_5, _stage_6.
  intros [H|[H|[H|[H|[H|[H|H]]]]]]; try (subst; reflexivity).
  - destruct (schema_test "tracks" data) as [e|[|]]; cbn [Pages.and_then] in H;
      try discriminate; [injection H as <-; reflexivity|].
    destruct (schema_test _ data) as [e|[|]]; cbn [Pages.and_then] in H;
      try discriminate; injection H as <-; reflexivity.
  - destruct (schema_test _ data) as [e|[|]]; cbn [Pages.and_then] in H;
      try discriminate; injection H as <-; reflexivity.
  - destruct (schema_test _ data) as [e|[|]]; cbn [Pages.and_then] in H;
      try discriminate; injection H as <-; reflexivity.
  - destruct (schema_test _ data) as [e|[|]]; cbn [Pages.and_then] in H;
      try discriminate; injection H as <-; reflexivity.
  - destruct (schema_test _ data) as [e|[|]]; cbn [Pages.and_then] in H;
      try discriminate; injection H as <-; reflexivity.
Qed.

Lemma last_stages_hand_over_witness :
  existsb hands_over
    [notify "Found Ampache schema";
     ask "ALTER TABLE album ADD FULLTEXT idjc (name)" "_stage_7" "_fail_3"] = false.
Proof.
  apply (proj1 (last_stages_hand_over [["name"]; ["prefix"]; ["id"]] _)).
  right. right. right. right. left. reflexivity.
Defined.

End MediaFacts.

(** ** Drag and drop *)
Module DragFacts.
Import Pages DragData.

(** X26: the file of a row that the flat builder has stored, as
    drag and drop gives it. For a Prokyon 3 row it is ["file://"], the
    path after the path transformation, ["/"] and the file name. For an
    Ampache row the builder has split [file] at its last ["/"]: the
    text is ["file://"], the part before that ["/"] after the path
    transformation, ["/"] and the part after it; so without a path
    transformation it is ["file://"] and [file] as the database has
    it. *)
Theorem dragged_file_of_stored_row (ampache : bool) (transform : string -> string)
    (found : Z) (r : row) (t : flat_row) :
  flat_tuple ampache transform found r = inr t ->
  flat_drag_data [t] [0%nat] = inr [(r_path (snd t), r_filename (snd t))] /\
  if ampache then
    exists path fname,
      r_filename r = (path ++ "/" ++ fname)%string /\
      PyStr.contains "/" fname = false /\
      uri (r_path (snd t), r_filename (snd t))
      = ("file://" ++ transform path ++ "/" ++ fname)%string /\
      ((forall s, transform s = s) ->
       uri (r_path (snd t), r_filename (snd t)) = ("file://" ++ r_filename r)%string)
  else
    uri (r_path (snd t), r_filename (snd t))
    = ("file://" ++ transform (r_path r) ++ "/" ++ r_filename r)%string.
Proof.
  intros H. split; [now destruct t|].
  unfold flat_tuple in H. destruct ampache.
  - unfold PyStr.rsplit1 in H.
    destruct (PyStr.rcut "/" (r_filename r)) as [[path fname]|] eqn:E;
      [|discriminate].
    simpl in H. injection H as <-.
    destruct (PyStrFacts.rcut_Some _ _ _ _ E) as [Hs Hc].
    exists path, fname. split; [exact Hs|]. split; [exact Hc|].
    split; [reflexivity|].
    intros Hid. unfold uri. simpl. now rewrite Hid, Hs.
  - injection H as <-. reflexivity.
Qed.

Lemma dragged_file_of_stored_row_witness :
  let r := Builders.song "Abba" "Arrival" "Tiger" "/music/abba/tiger.mp3" in
  _cb_drag_data_get
    (flat_drag_data [(1, Row "Abba" "Arrival" 1 "Tiger" 180 128 "tiger.mp3"
                            "/music/abba" 1)] [0%nat])
  = inr "file:///music/abba/tiger.mp3" /\
  exists path fname,
    r_filename r = (path ++ "/" ++ fname)%string /\
    PyStr.contains "/" fname = false /\
    uri ("/music/abba", "tiger.mp3")
    = ("file://" ++ (fun s => s) path ++ "/" ++ fname)%string /\
    ((forall s, (fun s : string => s) s = s) ->
     uri ("/music/abba", "tiger.mp3") = ("file://" ++ r_filename r)%string).
Proof.
  intros r. split; [reflexivity|].
  apply (proj2 (dragged_file_of_stored_row true (fun s => s) 1 r
                  (1, Row "Abba" "Arrival" 1 "Tiger" 180 128 "tiger.mp3"
                          "/music/abba" 1) eq_refl)).
Defined.

Section Tree.

Variable getitem : list nat -> option node.



End Tree.


End DragFacts.

(** ** The search *)
Module SearchFacts.
Import Pages DBAccessor Search.

(** The queries have the lengths of the texts of the table. *)
Example lengths_of_queries :
  String.length prokyon_fuzzy = 226%nat /\ String.length prokyon_where = 229%nat /\
  String.length ampache_fuzzy = 636%nat /\ String.length ampache_where = 602%nat.
Proof. vm_compute. tauto. Qed.

(** The placeholders of the queries. *)
Lemma counts_of_queries :
  count "(%s)" prokyon_fuzzy = 1 /\ count "(%s)" ampache_fuzzy = 3 /\
  count "(%s)" prokyon_where = 1 /\ count "(%s)" ampache_where = 1 /\
  count "%" prokyon_fuzzy = 1 /\ count "%" ampache_fuzzy = 3 /\
  count "%" prokyon_where = 1 /\ count "%" ampache_where = 1.
Proof. vm_compute. tauto. Qed.

Lemma known_queries (db_type : string) :
  db_type = PROKYON_3 \/ db_type = AMPACHE ->
  exists fuzzy where_,
    _queries_table db_type = Some ((CLEAN, fuzzy), (DIRTY, where_)) /\
    (db_type = PROKYON_3 -> fuzzy = prokyon_fuzzy /\ where_ = prokyon_where) /\
    (db_type = AMPACHE -> fuzzy = ampache_fuzzy /\ where_ = ampache_where).
Proof.
  intros [-> | ->]; do 2 eexists; (split; [reflexivity|]);
    split; intros H; try discriminate H; now split.
Qed.

(** X28: a fuzzy search. When the fuzzy entry has a text that is
    not blank, the request is made with the query of the database type
    as it stands in the table, and the text of the entry, stripped, goes
    to the driver as the parameters of [execute]: as many copies as the
    query has placeholders, one for Prokyon 3 and three for Ampache. The
    text of the user is no part of the SQL text; the entry for [WHERE]
    is not looked at, and the page is as it was. *)
Theorem fuzzy_search_is_parametrised (fuzzy_entry where_entry : string) (p : flat_page) :
  PyStr.strip fuzzy_entry <> "" ->
  let user_text := PyStr.strip fuzzy_entry in
  (db_type (f_common p) = PROKYON_3 ->
   _cb_update fuzzy_entry where_entry p
   = inr (Some (Job (Some (prokyon_fuzzy, [user_text])) "_handler" None),
          where_entry, p)) /\
  (db_type (f_common p) = AMPACHE ->
   _cb_update fuzzy_entry where_entry p
   = inr (Some (Job (Some (ampache_fuzzy, [user_text; user_text; user_text]))
                  "_handler" None),
          where_entry, p)) /\
  count "%" prokyon_fuzzy = 1 /\ count "%" ampache_fuzzy = 3.
Proof.
  intros Hu. cbv zeta. apply String.eqb_neq in Hu.
  destruct counts_of_queries as (C1 & C2 & _ & _ & C5 & C6 & _).
  split; [|split; [|now split]]; intros Hd; unfold _cb_update; rewrite Hd;
    cbn [_queries_table String.eqb]; unfold _queries_table;
    rewrite ?String.eqb_refl.
  - rewrite Hu. cbn [negb]. now rewrite C1.
  - change (String.eqb AMPACHE PROKYON_3) with false. cbv iota.
    rewrite Hu. cbn [negb]. now rewrite C2.
Qed.

Lemma fuzzy_search_is_parametrised_witness :
  let c := Common [] [] 0%nat [] None AMPACHE (fun s => s) in
  let p := FlatPage c [] "(0)" in
  _cb_update " abba  " "year > 1975" p
  = inr (Some (Job (Some (ampache_fuzzy, ["abba"; "abba"; "abba"])) "_handler" None),
         "year > 1975", p).
Proof.
  intros c p.
  apply (proj1 (proj2 (fuzzy_search_is_parametrised " abba  " "year > 1975" p
                         ltac:(discriminate)))).
  reflexivity.
Defined.

(** A character other than ["%"] is copied by [format]. *)
Lemma format_copies (c : ascii) (rest : string) (args : list string) :
  Ascii.eqb c "%" = false ->
  format (String c rest) args
  = and_then (format rest args) (fun t => inr (String c t)).
Proof.
  intros H. destruct c as [[|] [|] [|] [|] [|] [|] [|] [|]];
    try reflexivity; discriminate H.
Qed.

Lemma format_plain (s : string) :
  PyStr.contains "%" s = false -> format s [] = inr s.
Proof.
  induction s as [|c s IH]; [reflexivity|]. cbn [PyStr.contains].
  intros H. apply orb_false_iff in H. destruct H as [Hc Hs].
  rewrite (format_copies c s [] Hc), (IH Hs). reflexivity.
Qed.

(** The text takes the place of the one [%s] of a template. *)
Lemma format_one (pre post a : string) :
  PyStr.contains "%" pre = false -> PyStr.contains "%" post = false ->
  format (pre ++ "%s" ++ post) [a] = inr (pre ++ a ++ post)%string.
Proof.
  intros Hpre Hpost. induction pre as [|c pre IH].
  - cbn [String.append format]. now rewrite (format_plain post Hpost).
  - cbn [PyStr.contains] in Hpre. apply orb_false_iff in Hpre.
    destruct Hpre as [Hc Hpre].
    change (String c pre ++ "%s" ++ post)%string
      with (String c (pre ++ "%s" ++ post))%string.
    rewrite (format_copies c _ [a] Hc), (IH Hpre). reflexivity.
Qed.

Lemma append_assoc (a b c : string) : ((a ++ b) ++ c = a ++ (b ++ c))%string.
Proof. induction a as [|x a IH]; simpl; [reflexivity | now rewrite IH]. Qed.

Lemma times_1 (s : string) : times s 1 = s.
Proof. unfold times. simpl. reflexivity. Qed.

Lemma around_queries :
  Forall (fun query =>
            query = (fst (around query) ++ "(%s)" ++ snd (around query))%string /\
            PyStr.contains "%" (fst (around query)) = false /\
            PyStr.contains "%" (snd (around query)) = false)
    [prokyon_where; ampache_where].
Proof. repeat constructor; vm_compute; reflexivity. Qed.

(** X29: a search by [WHERE]. When the fuzzy entry is blank and the
    entry for [WHERE] has a text that is not, the request is made with
    no parameters, and with the query of the table in which the text of
    the entry, stripped, stands for the one [%s], between its
    parentheses and as the user has typed it: the text is SQL, and
    becomes a part of the statement. *)
Theorem where_search_splices_text (fuzzy_entry where_entry : string) (p : flat_page) :
  PyStr.strip fuzzy_entry = "" ->
  PyStr.strip where_entry <> "" ->
  db_type (f_common p) = PROKYON_3 \/ db_type (f_common p) = AMPACHE ->
  exists pre post,
    (if String.eqb (db_type (f_common p)) PROKYON_3
     then prokyon_where else ampache_where)
    = (pre ++ "(%s)" ++ post)%string /\
    _cb_update fuzzy_entry where_entry p
    = inr (Some (Job (Some ((pre ++ "(" ++ PyStr.strip where_entry ++ ")" ++ post)%string,
                            []))
                   "_handler" None),
           where_entry, p).
Proof.
  intros Hf Hw Hd. apply String.eqb_neq in Hw.
  destruct counts_of_queries as (_ & _ & C3 & C4 & _).
  pose proof around_queries as A.
  inversion A as [|? ? (E1 & P1 & Q1) A']; subst.
  inversion A' as [|? ? (E2 & P2 & Q2) _]; subst.
  assert (F : forall pre post a,
    PyStr.contains "%" pre = false -> PyStr.contains "%" post = false ->
    format (pre ++ "(%s)" ++ post) [a] = inr (pre ++ "(" ++ a ++ ")" ++ post)%string).
  { intros pre post a Hp Hq.
    replace (pre ++ "(%s)" ++ post)%string
      with ((pre ++ "(") ++ "%s" ++ (")" ++ post))%string
      by (rewrite append_assoc; reflexivity).
    rewrite format_one.
    - now rewrite append_assoc.
    - clear -Hp. induction pre as [|c pre IH]; [reflexivity|].
      cbn [PyStr.contains String.append] in *. apply orb_false_iff in Hp.
      destruct Hp as [-> Hp]. now rewrite IH.
    - exact Hq. }
  destruct Hd as [Hd | Hd]; rewrite Hd.
  - exists (fst (around prokyon_where)), (snd (around prokyon_where)).
    split; [exact E1|].
    unfold _cb_update. rewrite Hd. unfold _queries_table. rewrite String.eqb_refl.
    rewrite Hf. cbn [String.eqb negb]. rewrite Hw, C3.
    rewrite E1 at 1. rewrite (F _ _ _ P1 Q1). cbn [and_then]. now rewrite times_1.
  - exists (fst (around ampache_where)), (snd (around ampache_where)).
    change (String.eqb AMPACHE PROKYON_3) with false. cbv iota.
    split; [exact E2|].
    unfold _cb_update. rewrite Hd. unfold _queries_table. rewrite String.eqb_refl.
    change (String.eqb AMPACHE PROKYON_3) with false. cbv iota.
    rewrite Hf. cbn [String.eqb negb]. rewrite Hw, C4.
    rewrite E2 at 1. rewrite (F _ _ _ P2 Q2). cbn [and_then]. now rewrite times_1.
Qed.

Lemma where_search_splices_text_witness :
  let c := Common [] [] 0%nat [] None PROKYON_3 (fun s => s) in
  let p := FlatPage c [] "(0)" in
  exists pre post,
    prokyon_where = (pre ++ "(%s)" ++ post)%string /\
    _cb_update "  " " 1=1) OR (1=1 " p
    = inr (Some (Job (Some ((pre ++ "(" ++ "1=1) OR (1=1" ++ ")" ++ post)%string, []))
                   "_handler" None),
           " 1=1) OR (1=1 ", p).
Proof.
  intros c p.
  apply (where_search_splices_text "  " " 1=1) OR (1=1 " p).
  - reflexivity.
  - discriminate.
  - now left.
Defined.

(** X30: the search is cleared. When both entries are blank, no
    request is made: the entry for [WHERE] is emptied, the pending
    updates of the page are cancelled and the list store is cleared, so
    that a call of [_update_2] that was pending does nothing when glib
    runs it. For a database type that the table does not have, nothing
    is done at all. *)
Theorem cleared_search_empties_the_list (fuzzy_entry where_entry : string)
    (p : flat_page) :
  (PyStr.strip fuzzy_entry = "" ->
   PyStr.strip where_entry = "" ->
   db_type (f_common p) = PROKYON_3 \/ db_type (f_common p) = AMPACHE ->
   exists p',
     _cb_update fuzzy_entry where_entry p = inr (None, "", p') /\
     list_store p' = [] /\
     _update_id (f_common p') = [] /\
     forall context ns k found keepalive cur,
       In (context, ns) (_update_id (f_common p)) ->
       heap (f_common p) !! ns = Some (Namespace k (FFound found)) ->
       flat_update_2 keepalive ns p' cur = (Returns false, p', cur)) /\
  (db_type (f_common p) <> PROKYON_3 ->
   db_type (f_common p) <> AMPACHE ->
   _cb_update fuzzy_entry where_entry p = inr (None, where_entry, p)).
Proof.
  split.
  - intros Hf Hw Hd.
    destruct (known_queries _ Hd) as (fuzzy & where_ & Hq & _).
    eexists. unfold _cb_update. rewrite Hq, Hf, Hw. cbn [String.eqb negb].
    split; [reflexivity|]. split; [reflexivity|].
    split; [apply BuilderFacts.cancel_fields|].
    intros context ns k found keepalive cur Hin Hn.
    destruct (PagesFacts.cancel_updates_kills (f_common p) context ns _ Hin Hn)
      as ([k' d'] & H & Hk & Hd'). simpl in Hk, Hd'. subst.
    unfold flat_update_2. cbn [f_common]. now rewrite H.
  - intros H1 H2. unfold _cb_update, _queries_table.
    apply String.eqb_neq in H1, H2. now rewrite H1, H2.
Qed.

Lemma cleared_search_empties_the_list_witness :
  let c := Common [Namespace false (FFound 100)] [(0%nat, FlatUpdate2 0)] 1%nat
             [(0%nat, 0%nat)] None AMPACHE (fun s => s) in
  let p := FlatPage c [(1, Builders.song "Abba" "Arrival" "Tiger" "abba/tiger.mp3")] "(0)" in
  exists p',
    _cb_update "" "  " p = inr (None, "", p') /\
    list_store p' = [] /\
    _update_id (f_common p') = [] /\
    forall context ns k found keepalive cur,
      In (context, ns) (_update_id (f_common p)) ->
      heap (f_common p) !! ns = Some (Namespace k (FFound found)) ->
      flat_update_2 keepalive ns p' cur = (Returns false, p', cur).
Proof.
  intros c p.
  apply (proj1 (cleared_search_empties_the_list "" "  " p));
    [reflexivity | reflexivity | now right].
Defined.

End SearchFacts.
